(** * Entity resolution, merge and quality gate of the Bay housing refresh

    A shallow embedding of [scripts/bay_housing_refresh.py]:
    [normalize_text], [likely_street_address], [canonical_key], [score],
    [passes_hard_filters], [quality_assessment] and [merge_duplicates];
    then the field extractor ([parse_candidates] and the functions it
    calls), the collecting loop of [run] and the field mapping of the
    sink ([notion_props]).

    Modelling conventions.
    - A Python [dict] with string keys is a [gmap string val].
    - A Python value is a [val]: [None], a string, a number or a list of
      strings (the provenance lists).  Numbers are exact rationals ([Q]):
      the prices, bed and bath counts and small integer scores that the
      extractor produces are exactly representable, and [round(s, 2)] is
      rounding of the exact value to hundredths, ties to even.
    - A character is a code point below 256 ([ascii]); the character
      classes of the regular expressions ([\d], [\s], [\w], case folding)
      are the ones Python's [re] uses on [str] patterns, restricted to that
      range.
    - An exception is the [Raise] outcome of the [res] monad.  [Unmodelled]
      marks a value outside the modelled domain (a provenance entry that is
      not a string); no theorem below concludes from a [Raise]. *)

From Stdlib Require Import String Ascii List ZArith QArith Qround Bool Lia Lqa.
From Stdlib Require Import Sorted Permutation Qpower.
From stdpp Require Import gmap strings list fin_maps.
Import ListNotations.

Local Open Scope string_scope.
Local Open Scope list_scope.

(** ** Values and dictionaries *)

Inductive val : Type :=
  | VNone
  | VStr (s : string)
  | VNum (q : Q)
  | VList (l : list string).

Abbreviation dict := (gmap string val).

(** [d.get(k)]: the value, [None] when the key is absent. *)
Definition get (d : dict) (k : string) : val :=
  match d !! k with Some v => v | None => VNone end.

(** [d.get(k, dflt)]. *)
Definition get_or (d : dict) (k : string) (dflt : val) : val :=
  match d !! k with Some v => v | None => dflt end.

(** Python truthiness: [None], [""], [0] and [[]] are falsy. *)
Definition truthy (v : val) : bool :=
  match v with
  | VNone => false
  | VStr s => negb (String.eqb s "")
  | VNum q => negb (Qeq_bool q 0)
  | VList l => match l with [] => false | _ => true end
  end.

(** [a or b]. *)
Definition py_or (a b : val) : val := if truthy a then a else b.

(** ** Exceptions *)

Inductive exn : Type :=
  | KeyError (k : string)
  | TypeError
  | AttributeError
  | Unmodelled.

Inductive res (A : Type) : Type :=
  | Ok (a : A)
  | Raise (e : exn).
Arguments Ok {A} a.
Arguments Raise {A} e.

Definition bind {A B : Type} (m : res A) (f : A -> res B) : res B :=
  match m with
  | Ok a => f a
  | Raise e => Raise e
  end.

Notation "'do' x <- m ; k" := (bind m (fun x => k))
  (at level 10, x pattern, m at level 100, k at level 200).

(** [d[k]]: raises [KeyError] when the key is absent. *)
Definition getitem (d : dict) (k : string) : res val :=
  match d !! k with Some v => Ok v | None => Raise (KeyError k) end.

(** ** Module constants *)

Definition MAX_RENT : Q := 8000.
Definition STRETCH_MAX : Q := 9000.
Definition MIN_BEDS : Q := 2.
Definition MIN_BATHS : Q := 2.
Definition ALLOWED_PROPERTY_TYPES : list string := ["house"; "townhouse"].

(** ** Characters and strings *)

Definition code (c : ascii) : N := N_of_ascii c.

Definition in_range (lo hi : N) (c : ascii) : bool :=
  (N.leb lo (code c) && N.leb (code c) hi)%bool.

(** [0-9], which is also [\d] below code point 256. *)
Definition is_digit (c : ascii) : bool := in_range 48 57 c.
(** [a-z]. *)
Definition is_lower_az (c : ascii) : bool := in_range 97 122 c.
(** [A-Z]. *)
Definition is_upper_az (c : ascii) : bool := in_range 65 90 c.

(** [\s] on [str]: tab, line feed, vertical tab, form feed, carriage
    return, the separators 28 to 31, space, NEL and no-break space. *)
Definition is_space (c : ascii) : bool :=
  (in_range 9 13 c || in_range 28 32 c
   || N.eqb (code c) 133 || N.eqb (code c) 160)%bool.

(** [\w] on [str]: alphanumerics and the underscore. *)
Definition is_word (c : ascii) : bool :=
  (is_digit c || is_upper_az c || is_lower_az c || N.eqb (code c) 95
   || N.eqb (code c) 170 || in_range 178 179 c || N.eqb (code c) 181
   || in_range 185 186 c || in_range 188 190 c
   || in_range 192 214 c || in_range 216 246 c || in_range 248 255 c)%bool.

(** [str.lower()] on one character. *)
Definition lower_char (c : ascii) : ascii :=
  if (is_upper_az c || in_range 192 214 c || in_range 216 222 c)%bool
  then ascii_of_N (code c + 32) else c.

Fixpoint lower (s : string) : string :=
  match s with
  | EmptyString => EmptyString
  | String c tl => String (lower_char c) (lower tl)
  end.

(** [[a-z0-9 ]], the characters [normalize_text] keeps. *)
Definition is_kept (c : ascii) : bool :=
  (is_lower_az c || is_digit c || N.eqb (code c) 32)%bool.

(** [re.sub(cls+, " ", s)] for a character class [cls]: every maximal run
    of characters of the class becomes one space.  [in_run] tells whether
    the previous character belonged to the run being replaced. *)
Fixpoint sub_runs (cls : ascii -> bool) (in_run : bool) (s : string) : string :=
  match s with
  | EmptyString => EmptyString
  | String c tl =>
      if cls c
      then (if in_run then sub_runs cls true tl
            else String " "%char (sub_runs cls true tl))
      else String c (sub_runs cls false tl)
  end.

(** [str.lstrip()], [str.rstrip()] and [str.strip()]. *)
Fixpoint lstrip (s : string) : string :=
  match s with
  | EmptyString => EmptyString
  | String c tl => if is_space c then lstrip tl else s
  end.

Fixpoint rstrip (s : string) : string :=
  match s with
  | EmptyString => EmptyString
  | String c tl =>
      match rstrip tl with
      | EmptyString => if is_space c then EmptyString else String c EmptyString
      | r => String c r
      end
  end.

Definition strip (s : string) : string := rstrip (lstrip s).

(** [(v or "").lower()] raises [AttributeError] unless the value is a
    string: numbers, lists and [None] have no [lower]. *)
Definition lower_val (v : val) : res string :=
  match v with
  | VStr s => Ok (lower s)
  | _ => Raise AttributeError
  end.

(** [normalize_text(s)]. *)
Definition normalize_text (s : val) : res string :=
  do l <- lower_val (py_or s (VStr ""));
  let s1 := sub_runs (fun c => negb (is_kept c)) false l in
  let s2 := strip (sub_runs is_space false s1) in
  Ok s2.

(** ** [likely_street_address]

    [re.search(r"\b\d{1,6}\s+[a-z0-9].+", s, flags=re.I)] succeeds when, at
    some position that is a word boundary, there are one to six digits,
    then at least one white-space character, then one character of
    [[a-z0-9]] (in either case), then at least one character other than a
    line feed.  The functions below follow the pattern piece by piece and
    try every split the backtracking matcher can try. *)

(** [[a-z0-9]] under [re.I]. *)
Definition is_alnum_i (c : ascii) : bool :=
  (is_lower_az c || is_upper_az c || is_digit c)%bool.

(** [.] without [re.DOTALL]: anything but a line feed. *)
Definition is_dot (c : ascii) : bool := negb (N.eqb (code c) 10).

(** [[a-z0-9].+] at the head of [s]. *)
Definition match_tail (s : string) : bool :=
  match s with
  | String c (String d _) => (is_alnum_i c && is_dot d)%bool
  | _ => false
  end.

(** [\s*[a-z0-9].+] at the head of [s], after one white-space character
    has been read. *)
Fixpoint match_spaces (s : string) : bool :=
  (match_tail s
   || match s with
      | String c tl => (is_space c && match_spaces tl)%bool
      | EmptyString => false
      end)%bool.

(** [\s+[a-z0-9].+] at the head of [s]. *)
Definition match_after_digits (s : string) : bool :=
  match s with
  | String c tl => (is_space c && match_spaces tl)%bool
  | EmptyString => false
  end.

(** [\d{0,n}\s+[a-z0-9].+] at the head of [s]. *)
Fixpoint match_digits (n : nat) (s : string) : bool :=
  (match_after_digits s
   || match n, s with
      | S n', String c tl => (is_digit c && match_digits n' tl)%bool
      | _, _ => false
      end)%bool.

(** [\d{1,6}\s+[a-z0-9].+] at the head of [s]. *)
Definition match_here (s : string) : bool :=
  match s with
  | String c tl => (is_digit c && match_digits 5 tl)%bool
  | EmptyString => false
  end.

(** The search over start positions.  [prev_word] tells whether the
    character before the position is a word character; the position is a
    boundary when that differs from the character at the position. *)
Fixpoint search_from (prev_word : bool) (s : string) : bool :=
  match s with
  | EmptyString => false
  | String c tl =>
      ((xorb prev_word (is_word c) && match_here s)
       || search_from (is_word c) tl)%bool
  end.

Definition likely_street_address (s : val) : res bool :=
  match py_or s (VStr "") with
  | VStr t => Ok (search_from false t)
  | _ => Raise TypeError
  end.

(** ** [canonical_key] *)

(** [re.sub(r"https?://", "", s)]: every occurrence, scanning from the
    left, of ["https://"] or ["http://"] is removed. *)
Fixpoint strip_scheme (s : string) : string :=
  match s with
  | String "h" (String "t" (String "t" (String "p" (String "s"
      (String ":" (String "/" (String "/" tl))))))) => strip_scheme tl
  | String "h" (String "t" (String "t" (String "p"
      (String ":" (String "/" (String "/" tl)))))) => strip_scheme tl
  | String c tl => String c (strip_scheme tl)
  | EmptyString => EmptyString
  end.

(** [re.sub] wants a string. *)
Definition strip_scheme_val (v : val) : res string :=
  match v with
  | VStr s => Ok (strip_scheme s)
  | _ => Raise TypeError
  end.

(** [s[:n]]. *)
Fixpoint take_str (n : nat) (s : string) : string :=
  match n, s with
  | S n', String c tl => String c (take_str n' tl)
  | _, _ => EmptyString
  end.

Definition canonical_key (item : dict) : res string :=
  do addr <- normalize_text (get_or item "address" (VStr ""));
  do street <- likely_street_address (VStr addr);
  if street then Ok ("addr:" +:+ addr)
  else
    do name <- normalize_text (get_or item "property_name" (VStr ""));
    do city <- normalize_text (get_or item "city" (VStr ""));
    if (truthy (VStr name) && truthy (VStr city))%bool
    then Ok ("namecity:" +:+ name +:+ "|" +:+ city)
    else
      do u <- strip_scheme_val (get_or item "url" (VStr ""));
      do url_key <- normalize_text (VStr u);
      Ok ("url:" +:+ take_str 140 url_key).

(** ** Numbers *)

(** A comparison or an addition with a number wants a number. *)
Definition num_of (v : val) : res Q :=
  match v with
  | VNum q => Ok q
  | _ => Raise TypeError
  end.

(** [a < b] on numbers. *)
Definition Qlt_bool (a b : Q) : bool := negb (Qle_bool b a).

(** Rounding to the nearest integer, ties to the even one. *)
Definition round_half_even (x : Q) : Z :=
  let f := Qfloor x in
  match Qcompare (x - inject_Z f)%Q (1 # 2)%Q with
  | Lt => f
  | Gt => (f + 1)%Z
  | Eq => if Z.even f then f else (f + 1)%Z
  end.

(** [round(x, 2)]. *)
Definition py_round2 (x : Q) : Q :=
  Qred (inject_Z (round_half_even (x * 100)%Q) / 100)%Q.

(** [v == s] for a string literal [s]. *)
Definition is_str (v : val) (s : string) : bool :=
  match v with
  | VStr t => String.eqb t s
  | _ => false
  end.

(** [v is None]. *)
Definition is_none (v : val) : bool :=
  match v with
  | VNone => true
  | _ => false
  end.

(** ** [score] *)

Definition score (item : dict) : res Q :=
  let s : Q := 0%Q in
  let price := get item "price" in
  let beds := get item "beds" in
  let baths := get item "baths" in
  do s <- (if is_none price then Ok s
           else do p <- num_of price;
                if Qle_bool p MAX_RENT then Ok (s + 4)%Q
                else if Qle_bool p STRETCH_MAX then Ok (s + 2)%Q
                else Ok s);
  do s <- (if is_none beds then Ok s
           else do b <- num_of beds;
                Ok (s + (if Qle_bool 3 b then 2
                         else if Qle_bool 2 b then 1 else 0))%Q);
  do s <- (if is_none baths then Ok s
           else do b <- num_of baths;
                if Qle_bool 2 b then Ok (s + 1)%Q else Ok s);
  let s := if is_str (get item "dog_friendly") "yes" then (s + 2)%Q else s in
  let s := if is_str (get item "parking") "yes" then (s + 2)%Q else s in
  do n <- num_of (get_or item "nature_score" (VNum 0));
  let s := (s + n)%Q in
  do c <- num_of (get_or item "commute_score" (VNum 0));
  let s := (s + c)%Q in
  Ok (py_round2 s).

(** ** [passes_hard_filters] *)

(** [ptype in ALLOWED_PROPERTY_TYPES]. *)
Definition allowed_type (ptype : string) : bool :=
  existsb (String.eqb ptype) ALLOWED_PROPERTY_TYPES.

(** [(item.get("property_type") or "unknown").lower()]. *)
Definition ptype_of (item : dict) : res string :=
  lower_val (py_or (get item "property_type") (VStr "unknown")).

(** [v is not None and v > bound]. *)
Definition above (v : val) (bound : Q) : res bool :=
  if is_none v then Ok false
  else do q <- num_of v; Ok (Qlt_bool bound q).

(** [v is not None and v < bound]. *)
Definition below (v : val) (bound : Q) : res bool :=
  if is_none v then Ok false
  else do q <- num_of v; Ok (Qlt_bool q bound).

Definition passes_hard_filters (item : dict) : res bool :=
  let price := get item "price" in
  let beds := get item "beds" in
  let baths := get item "baths" in
  do ptype <- ptype_of item;
  if negb (allowed_type ptype) then Ok false
  else
    do too_dear <- above price STRETCH_MAX;
    if too_dear then Ok false
    else
      do few_beds <- below beds MIN_BEDS;
      if few_beds then Ok false
      else
        do few_baths <- below baths MIN_BATHS;
        if few_baths then Ok false
        else Ok true.

(** ** [quality_assessment] *)

(** [reasons.append(r)] when [cond] holds. *)
Definition append_if (cond : bool) (r : string) (reasons : list string)
  : list string :=
  if cond then reasons ++ [r] else reasons.

(** The list [reasons] that [quality_assessment] builds. *)
Definition quality_reasons (item : dict) : res (list string) :=
  let reasons : list string := [] in
  let reasons :=
    append_if (negb (truthy (get item "canonical_key")))
              "missing canonical key" reasons in
  let reasons :=
    append_if (negb (truthy (py_or (get item "address")
                                   (get item "property_name"))))
              "missing address/name" reasons in
  let reasons :=
    append_if (negb (truthy (get item "sources"))) "missing sources" reasons in
  let reasons :=
    append_if (is_none (get item "price")) "missing price" reasons in
  let reasons :=
    append_if (is_none (get item "beds")) "missing beds" reasons in
  let reasons :=
    append_if (is_none (get item "baths")) "missing baths" reasons in
  do ptype <- ptype_of item;
  let reasons :=
    append_if (negb (allowed_type ptype))
              ("property type not allowed: " +:+ ptype) reasons in
  Ok reasons.

(** ["; ".join(reasons)]. *)
Definition join (sep : string) (l : list string) : string :=
  String.concat sep l.

Definition quality_assessment (item : dict) : res (string * string) :=
  do reasons <- quality_reasons item;
  match reasons with
  | [] => Ok ("pass", "ready")
  | _ :: _ => Ok ("fail", join "; " reasons)
  end.

(** ** Provenance sets *)

(** Insertion into a sorted list without duplicates; strings are ordered
    as Python orders them, by code point. *)
Fixpoint insert_sorted (x : string) (l : list string) : list string :=
  match l with
  | [] => [x]
  | y :: tl =>
      match String.compare x y with
      | Lt => x :: l
      | Eq => l
      | Gt => y :: insert_sorted x tl
      end
  end.

(** [sorted(list(set(l)))]. *)
Definition sorted_set (l : list string) : list string :=
  fold_right insert_sorted [] l.

(** [sorted(list(set(l) | {x}))]. *)
Definition sorted_union (l : list string) (x : string) : list string :=
  insert_sorted x (sorted_set l).

(** An element of a provenance set.  The extractor stores strings; a list
    is unhashable, and other hashable values are outside the model. *)
Definition as_str (v : val) : res string :=
  match v with
  | VStr s => Ok s
  | VList _ => Raise TypeError
  | _ => Raise Unmodelled
  end.

(** [set(v)] for a stored provenance list.  [None] and numbers are not
    iterable; the characters of a string are outside the model. *)
Definition as_list (v : val) : res (list string) :=
  match v with
  | VList l => Ok l
  | VStr _ => Raise Unmodelled
  | _ => Raise TypeError
  end.

(** ** The mapping [by_key]

    A Python [dict] keeps its keys in insertion order, and
    [list(by_key.values())] reads them in that order: [by_key] is an
    association list. *)

Abbreviation by_key_t := (list (string * dict)).

(** [by_key.get(k)]; [k in by_key] is [bk_lookup k bk <> None]. *)
Fixpoint bk_lookup (k : string) (bk : by_key_t) : option dict :=
  match bk with
  | [] => None
  | (k', m) :: tl => if String.eqb k k' then Some m else bk_lookup k tl
  end.

(** [by_key[k] = m]: the entry is replaced where it stands, a new key goes
    to the end.  The in-place updates of [cur = by_key[key]] are written
    back with it. *)
Fixpoint bk_set (k : string) (m : dict) (bk : by_key_t) : by_key_t :=
  match bk with
  | [] => [(k, m)]
  | (k', m') :: tl =>
      if String.eqb k k' then (k', m) :: tl else (k', m') :: bk_set k m tl
  end.

(** ** [merge_duplicates] *)

Definition NUMERIC_FIELDS : list string := ["price"; "beds"; "baths"].

Definition REPRESENTATIVE_FIELDS : list string :=
  ["property_name"; "city"; "property_type"; "dog_friendly"; "parking";
   "nature_score"; "commute_score"; "match_score"].

(** One round of [for fld in ["price", "beds", "baths"]]. *)
Definition fill_numeric (item : dict) (cur : dict) (fld : string) : dict :=
  if (is_none (get cur fld) && negb (is_none (get item fld)))%bool
  then <[fld := get item fld]> cur
  else cur.

(** One round of the loop over the representative fields:
    [cur[fld] = item.get(fld)]. *)
Definition take_field (item : dict) (cur : dict) (fld : string) : dict :=
  <[fld := get item fld]> cur.

(** The first two statements of the loop body, which write the key and the
    score into the raw record itself. *)
Definition annotate (item : dict) : res (string * Q * dict) :=
  do key <- canonical_key item;
  let item := <["canonical_key" := VStr key]> item in
  do sc <- score item;
  let item := <["match_score" := VNum sc]> item in
  Ok (key, sc, item).

(** The branch [key not in by_key]: [merged = dict(item)] is a copy, so the
    writes to [merged] leave [item] alone. *)
Definition seed (item : dict) : res dict :=
  let merged := item in
  do src <- getitem item "source";
  do src <- as_str src;
  let merged := <["sources" := VList (sorted_set [src])]> merged in
  do url <- getitem item "url";
  do url <- as_str url;
  let merged := <["source_urls" := VList [url]]> merged in
  do lid <- getitem item "listing_id";
  do lid <- as_str lid;
  let merged := <["listing_ids" := VList [lid]]> merged in
  Ok merged.

(** [cur[fld] = sorted(list(set(cur.get(fld, [])) | {item[src]}))]. *)
Definition add_provenance (item : dict) (fld src : string) (cur : dict)
  : res dict :=
  do old <- as_list (get_or cur fld (VList []));
  do x <- getitem item src;
  do x <- as_str x;
  Ok (<[fld := VList (sorted_union old x)]> cur).

(** [if not cur.get("address") and item.get("address"):
       cur["address"] = item["address"]]. *)
Definition adopt_address (item : dict) (cur : dict) : dict :=
  if (negb (truthy (get cur "address")) && truthy (get item "address"))%bool
  then <["address" := get item "address"]> cur
  else cur.

(** The rest of the loop body, for a key that [by_key] already has. *)
Definition fold_into (sc : Q) (item : dict) (cur : dict) : res dict :=
  let cur := fold_left (fill_numeric item) NUMERIC_FIELDS cur in
  let cur := adopt_address item cur in
  do cur <- add_provenance item "sources" "source" cur;
  do cur <- add_provenance item "source_urls" "url" cur;
  do cur <- add_provenance item "listing_ids" "listing_id" cur;
  do stored <- num_of (get_or cur "match_score" (VNum 0));
  if Qlt_bool stored sc
  then Ok (fold_left (take_field item) REPRESENTATIVE_FIELDS cur)
  else Ok cur.

(** The body of [for item in items]: the record as the body leaves it, and
    the new mapping. *)
Definition merge_step (bk : by_key_t) (item : dict) : res (dict * by_key_t) :=
  do (key, sc, item) <- annotate item;
  match bk_lookup key bk with
  | None =>
      do merged <- seed item;
      Ok (item, bk_set key merged bk)
  | Some cur =>
      do cur <- fold_into sc item cur;
      Ok (item, bk_set key cur bk)
  end.

(** The loop.  The records are returned as the loop leaves them.  They are
    passed by value here: a record that occurs twice in [items] is written
    twice with the same two values (see [annotate_idempotent]), which is
    what two equal records get. *)
Fixpoint merge_loop (bk : by_key_t) (items : list dict)
  : res (list dict * by_key_t) :=
  match items with
  | [] => Ok ([], bk)
  | item :: rest =>
      do (item', bk') <- merge_step bk item;
      do (rest', bk'') <- merge_loop bk' rest;
      Ok (item' :: rest', bk'')
  end.

(** [[m for m in l if f(m)]] and [[f(m) for m in l]] with a fallible [f]. *)
Fixpoint filter_res {A : Type} (f : A -> res bool) (l : list A) : res (list A) :=
  match l with
  | [] => Ok []
  | x :: tl =>
      do b <- f x;
      do tl' <- filter_res f tl;
      Ok (if b then x :: tl' else tl')
  end.

Fixpoint map_res {A B : Type} (f : A -> res B) (l : list A) : res (list B) :=
  match l with
  | [] => Ok []
  | x :: tl =>
      do y <- f x;
      do tl' <- map_res f tl;
      Ok (y :: tl')
  end.

(** The body of [for m in merged]. *)
Definition attach_quality (m : dict) : res dict :=
  do (q, notes) <- quality_assessment m;
  let m := <["data_quality" := VStr q]> m in
  let m := <["quality_notes" := VStr notes]> m in
  Ok m.

(** [merged.sort(key=..., reverse=True)] is stable: among equal scores the
    earlier record stays first.  [insert_desc x l] puts [x], which stood
    before every element of [l], after the elements with a strictly
    greater score. *)
Fixpoint insert_desc (x : Q * dict) (l : list (Q * dict)) : list (Q * dict) :=
  match l with
  | [] => [x]
  | y :: tl =>
      if Qlt_bool (fst x) (fst y) then y :: insert_desc x tl else x :: l
  end.

Definition sort_desc (l : list (Q * dict)) : list (Q * dict) :=
  fold_right insert_desc [] l.

(** The sort key [x.get("match_score", 0)]; the scores the merge stores
    are numbers. *)
Definition sort_key (m : dict) : res (Q * dict) :=
  do k <- num_of (get_or m "match_score" (VNum 0));
  Ok (k, m).

Definition sort_by_score (merged : list dict) : res (list dict) :=
  do keyed <- map_res sort_key merged;
  Ok (map snd (sort_desc keyed)).

(** [merge_duplicates(items)]: the input records as the call leaves them,
    and the returned list. *)
Definition merge_duplicates (items : list dict) : res (list dict * list dict) :=
  do (items', by_key) <- merge_loop [] items;
  let merged := map snd by_key in
  do merged <- filter_res passes_hard_filters merged;
  do merged <- map_res attach_quality merged;
  do merged <- sort_by_score merged;
  Ok (items', merged).

(** ** Record shapes

    The field types of a raw record as the extractor builds it, and of an
    entry of [by_key].  A field that may be missing is either absent or
    [None]. *)

Definition val_str_or_none (v : val) : bool :=
  match v with
  | VNone | VStr _ => true
  | _ => false
  end.

Definition val_num_or_none (v : val) : bool :=
  match v with
  | VNone | VNum _ => true
  | _ => false
  end.

Definition val_is_num (v : val) : bool :=
  match v with
  | VNum _ => true
  | _ => false
  end.

Definition val_is_str (v : val) : bool :=
  match v with
  | VStr _ => true
  | _ => false
  end.

Definition val_is_list (v : val) : bool :=
  match v with
  | VList _ => true
  | _ => false
  end.

(** A number, or absent: what [item.get(k, 0)] can add. *)
Definition num_or_absent (o : option val) : bool :=
  match o with
  | None => true
  | Some v => val_is_num v
  end.

(** A string, or absent: what [re.sub] accepts from [item.get(k, "")]. *)
Definition str_or_absent (o : option val) : bool :=
  match o with
  | None => true
  | Some v => val_is_str v
  end.

(** A string that is present: what [item[k]] gives a provenance set. *)
Definition is_string (o : option val) : bool :=
  match o with
  | Some v => val_is_str v
  | None => false
  end.

(** The fields [canonical_key] reads. *)
Definition wf_key_fields (d : dict) : bool :=
  (val_str_or_none (get d "address")
   && val_str_or_none (get d "property_name")
   && val_str_or_none (get d "city") && str_or_absent (d !! "url"))%bool.

(** The fields [score] reads in arithmetic. *)
Definition wf_score_fields (d : dict) : bool :=
  (val_num_or_none (get d "price") && val_num_or_none (get d "beds")
   && val_num_or_none (get d "baths") && num_or_absent (d !! "nature_score")
   && num_or_absent (d !! "commute_score"))%bool.

(** A raw record. *)
Definition wf_raw (d : dict) : bool :=
  (wf_key_fields d && wf_score_fields d
   && is_string (d !! "source") && is_string (d !! "url")
   && is_string (d !! "listing_id")
   && val_str_or_none (get d "property_type"))%bool.

(** An entry of [by_key]. *)
Definition wf_merged (m : dict) : bool :=
  (val_num_or_none (get m "price") && val_num_or_none (get m "beds")
   && val_num_or_none (get m "baths")
   && val_str_or_none (get m "property_type")
   && val_is_num (get m "match_score")
   && val_is_str (get m "canonical_key")
   && val_is_list (get m "sources") && val_is_list (get m "source_urls")
   && val_is_list (get m "listing_ids"))%bool.

(** A dictionary literal. *)
Definition mk_dict (l : list (string * val)) : dict := list_to_map l.

(** ** Statements taken from the specification *)

(** The three shapes of a canonical key. *)
Definition KEY_PREFIXES : list string := ["addr:"; "namecity:"; "url:"].

(** [k] begins with exactly one of the three prefixes. *)
Definition one_prefix (k : string) : Prop :=
  length (List.filter (fun p => String.prefix p k) KEY_PREFIXES) = 1%nat.

(** Two records have the same normalized address. *)
Definition same_normalized_address (a b : dict) : Prop :=
  exists s,
    normalize_text (get_or a "address" (VStr "")) = Ok s /\
    normalize_text (get_or b "address" (VStr "")) = Ok s.

(** A null passes a numeric filter; a number passes when [ok] holds. *)
Definition null_or (ok : Q -> bool) (v : val) : bool :=
  match v with
  | VNone => true
  | VNum q => ok q
  | _ => false
  end.

(** The hard eligibility filter in the words of the specification: an
    allowed property type, a price at most the stretch ceiling, beds and
    baths at least the minimums, nulls passing. *)
Definition eligible (pt : string) (m : dict) : bool :=
  (allowed_type pt
   && null_or (fun p => Qle_bool p STRETCH_MAX) (get m "price")
   && null_or (fun b => Qle_bool MIN_BEDS b) (get m "beds")
   && null_or (fun b => Qle_bool MIN_BATHS b) (get m "baths"))%bool.

(** [normalize_text] on a string. *)
Definition norm_str (s : string) : string :=
  strip (sub_runs is_space false
           (sub_runs (fun c => negb (is_kept c)) false (lower s))).

(** ** Sample records

    [raw_record] is the dictionary literal that [parse_candidates] appends
    for one listing, with its fifteen keys. *)

Definition raw_record
    (listing_id source url property_name address city property_type : string)
    (price beds baths : val) (dog_friendly parking : string)
    (nature commute : Q) (raw : string) : dict :=
  mk_dict
    [("listing_id", VStr listing_id); ("source", VStr source);
     ("url", VStr url); ("property_name", VStr property_name);
     ("address", VStr address); ("city", VStr city);
     ("property_type", VStr property_type);
     ("price", price); ("beds", beds); ("baths", baths);
     ("dog_friendly", VStr dog_friendly); ("parking", VStr parking);
     ("nature_score", VNum nature); ("commute_score", VNum commute);
     ("raw", VStr raw)].

(** Two listings whose address has no house number. *)
Definition court_a : dict :=
  raw_record "id-a" "redfin" "https://www.redfin.com/CA/Saratoga/oak-court-a"
    "Oak Court Townhomes" "Oak Court" "Saratoga" "townhouse"
    (VNum 6500) (VNum 3) (VNum 2) "maybe" "yes" 2 4 "".

Definition court_b : dict :=
  raw_record "id-b" "realtor" "https://www.realtor.com/rentals/details/oak-court-b"
    "Oak Court" "oak  court" "Los Gatos" "townhouse"
    (VNum 6500) (VNum 3) (VNum 2) "maybe" "yes" 2 3 "".

(** Two listings of one street address, written differently. *)
Definition main_redfin : dict :=
  raw_record "id-r" "redfin" "https://www.redfin.com/CA/Los-Gatos/123-Main-St"
    "" "123 Main St" "Los Gatos" "house"
    (VNum 7500) (VNum 3) (VNum 2) "maybe" "maybe" 2 3 "".

Definition main_realtor : dict :=
  raw_record "id-q" "realtor" "https://www.realtor.com/rentals/details/123-Main-St"
    "123 Main St" "123  MAIN St." "" "unknown"
    VNone VNone (VNum (5 # 2)) "yes" "maybe" 0 2 "".

(** [m'] is [m] with the field [k] removed: reading [k] gives [None], the
    other fields read as in [m]. *)
Definition removed (k : string) (m m' : dict) : Prop :=
  get m' k = VNone /\ forall k', k' <> k -> get m' k' = get m k'.

(** A merged listing with every field the quality gate asks for. *)
Definition complete_listing : dict :=
  mk_dict
    [("canonical_key", VStr "addr:12 oak court");
     ("address", VStr "12 Oak Court");
     ("property_name", VStr "Oak Court Townhomes");
     ("city", VStr "Saratoga"); ("property_type", VStr "townhouse");
     ("price", VNum 6500); ("beds", VNum 3); ("baths", VNum 2);
     ("sources", VList ["redfin"]); ("match_score", VNum 13)].

(** The invariant of [by_key]: the keys are distinct, and every entry has
    the fields of a merged listing and is filed under its own canonical
    key. *)
Definition wf_by_key (bk : by_key_t) : Prop :=
  List.NoDup (map fst bk) /\
  forall k m, bk_lookup k bk = Some m ->
    wf_merged m = true /\ get m "canonical_key" = VStr k.

(** The raw records of a run. *)
Definition wf_items (items : list dict) : Prop :=
  List.Forall (fun item => wf_raw item = true) items.

(** The raw record after the loop body has written its key and score
    into it. *)
Definition annotated (k : string) (sc : Q) (item : dict) : dict :=
  <["match_score" := VNum sc]> (<["canonical_key" := VStr k]> item).

(** The three provenance fields of a merged listing. *)
Definition PROVENANCE_FIELDS : list string :=
  ["sources"; "source_urls"; "listing_ids"].

(** What the loop keeps true of the stored score: every record read so
    far has its key in the mapping, and the score stored under a key is
    the individual score of one of the records read under that key, and
    no record read under that key has a greater one. *)
Definition best_score_inv (seen : list dict) (bk : by_key_t) : Prop :=
  (forall i, List.In i seen ->
     exists k, canonical_key i = Ok k /\ bk_lookup k bk <> None) /\
  (forall k m, bk_lookup k bk = Some m ->
     exists s, get m "match_score" = VNum s /\
       (exists i, List.In i seen /\ canonical_key i = Ok k /\
                  score i = Ok s) /\
       (forall i si, List.In i seen -> canonical_key i = Ok k ->
                     score i = Ok si -> (si <= s)%Q)).

(** Two listings of one address, each knowing half of the numbers. *)
Definition half_a : dict :=
  raw_record "id-1" "redfin" "https://www.redfin.com/CA/Los-Gatos/9-Elm-Rd"
    "" "9 Elm Rd" "Los Gatos" "house"
    VNone (VNum 3) (VNum 2) "maybe" "maybe" 2 3 "".

Definition half_b : dict :=
  raw_record "id-2" "realtor" "https://www.realtor.com/rentals/details/9-Elm-Rd"
    "9 Elm Rd" "9 Elm Rd" "Los Gatos" "house"
    (VNum 7500) VNone VNone "maybe" "maybe" 2 3 "".

(** Every element of a provenance set of [cur] is in the same set of
    [cur']. *)
Definition provenance_within (cur cur' : dict) : Prop :=
  forall fld, List.In fld PROVENANCE_FIELDS ->
  forall old, get cur fld = VList old ->
  exists new, get cur' fld = VList new /\
              forall x, List.In x old -> List.In x new.

(** Every key of [bk] is a key of [bk'], with provenance sets at least as
    large. *)
Definition provenance_grows (bk bk' : by_key_t) : Prop :=
  forall k cur, bk_lookup k bk = Some cur ->
  exists cur', bk_lookup k bk' = Some cur' /\ provenance_within cur cur'.

(** Three listings at the boundary of the hard filters: an apartment with
    every preference met, a house above the stretch ceiling, and a house
    at the ceiling. *)
Definition flat_listing : dict :=
  raw_record "id-f" "realtor" "https://www.realtor.com/rentals/details/1-Park-Ave"
    "1 Park Ave" "1 Park Ave" "Saratoga" "apartment"
    (VNum 3000) (VNum 3) (VNum 2) "yes" "yes" 5 4 "".

Definition dear_listing : dict :=
  raw_record "id-d" "realtor" "https://www.realtor.com/rentals/details/2-Park-Ave"
    "2 Park Ave" "2 Park Ave" "Saratoga" "house"
    (VNum 9500) (VNum 3) (VNum 2) "yes" "yes" 5 4 "".

Definition ceiling_listing : dict :=
  raw_record "id-c" "realtor" "https://www.realtor.com/rentals/details/3-Park-Ave"
    "3 Park Ave" "3 Park Ave" "Saratoga" "house"
    (VNum 9000) (VNum 3) (VNum 2) "yes" "yes" 5 4 "".

(** A house of which no number is known. *)
Definition blank_listing : dict :=
  raw_record "id-n" "redfin" "https://www.redfin.com/CA/Saratoga/4-Park-Ave"
    "" "4 Park Ave" "Saratoga" "house"
    VNone VNone VNone "maybe" "maybe" 2 4 "".

(** A second listing of the address of [half_a], priced 2500. *)
Definition cheap_b : dict :=
  raw_record "id-3" "realtor" "https://www.realtor.com/rentals/details/9-Elm-Rd"
    "9 Elm Rd" "9 Elm Rd" "Los Gatos" "house"
    (VNum 2500) VNone VNone "maybe" "maybe" 2 3 "".

(** Two listings of one address with individual scores 3 and 8. *)
Definition low_a : dict :=
  raw_record "id-4" "redfin" "https://www.redfin.com/CA/San-Jose/7-Fir-Ln"
    "" "7 Fir Ln" "" "house"
    VNone VNone (VNum 2) "maybe" "maybe" 0 2 "".

Definition high_b : dict :=
  raw_record "id-5" "realtor" "https://www.realtor.com/rentals/details/7-Fir-Ln"
    "7 Fir Ln" "7 Fir Ln" "" "townhouse"
    (VNum 7500) (VNum 3) VNone "maybe" "maybe" 0 2 "".

(** ** Normal forms of text

    What [normalize_text] returns: characters of [[a-z0-9 ]] only, no
    space at either end and no two spaces in a row. *)

(** Every character is kept and no space follows a space; [prev_space]
    tells whether a space stands before the string. *)
Fixpoint single_spaced (prev_space : bool) (s : string) : bool :=
  match s with
  | EmptyString => true
  | String c tl =>
      (is_kept c && negb (prev_space && is_space c)
       && single_spaced (is_space c) tl)%bool
  end.

(** The last character is white space. *)
Fixpoint ends_space (s : string) : bool :=
  match s with
  | EmptyString => false
  | String c EmptyString => is_space c
  | String _ tl => ends_space tl
  end.

Definition is_normalized (s : string) : bool :=
  (single_spaced true s && negb (ends_space s))%bool.

(** ** Reading the merge as a whole *)

(** The record has canonical key [k]. *)
Definition key_is (k : string) (item : dict) : bool :=
  match canonical_key item with
  | Ok k' => String.eqb k' k
  | Raise _ => false
  end.

(** The canonical key of a record, [""] when [canonical_key] raises. *)
Definition key_of (item : dict) : string :=
  match canonical_key item with
  | Ok k => k
  | Raise _ => ""
  end.

(** [list(dict.fromkeys(l))]: the elements of [l] in the order of their
    first occurrence. *)
Definition fromkeys (l : list string) : list string :=
  fold_left
    (fun acc x => if existsb (String.eqb x) acc then acc else acc ++ [x])
    l [].

(** The first value of the field that is not [None], in list order;
    [None] when there is none. *)
Definition first_non_null (fld : string) (l : list dict) : val :=
  fold_right
    (fun d acc => if is_none (get d fld) then acc else get d fld) VNone l.

(** The first truthy value of the field in list order, if any. *)
Definition first_truthy (fld : string) (l : list dict) : option val :=
  fold_right
    (fun d acc => if truthy (get d fld) then Some (get d fld) else acc)
    None l.

(** The elements of a provenance list; [[]] for another value. *)
Definition list_of (v : val) : list string :=
  match v with
  | VList l => l
  | _ => []
  end.

(** Strings in strictly increasing order of code points. *)
Definition strictly_sorted (l : list string) : Prop :=
  Sorted (fun a b => String.compare a b = Lt) l.

(** Numbers in non-increasing order. *)
Definition descending (l : list Q) : Prop :=
  Sorted (fun a b => (b <= a)%Q) l.

(** The stored match score of a listing, [0] when it is not a number. *)
Definition stored_score (m : dict) : Q :=
  match get m "match_score" with
  | VNum q => q
  | _ => 0%Q
  end.

(** The four reasons the quality gate can still give on a returned
    listing. *)
Definition OUTPUT_REASONS : list string :=
  ["missing address/name"; "missing price"; "missing beds"; "missing baths"].

(** Price, beds and baths are known and the listing has an address or a
    name. *)
Definition complete (m : dict) : bool :=
  (truthy (py_or (get m "address") (get m "property_name"))
   && negb (is_none (get m "price")) && negb (is_none (get m "beds"))
   && negb (is_none (get m "baths")))%bool.

(** Each provenance field with the raw field it collects. *)
Definition PROVENANCE_PAIRS : list (string * string) :=
  [("sources", "source"); ("source_urls", "url");
   ("listing_ids", "listing_id")].

(** What the loop keeps true of the provenance: every record read has
    its key in the mapping, and under each key each provenance field is a
    strictly sorted list of exactly the values of its raw field in the
    records read under that key. *)
Definition provenance_inv (seen : list dict) (bk : by_key_t) : Prop :=
  (forall i, List.In i seen ->
     exists k, canonical_key i = Ok k /\ bk_lookup k bk <> None) /\
  (forall k m, bk_lookup k bk = Some m ->
   forall fld src, List.In (fld, src) PROVENANCE_PAIRS ->
     exists l, get m fld = VList l /\ strictly_sorted l /\
       forall x, List.In x l <->
         exists i, List.In i seen /\ canonical_key i = Ok k /\
                   i !! src = Some (VStr x)).

(** Every record read so far has its key in the mapping. *)
Definition seen_keys_stored (seen : list dict) (bk : by_key_t) : Prop :=
  forall i, List.In i seen ->
    exists k, canonical_key i = Ok k /\ bk_lookup k bk <> None.

(** The numeric fields and the address of an entry, read off the records
    of its key in arrival order. *)
Definition first_values_inv (seen : list dict) (bk : by_key_t) : Prop :=
  seen_keys_stored seen bk /\
  forall k m, bk_lookup k bk = Some m ->
    (forall f, List.In f NUMERIC_FIELDS ->
       get m f = first_non_null f (List.filter (key_is k) seen)) /\
    match first_truthy "address" (List.filter (key_is k) seen) with
    | Some v => get m "address" = v
    | None => truthy (get m "address") = false
    end.

(** The representative fields of an entry are those of one record of its
    key: the earliest one with the greatest individual score. *)
Definition representative_inv (seen : list dict) (bk : by_key_t) : Prop :=
  seen_keys_stored seen bk /\
  forall k m, bk_lookup k bk = Some m ->
    exists pre i post s,
      seen = pre ++ i :: post /\
      canonical_key i = Ok k /\ score i = Ok s /\
      (forall f, List.In f REPRESENTATIVE_FIELDS ->
         get m f = get (annotated k s i) f) /\
      (forall j sj, List.In j pre -> canonical_key j = Ok k ->
                    score j = Ok sj -> (sj < s)%Q) /\
      (forall j sj, List.In j post -> canonical_key j = Ok k ->
                    score j = Ok sj -> (sj <= s)%Q).

(** * The field extractor

    [norm_price], [parse_beds_baths], [infer_property_type],
    [address_from_url], [infer_city], [nature_score],
    [commute_placeholder_score] and [parse_candidates], all on strings
    (the callers pass no [None]).  A number read by [float] is the
    decimal numeral rounded to the nearest binary64 value, ties to even;
    a numeral beyond the range of binary64, which [float] reads as
    [inf], is outside the model. *)

(** ** Substrings and scans *)

(** [needle in hay]. *)
Fixpoint contains (needle hay : string) : bool :=
  (String.prefix needle hay
   || match hay with
      | String _ tl => contains needle tl
      | EmptyString => false
      end)%bool.

(** The longest prefix of characters of a class, and what follows it. *)
Fixpoint take_while (p : ascii -> bool) (s : string) : string :=
  match s with
  | String c tl => if p c then String c (take_while p tl) else EmptyString
  | EmptyString => EmptyString
  end.

Fixpoint drop_while (p : ascii -> bool) (s : string) : string :=
  match s with
  | String c tl => if p c then drop_while p tl else s
  | EmptyString => EmptyString
  end.

(** [s[n:]]. *)
Fixpoint drop_str (n : nat) (s : string) : string :=
  match n, s with
  | S n', String _ tl => drop_str n' tl
  | _, _ => s
  end.

(** [s.replace(a, b)] for single characters. *)
Fixpoint replace_char (a b : ascii) (s : string) : string :=
  match s with
  | String c tl =>
      String (if Ascii.eqb c a then b else c) (replace_char a b tl)
  | EmptyString => EmptyString
  end.

(** [s.replace(a, "")] for a single character. *)
Fixpoint remove_char (a : ascii) (s : string) : string :=
  match s with
  | String c tl =>
      if Ascii.eqb c a then remove_char a tl
      else String c (remove_char a tl)
  | EmptyString => EmptyString
  end.

(** [re.search] for a pattern whose match at a position is decided by
    [at_head]: the result at the leftmost position where it succeeds. *)
Fixpoint search_first {A : Type} (at_head : string -> option A) (s : string)
  : option A :=
  match at_head s with
  | Some r => Some r
  | None =>
      match s with
      | String _ tl => search_first at_head tl
      | EmptyString => None
      end
  end.

(** ** Numbers in text *)

(** The value of a string of decimal digits. *)
Definition digit_value (c : ascii) : N := (code c - 48)%N.

Fixpoint digits_value (acc : N) (s : string) : N :=
  match s with
  | String c tl => digits_value (acc * 10 + digit_value c)%N tl
  | EmptyString => acc
  end.

(** The nearest binary64 value of a rational that is not negative, ties
    to the even significand: with [2^k <= q < 2^(k+1)] the spacing of
    the values around [q] is [2^(k-52)], and [2^(-1074)] in the
    subnormal range. *)
Definition binary64 (q : Q) : Q :=
  if Qle_bool q 0 then 0%Q
  else
    let k0 := (Z.log2 (Qnum q) - Z.log2 (Zpos (Qden q)))%Z in
    let k := if Qlt_bool q (2 ^ k0)%Q then (k0 - 1)%Z else k0 in
    let e := Z.max (k - 52) (-1074) in
    Qred (inject_Z (round_half_even (q / 2 ^ e)%Q) * 2 ^ e)%Q.

(** [float(i + "." + f)] for digit strings [i] and [f]; [float(i)] when
    [f] is empty. *)
Definition decimal_value (i f : string) : Q :=
  binary64 (Z.of_N (digits_value (digits_value 0 i) f)
            # Z.to_pos (10 ^ Z.of_nat (String.length f))).

Definition val_of (o : option Q) : val :=
  match o with
  | Some q => VNum q
  | None => VNone
  end.

(** ** [norm_price] *)

(** [[0-9,]]. *)
Definition is_digit_or_comma (c : ascii) : bool :=
  (is_digit c || Ascii.eqb c ",")%bool.

(** The price pattern at the head of [s]: a dollar sign, white space, a
    digit, then digits and commas; the result is group 1, from the first
    digit on.  The white space after the dollar sign is taken whole, a
    digit not being white space. *)
Definition price_at (s : string) : option string :=
  match s with
  | String "$" tl =>
      match lstrip tl with
      | String d r =>
          if is_digit d
          then Some (String d (take_while is_digit_or_comma r))
          else None
      | EmptyString => None
      end
  | _ => None
  end.

Definition norm_price (s : string) : option Q :=
  match search_first price_at s with
  | None => None
  | Some g => Some (decimal_value (remove_char "," g) "")
  end.

(** ** [parse_beds_baths] *)

(** One of the alternatives stands at the head of [s]. *)
Definition starts_with_any (units : list string) (s : string) : bool :=
  existsb (fun u => String.prefix u s) units.

(** The count pattern at the head of [s]: digits, an optional fraction
    (a dot and digits), white space, one of the units; the result is the
    integer and fraction digits of group 1.  The digits are taken whole;
    a fraction that is there must be used, no unit starting with a
    dot. *)
Definition count_at (units : list string) (s : string)
  : option (string * string) :=
  match s with
  | String c _ =>
      if is_digit c then
        let i := take_while is_digit s in
        let r := drop_while is_digit s in
        match r with
        | String "." (String d _ as r') =>
            if is_digit d then
              let f := take_while is_digit r' in
              if starts_with_any units (lstrip (drop_while is_digit r'))
              then Some (i, f) else None
            else None
        | _ =>
            if starts_with_any units (lstrip r) then Some (i, EmptyString)
            else None
        end
      else None
  | EmptyString => None
  end.

Definition search_count (units : list string) (t : string) : option Q :=
  match search_first (count_at units) t with
  | Some (i, f) => Some (decimal_value i f)
  | None => None
  end.

(** The alternatives [bd|beds?] and [ba|baths?]; the optional [s] does
    not change group 1. *)
Definition BED_UNITS : list string := ["bd"; "bed"].
Definition BATH_UNITS : list string := ["ba"; "bath"].

Definition parse_beds_baths (text : string) : option Q * option Q :=
  let t := lower text in
  (search_count BED_UNITS t, search_count BATH_UNITS t).

(** ** Keyword heuristics *)

(** [any(k in t for k in ks)]. *)
Definition any_in (ks : list string) (t : string) : bool :=
  existsb (fun k => contains k t) ks.

Definition AREAS : list string :=
  ["Woodside"; "Portola Valley"; "Los Altos Hills"; "Saratoga"; "Los Gatos";
   "Cupertino"].

Definition infer_property_type (raw url name : string) : string :=
  let t := lower (raw +:+ " " +:+ url +:+ " " +:+ name) in
  if (contains "townhouse" t || contains "townhome" t)%bool then "townhouse"
  else if (contains "single family" t || contains "house for rent" t
           || contains "/homedetails/" t)%bool then "house"
  else if contains "apartment" t then "apartment"
  else if contains "condo" t then "condo"
  else "unknown".

Definition infer_city (text : string) : string :=
  let t := lower text in
  match List.find (fun area => contains (lower area) t) AREAS with
  | Some area => area
  | None =>
      if contains "redwood city" t then "Redwood City"
      else if contains "san jose" t then "San Jose"
      else if contains "mountain view" t then "Mountain View"
      else if contains "sunnyvale" t then "Sunnyvale"
      else ""
  end.

Definition NATURE_WORDS : list string :=
  ["foothill"; "hills"; "ridge"; "trail"; "open space"; "park"; "mountain"].

Definition NATURE_AREAS : list string :=
  ["woodside"; "portola valley"; "los altos hills"; "saratoga"; "los gatos"].

Definition nature_score (area raw : string) : Q :=
  let text := lower (area +:+ " " +:+ raw) in
  (0 + (if any_in NATURE_WORDS text then 3 else 0)
     + (if any_in NATURE_AREAS text then 2 else 0))%Q.

Definition commute_placeholder_score (area : string) : Q :=
  let a := lower area in
  if any_in ["los altos hills"; "cupertino"; "saratoga"] a then 4%Q
  else if any_in ["los gatos"; "woodside"; "portola valley"] a then 3%Q
  else if any_in ["mountain view"; "sunnyvale"] a then 5%Q
  else 2%Q.

(** ** [address_from_url] *)

(** [/marker/(slug)] at the head of [s], the slug being the longest run
    of characters that are not [stop], and not empty; with [closed] the
    slug must be followed by a slash. *)
Definition slug_at (marker : string) (stop : ascii -> bool) (closed : bool)
    (s : string) : option string :=
  if String.prefix marker s then
    let r := drop_str (String.length marker) s in
    let slug := take_while (fun c => negb (stop c)) r in
    let after := drop_while (fun c => negb (stop c)) r in
    if String.eqb slug "" then None
    else if closed then
      (if String.prefix "/" after then Some slug else None)
    else Some slug
  else None.

Definition is_slash (c : ascii) : bool := Ascii.eqb c "/".
Definition is_slash_or_query (c : ascii) : bool :=
  (Ascii.eqb c "/" || Ascii.eqb c "?")%bool.

(** [re.sub(r"\bCA\b", "CA", s)] puts back what it finds. *)
Definition address_from_url (url : string) : string :=
  match search_first (slug_at "/homedetails/" is_slash true) url with
  | Some slug => replace_char "-" " " slug
  | None =>
      match search_first (slug_at "/details/" is_slash_or_query false) url with
      | Some slug => replace_char "-" " " (replace_char "_" " " slug)
      | None => ""
      end
  end.

(** ** [urllib.parse.quote(u, safe="")] *)

Definition hex_digit (n : N) : ascii :=
  ascii_of_N (if (n <? 10)%N then 48 + n else 55 + n).

Definition percent (n : N) : string :=
  String "%" (String (hex_digit (n / 16)) (String (hex_digit (n mod 16)) "")).

(** The characters [quote] never escapes. *)
Definition is_unreserved (c : ascii) : bool :=
  (is_digit c || is_upper_az c || is_lower_az c
   || Ascii.eqb c "_" || Ascii.eqb c "." || Ascii.eqb c "-"
   || Ascii.eqb c "~")%bool.

(** A code point from 128 on is two bytes in UTF-8. *)
Definition quote_char (c : ascii) : string :=
  if is_unreserved c then String c ""
  else if (code c <? 128)%N then percent (code c)
  else percent (192 + code c / 64) +:+ percent (128 + code c mod 64).

Fixpoint quote (s : string) : string :=
  match s with
  | String c tl => quote_char c +:+ quote tl
  | EmptyString => EmptyString
  end.

(** ** [parse_candidates] *)

(** The candidate patterns are a fixed sequence of literal characters
    and dots, then one or more characters of a class.  In the source
    they are raw strings with doubled backslashes, so what was meant as
    an escaped dot is a backslash followed by any character, and what
    was meant as white space in the class is a backslash and the letter
    [s]. *)
Inductive atom : Type :=
  | Lit (c : ascii)
  | AnyChar.

Definition lits (s : string) : list atom := map Lit (list_ascii_of_string s).

Definition backslash : ascii := "092"%char.
Definition double_quote : ascii := "034"%char.
Definition line_feed : ascii := "010"%char.

(** A dot does not match a line feed. *)
Definition atom_matches (a : atom) (c : ascii) : bool :=
  match a with
  | Lit x => Ascii.eqb c x
  | AnyChar => negb (Ascii.eqb c line_feed)
  end.

(** What is left of [s] after the atoms. *)
Fixpoint match_atoms (p : list atom) (s : string) : option string :=
  match p with
  | [] => Some s
  | a :: p' =>
      match s with
      | String c tl => if atom_matches a c then match_atoms p' tl else None
      | EmptyString => None
      end
  end.

Record pattern : Type := {
  alternatives : list (list atom);
  tail_class : ascii -> bool
}.

(** The characters the class of the zillow and redfin patterns
    excludes, and the one more that realtor's excludes. *)
Definition in_url_class (c : ascii) : bool :=
  negb (Ascii.eqb c double_quote || Ascii.eqb c backslash
        || Ascii.eqb c "s" || Ascii.eqb c "<" || Ascii.eqb c ">")%bool.

Definition in_realtor_class (c : ascii) : bool :=
  (in_url_class c && negb (Ascii.eqb c "?"))%bool.

Definition escaped_dot : list atom := [Lit backslash; AnyChar].

Definition zillow_prefix : list atom :=
  lits "https://www" ++ escaped_dot ++ lits "zillow" ++ escaped_dot
  ++ lits "com/".

Definition ZILLOW : pattern :=
  {| alternatives := [zillow_prefix ++ lits "homedetails/";
                      zillow_prefix ++ lits "apartments/"];
     tail_class := in_url_class |}.

Definition REDFIN : pattern :=
  {| alternatives := [lits "https://www" ++ escaped_dot ++ lits "redfin"
                      ++ escaped_dot ++ lits "com/CA/"];
     tail_class := in_url_class |}.

Definition REALTOR : pattern :=
  {| alternatives := [lits "/rentals/details/"];
     tail_class := in_realtor_class |}.

Definition patterns (source : string) : option pattern :=
  if String.eqb source "zillow" then Some ZILLOW
  else if String.eqb source "redfin" then Some REDFIN
  else if String.eqb source "realtor" then Some REALTOR
  else None.

(** The match of one alternative at the head of [s]: the atoms, then
    the longest run of the class, which must not be empty. *)
Definition alternative_at (cls : ascii -> bool) (s : string) (alt : list atom)
  : option string :=
  match match_atoms alt s with
  | Some r =>
      match take_while cls r with
      | EmptyString => None
      | run => Some (take_str (List.length alt) s +:+ run)
      end
  | None => None
  end.

Fixpoint first_some {A B : Type} (f : A -> option B) (l : list A) : option B :=
  match l with
  | [] => None
  | x :: l' =>
      match f x with
      | Some y => Some y
      | None => first_some f l'
      end
  end.

Definition pattern_at (p : pattern) (s : string) : option string :=
  first_some (alternative_at (tail_class p) s) (alternatives p).

(** [p.findall(html)]: the matches from left to right, the scan going on
    after the end of each match; [skip] counts the characters of the
    last match still to pass. *)
Fixpoint findall_from (p : pattern) (skip : nat) (s : string) : list string :=
  match s with
  | EmptyString => []
  | String _ tl =>
      match skip with
      | S k => findall_from p k tl
      | O =>
          match pattern_at p s with
          | Some m => m :: findall_from p (String.length m - 1) tl
          | None => findall_from p 0 tl
          end
      end
  end.

Definition findall (p : pattern) (s : string) : list string :=
  findall_from p 0 s.

(** [re.escape(u) + ".{0,550}"] with [re.DOTALL] at the head of [s]. *)
Definition window_at (u : string) (s : string) : option string :=
  if String.prefix u s then Some (take_str (String.length u + 550) s)
  else None.

(** [/(apartments|details)/([^/?]+)] at the head of [s]: group 2. *)
Definition name_at (s : string) : option string :=
  match slug_at "/apartments/" is_slash_or_query false s with
  | Some g => Some g
  | None => slug_at "/details/" is_slash_or_query false s
  end.

Definition DOG_WORDS : list string :=
  ["petok"; "petsok"; "pet friendly"; "dog"; "dogs"].
Definition PARKING_WORDS : list string := ["parking"; "garage"].

(** [re.search(..., raw, flags=re.I)] for alternatives of plain words: a
    character of [raw] matches a letter when its lower case is it. *)
Definition search_words (ws : list string) (raw : string) : bool :=
  any_in ws (lower raw).

Definition absolute_url (source u : string) : string :=
  if (String.eqb source "realtor" && String.prefix "/" u)%bool
  then "https://www.realtor.com" +:+ u else u.

Definition window (u html : string) : string :=
  take_str 900
    match search_first (window_at u) html with
    | Some w => w
    | None => ""
    end.

(** The body of the loop over the candidate URLs. *)
Definition candidate_row (source html base_url u0 : string) : dict :=
  let u := absolute_url source u0 in
  let raw := window u html in
  let price := norm_price raw in
  let (beds, baths) := parse_beds_baths raw in
  let address := address_from_url u in
  let city := infer_city (address +:+ " " +:+ raw +:+ " " +:+ base_url) in
  let prop_name :=
    match search_first name_at u with
    | Some g => replace_char "_" " " (replace_char "-" " " g)
    | None => ""
    end in
  let ptype := infer_property_type raw u prop_name in
  raw_record (quote u) source u (take_str 220 prop_name)
    (take_str 220 address) city ptype
    (val_of price) (val_of beds) (val_of baths)
    (if search_words DOG_WORDS raw then "yes" else "maybe")
    (if search_words PARKING_WORDS raw then "yes" else "maybe")
    (nature_score city raw) (commute_placeholder_score city) raw.

Definition parse_candidates (source html base_url : string)
  : res (list dict) :=
  match patterns source with
  | None => Raise (KeyError source)
  | Some p =>
      let urls := firstn 100 (fromkeys (findall p html)) in
      Ok (map (candidate_row source html base_url) urls)
  end.

(** ** The collecting loop of [run] *)

Definition SEARCH_URLS : list (string * list string) :=
  [("redfin",
    ["https://www.redfin.com/city/14972/CA/Los-Gatos/apartments-for-rent";
     "https://www.redfin.com/city/17420/CA/Saratoga/apartments-for-rent"]);
   ("realtor",
    ["https://www.realtor.com/apartments/Los-Gatos_CA";
     "https://www.realtor.com/apartments/Saratoga_CA"])].

(** One turn of the loop, the fetch being a function from the URL to the
    page or an exception: what it adds to [raw_items].  An exception of
    the fetch or of the extraction goes to the diagnostics and adds
    nothing. *)
Definition page_items (fetch_html : string -> res string)
    (source url : string) : list dict :=
  match (do html <- fetch_html url; parse_candidates source html url) with
  | Ok items => items
  | Raise _ => []
  end.

(** [raw_items] when the loop ends. *)
Definition raw_items (fetch_html : string -> res string) : list dict :=
  flat_map
    (fun su : string * list string =>
       flat_map (page_items fetch_html (fst su)) (snd su))
    SEARCH_URLS.

(** ** Notions used to state properties of the extractor *)

(** Every character of the string is of the class. *)
Fixpoint all_chars (p : ascii -> bool) (s : string) : bool :=
  match s with
  | String c tl => (p c && all_chars p tl)%bool
  | EmptyString => true
  end.

(** Reading back the first character [quote] wrote: the decoder that
    shows [quote] loses nothing. *)
Definition hex_value (c : ascii) : N :=
  if is_digit c then (code c - 48)%N else (code c - 55)%N.

Definition unquote_head (s : string) : option (ascii * string) :=
  match s with
  | String "%" (String a (String b r)) =>
      let n := (hex_value a * 16 + hex_value b)%N in
      if (n <? 128)%N then Some (ascii_of_N n, r)
      else
        match r with
        | String "%" (String c (String d r')) =>
            Some (ascii_of_N ((n - 192) * 64
                              + (hex_value c * 16 + hex_value d - 128)), r')
        | _ => None
        end
  | String c r => Some (c, r)
  | EmptyString => None
  end.

(** The prefix of every realtor link after it is made absolute. *)
Definition REALTOR_DETAILS : string :=
  "https://www.realtor.com/rentals/details/".

(** * The field mapping of the sink: [notion_props]

    The properties object sent to the store, as JSON: objects are
    lists of named values, the outer dictionary a finite map, a key
    written twice keeping the later value. *)

#[warnings="-register-all"]
Inductive json : Type :=
  | JNull
  | JStr (s : string)
  | JNum (q : Q)
  | JArr (l : list json)
  | JObj (fields : list (string * json)).

Definition to_json (v : val) : json :=
  match v with
  | VNone => JNull
  | VStr s => JStr s
  | VNum q => JNum q
  | VList l => JArr (map JStr l)
  end.

Definition MOVE_WINDOW : string := "Aug-Sep 2026".

(** [v[:n]]: strings and lists have slices, numbers and [None] have
    none. *)
Definition slice_val (n : nat) (v : val) : res val :=
  match v with
  | VStr s => Ok (VStr (take_str n s))
  | VList l => Ok (VList (firstn n l))
  | _ => Raise TypeError
  end.

(** [rt = lambda s: [{"text": {"content": (s or "")[:1800]}}]]. *)
Definition text_of (content : val) : json :=
  JArr [JObj [("text", JObj [("content", to_json content)])]].

Definition rt (s : val) : res json :=
  do c <- slice_val 1800 (py_or s (VStr ""));
  Ok (text_of c).

Definition rich_text (j : json) : json := JObj [("rich_text", j)].
Definition select (name : json) : json :=
  JObj [("select", JObj [("name", name)])].
Definition number (v : val) : json := JObj [("number", to_json v)].

(** ["yes" if (item.get("price") and item["price"] > MAX_RENT) else
    "no"]: a falsy price is not compared. *)
Definition stretch_of (item : dict) : res string :=
  if truthy (get item "price") then
    do p <- num_of (get item "price");
    Ok (if Qlt_bool MAX_RENT p then "yes" else "no")
  else Ok "no".

(** [[{"name": s} for s in item.get("sources", [])]]: a list gives its
    elements, a string its characters; a number or [None] cannot be
    iterated. *)
Definition source_names (item : dict) : res (list json) :=
  match item !! "sources" with
  | None => Ok []
  | Some (VList l) => Ok (map (fun s => JObj [("name", JStr s)]) l)
  | Some (VStr s) =>
      Ok (map (fun c => JObj [("name", JStr (String c ""))])
            (list_ascii_of_string s))
  | Some _ => Raise TypeError
  end.

(** A dictionary display: the entries are written in order. *)
Definition display (entries : list (string * json)) : gmap string json :=
  fold_left (fun m e => <[fst e := snd e]> m) entries ∅.

Definition notion_props (item : dict) (title_prop_name seen_date : string)
  : res (gmap string json) :=
  let title :=
    py_or (py_or (get item "address") (get item "property_name"))
      (VStr "Bay Area rental") in
  do stretch <- stretch_of item;
  do ptype <- ptype_of item;
  let preferred := if allowed_type ptype then "yes" else "no" in
  do title <- slice_val 1800 title;
  do key <- rt (get_or item "canonical_key" (VStr ""));
  do sources <- source_names item;
  do address <- rt (get_or item "address" (VStr ""));
  do city <- rt (get_or item "city" (VStr ""));
  do window <- rt (VStr MOVE_WINDOW);
  do notes <- rt (get_or item "quality_notes" (VStr ""));
  Ok (display
        [(title_prop_name, JObj [("title", text_of title)]);
         ("Canonical Key", rich_text key);
         ("Sources", JObj [("multi_select", JArr sources)]);
         ("Primary URL", JObj [("url", to_json (get_or item "url" (VStr "")))]);
         ("Address", rich_text address);
         ("City", rich_text city);
         ("Property Type", select (JStr ptype));
         ("Home/Townhome Preferred", select (JStr preferred));
         ("Price", number (get item "price"));
         ("Beds", number (get item "beds"));
         ("Baths", number (get item "baths"));
         ("Dog Friendly",
          select (to_json (get_or item "dog_friendly" (VStr "maybe"))));
         ("Parking", select (to_json (get_or item "parking" (VStr "maybe"))));
         ("Move Window", rich_text window);
         ("Stretch", select (JStr stretch));
         ("Commute Score", number (get_or item "commute_score" (VNum 0)));
         ("Nature Score", number (get_or item "nature_score" (VNum 0)));
         ("Match Score", number (get_or item "match_score" (VNum 0)));
         ("Data Quality",
          select (to_json (get_or item "data_quality" (VStr "fail"))));
         ("Quality Notes", rich_text notes);
         ("Last Seen", JObj [("date", JObj [("start", JStr seen_date)])])]).

(** The keys the display writes after the title. *)
Definition NOTION_KEYS : list string :=
  ["Canonical Key"; "Sources"; "Primary URL"; "Address"; "City";
   "Property Type"; "Home/Townhome Preferred"; "Price"; "Beds"; "Baths";
   "Dog Friendly"; "Parking"; "Move Window"; "Stretch"; "Commute Score";
   "Nature Score"; "Match Score"; "Data Quality"; "Quality Notes";
   "Last Seen"].

(** A known price above the base rent ceiling. *)
Definition over_max_rent (v : val) : bool :=
  match v with
  | VNum p => Qlt_bool MAX_RENT p
  | _ => false
  end.

(** The points [score] gives for the price. *)
Definition price_points (v : val) : Q :=
  match v with
  | VNum p =>
      if Qle_bool p MAX_RENT then 4
      else if Qle_bool p STRETCH_MAX then 2 else 0
  | _ => 0
  end.

(** A realtor record of the address of [main_redfin] that has every
    field of the end-to-end scenario and outscores the redfin record:
    2.5 baths, dog-friendly, parking, nature 3 and commute 5 make 13.
    Its property type is unknown. *)
Definition realtor_alt : dict :=
  raw_record "id-q2" "realtor"
    "https://www.realtor.com/rentals/details/123-Main-St"
    "123 Main St" "123 Main St" "" "unknown"
    VNone VNone (VNum (5 # 2)) "yes" "yes" 3 5 "".

(** * Proofs *)

(** ** The exception monad *)

Lemma bind_Ok {A B : Type} (m : res A) (f : A -> res B) (b : B) :
  bind m f = Ok b -> exists a, m = Ok a /\ f a = Ok b.
Proof. destruct m as [a|e]; simpl; [eauto | discriminate]. Qed.

Lemma bind_Ok_l {A B : Type} (m : res A) (f : A -> res B) (a : A) :
  m = Ok a -> bind m f = f a.
Proof. intros ->. reflexivity. Qed.

(** Inversion of a successful run, one [bind] at a time. *)
Ltac inv_bind H :=
  let a := fresh "a" in
  let Ha := fresh "Ha" in
  apply bind_Ok in H; destruct H as (a & Ha & H).

(** ** Reading a dictionary after a write *)

Lemma get_insert_eq (d : dict) (k : string) (v : val) :
  get (<[k := v]> d) k = v.
Proof. unfold get. by rewrite lookup_insert_eq. Qed.

Lemma get_insert_ne (d : dict) (k k' : string) (v : val) :
  k <> k' -> get (<[k := v]> d) k' = get d k'.
Proof. intros Hne. unfold get. by rewrite lookup_insert_ne. Qed.

Lemma get_or_insert_eq (d : dict) (k : string) (v dflt : val) :
  get_or (<[k := v]> d) k dflt = v.
Proof. unfold get_or. by rewrite lookup_insert_eq. Qed.

Lemma get_or_insert_ne (d : dict) (k k' : string) (v dflt : val) :
  k <> k' -> get_or (<[k := v]> d) k' dflt = get_or d k' dflt.
Proof. intros Hne. unfold get_or. by rewrite lookup_insert_ne. Qed.

(** Rewrites every read through the writes above it; the keys are
    literals, so their disequality is decided by [discriminate]. *)
Ltac read_writes :=
  repeat first
    [ rewrite get_insert_eq
    | rewrite get_or_insert_eq
    | rewrite lookup_insert_eq
    | rewrite get_insert_ne by discriminate
    | rewrite get_or_insert_ne by discriminate
    | rewrite lookup_insert_ne by discriminate ].

Ltac read_writes_in H :=
  repeat first
    [ rewrite get_insert_eq in H
    | rewrite get_or_insert_eq in H
    | rewrite lookup_insert_eq in H
    | rewrite get_insert_ne in H by discriminate
    | rewrite get_or_insert_ne in H by discriminate
    | rewrite lookup_insert_ne in H by discriminate ].

(** ** [normalize_text] and [canonical_key] *)

Lemma normalize_text_str (s : string) :
  normalize_text (VStr s) = Ok (norm_str s).
Proof.
  unfold normalize_text, py_or, truthy, norm_str.
  destruct (String.eqb s "") eqn:E; simpl; [|reflexivity].
  apply String.eqb_eq in E. subst s. reflexivity.
Qed.

Lemma normalize_text_field (d : dict) (k : string) :
  val_str_or_none (get d k) = true ->
  exists s, normalize_text (get_or d k (VStr "")) = Ok s.
Proof.
  unfold get, get_or. destruct (d !! k) as [[ | s | q | l]|]; simpl;
    try discriminate; intros _.
  - eexists. reflexivity.
  - eexists. apply normalize_text_str.
  - eexists. reflexivity.
Qed.

Lemma likely_street_address_str (s : string) :
  likely_street_address (VStr s) = Ok (search_from false s).
Proof.
  unfold likely_street_address, py_or, truthy.
  destruct (String.eqb s "") eqn:E; simpl; [|reflexivity].
  apply String.eqb_eq in E. subst s. reflexivity.
Qed.

Lemma strip_scheme_field (d : dict) :
  str_or_absent (d !! "url") = true ->
  exists u, strip_scheme_val (get_or d "url" (VStr "")) = Ok u.
Proof.
  unfold get_or. destruct (d !! "url") as [[ | s | q | l]|]; simpl;
    try discriminate; intros _; eexists; reflexivity.
Qed.

Lemma one_prefix_addr (s : string) : one_prefix ("addr:" +:+ s).
Proof. destruct s; reflexivity. Qed.

Lemma one_prefix_namecity (s : string) : one_prefix ("namecity:" +:+ s).
Proof. destruct s; reflexivity. Qed.

Lemma one_prefix_url (s : string) : one_prefix ("url:" +:+ s).
Proof. destruct s; reflexivity. Qed.

(** The key of a record with typed key fields, through the three
    branches. *)
Lemma canonical_key_shape (item : dict) :
  wf_key_fields item = true ->
  exists k, canonical_key item = Ok k /\
    ((exists s, k = "addr:" +:+ s) \/
     (exists s, k = "namecity:" +:+ s) \/
     (exists s, k = "url:" +:+ s)).
Proof.
  unfold wf_key_fields. rewrite !andb_true_iff.
  intros [[[Ha Hn] Hc] Hu].
  destruct (normalize_text_field item "address" Ha) as [addr Eaddr].
  destruct (normalize_text_field item "property_name" Hn) as [name Ename].
  destruct (normalize_text_field item "city" Hc) as [city Ecity].
  destruct (strip_scheme_field item Hu) as [u Eu].
  unfold canonical_key.
  rewrite Eaddr. cbn [bind]. rewrite likely_street_address_str. cbn [bind].
  destruct (search_from false addr).
  { eexists. split; [reflexivity|]. left. eauto. }
  rewrite Ename. cbn [bind]. rewrite Ecity. cbn [bind].
  destruct (truthy (VStr name) && truthy (VStr city))%bool.
  { eexists. split; [reflexivity|]. right. left. eauto. }
  rewrite Eu. cbn [bind]. rewrite normalize_text_str. cbn [bind].
  eexists. split; [reflexivity|]. right. right. eauto.
Qed.

Lemma key_shape_nonempty (k : string) :
  ((exists s, k = "addr:" +:+ s) \/
   (exists s, k = "namecity:" +:+ s) \/
   (exists s, k = "url:" +:+ s)) ->
  one_prefix k /\ truthy (VStr k) = true.
Proof.
  intros [[s ->]|[[s ->]|[s ->]]]; split;
    auto using one_prefix_addr, one_prefix_namecity, one_prefix_url.
Qed.

(** ** Canonical-key determinism *)

(** C1, as stated, fails: [court_a] and [court_b] have the same normalized
    address, which carries no house number, so the key falls through to
    the name and city, which differ. *)
Lemma canonical_key_same_address_differs :
  same_normalized_address court_a court_b /\
  canonical_key court_a = Ok "namecity:oak court townhomes|saratoga" /\
  canonical_key court_b = Ok "namecity:oak court|los gatos" /\
  canonical_key court_a <> canonical_key court_b.
Proof.
  split; [exists "oak court"; split; vm_compute; reflexivity|].
  split; [vm_compute; reflexivity|].
  split; [vm_compute; reflexivity|].
  vm_compute. discriminate.
Qed.

(** C1 (amended): two records whose address fields normalize to the same
    string get the identical key, whatever their other fields, when that
    normalized address looks like a street address; the key is then
    ["addr:"] followed by the normalized address. *)
Theorem canonical_key_determinism (a b : dict) (addr : string) :
  normalize_text (get_or a "address" (VStr "")) = Ok addr ->
  normalize_text (get_or b "address" (VStr "")) = Ok addr ->
  likely_street_address (VStr addr) = Ok true ->
  canonical_key a = Ok ("addr:" +:+ addr) /\
  canonical_key b = canonical_key a.
Proof.
  intros Ha Hb Hs. unfold canonical_key.
  rewrite Ha, Hb. cbn [bind]. rewrite Hs. cbn [bind]. split; reflexivity.
Qed.

Lemma canonical_key_determinism_witness :
  canonical_key main_redfin = Ok "addr:123 main st" /\
  canonical_key main_realtor = canonical_key main_redfin.
Proof.
  apply (canonical_key_determinism main_redfin main_realtor "123 main st");
    vm_compute; reflexivity.
Defined.

(** ** The hard filters *)

Lemma num_or_none_get (v : val) :
  val_num_or_none v = true -> v = VNone \/ exists q, v = VNum q.
Proof. destruct v; simpl; try discriminate; eauto. Qed.

Lemma str_or_none_ptype (d : dict) :
  val_str_or_none (get d "property_type") = true ->
  exists pt, ptype_of d = Ok pt.
Proof.
  unfold ptype_of.
  destruct (get d "property_type") as [ | s | q | l]; simpl;
    try discriminate; intros _; try (eexists; reflexivity).
  unfold py_or, truthy. destruct (negb (String.eqb s ""));
    eexists; reflexivity.
Qed.

(** [passes_hard_filters] computes [eligible] on typed numeric fields. *)
Lemma passes_hard_filters_eligible (m : dict) (pt : string) :
  ptype_of m = Ok pt ->
  val_num_or_none (get m "price") = true ->
  val_num_or_none (get m "beds") = true ->
  val_num_or_none (get m "baths") = true ->
  passes_hard_filters m = Ok (eligible pt m).
Proof.
  intros Hpt Hp Hb Ha. unfold passes_hard_filters, eligible.
  rewrite Hpt. cbn [bind].
  destruct (allowed_type pt); cbn [negb andb]; [|reflexivity].
  apply num_or_none_get in Hp, Hb, Ha.
  unfold above, below, Qlt_bool.
  destruct Hp as [-> | [p ->]], Hb as [-> | [b ->]], Ha as [-> | [a ->]];
    cbn [is_none num_of bind null_or];
    repeat match goal with
           | |- context [Qle_bool ?x ?y] => destruct (Qle_bool x y)
           end; reflexivity.
Qed.

Lemma passes_hard_filters_total (m : dict) :
  wf_merged m = true -> exists b, passes_hard_filters m = Ok b.
Proof.
  unfold wf_merged. rewrite !andb_true_iff. intros H.
  destruct H as [[[[[[[[Hp Hb] Ha] Ht] _] _] _] _] _].
  destruct (str_or_none_ptype m Ht) as [pt Hpt].
  eexists. apply (passes_hard_filters_eligible m pt); assumption.
Qed.

(** A disallowed type is rejected before any number is looked at. *)
Lemma passes_hard_filters_type (m : dict) (pt : string) :
  ptype_of m = Ok pt -> allowed_type pt = false ->
  passes_hard_filters m = Ok false.
Proof.
  intros Hpt Hal. unfold passes_hard_filters. rewrite Hpt. cbn [bind].
  rewrite Hal. reflexivity.
Qed.

(** A price above the ceiling is rejected whatever the beds and baths. *)
Lemma passes_hard_filters_price (m : dict) (pt : string) (p : Q) :
  ptype_of m = Ok pt -> get m "price" = VNum p ->
  Qlt_bool STRETCH_MAX p = true ->
  passes_hard_filters m = Ok false.
Proof.
  intros Hpt Hp Hlt. unfold passes_hard_filters. rewrite Hpt. cbn [bind].
  destruct (allowed_type pt); cbn [negb]; [|reflexivity].
  rewrite Hp. unfold above. cbn [is_none num_of bind]. rewrite Hlt.
  reflexivity.
Qed.

(** The filter does not read the keys the quality gate writes. *)
Lemma passes_hard_filters_reads (m m' : dict) :
  get m' "property_type" = get m "property_type" ->
  get m' "price" = get m "price" ->
  get m' "beds" = get m "beds" ->
  get m' "baths" = get m "baths" ->
  passes_hard_filters m' = passes_hard_filters m.
Proof.
  intros Ht Hp Hb Ha. unfold passes_hard_filters, ptype_of.
  rewrite Ht, Hp, Hb, Ha. reflexivity.
Qed.

(** ** The quality gate *)

Lemma quality_reasons_reads (m m' : dict) :
  (forall k, In k ["canonical_key"; "address"; "property_name"; "sources";
                   "price"; "beds"; "baths"; "property_type"] ->
             get m' k = get m k) ->
  quality_reasons m' = quality_reasons m.
Proof.
  intros H. unfold quality_reasons, ptype_of.
  rewrite !H by (simpl; tauto). reflexivity.
Qed.

Lemma quality_assessment_reads (m m' : dict) :
  (forall k, In k ["canonical_key"; "address"; "property_name"; "sources";
                   "price"; "beds"; "baths"; "property_type"] ->
             get m' k = get m k) ->
  quality_assessment m' = quality_assessment m.
Proof.
  intros H. unfold quality_assessment.
  rewrite (quality_reasons_reads m m' H). reflexivity.
Qed.

Lemma removed_delete (k : string) (m : dict) : removed k m (delete k m).
Proof.
  split; unfold get.
  - by rewrite lookup_delete_eq.
  - intros k' Hne. by rewrite lookup_delete_ne.
Qed.

Lemma removed_none (k : string) (m : dict) : removed k m (<[k := VNone]> m).
Proof.
  split.
  - apply get_insert_eq.
  - intros k' Hne. by apply get_insert_ne.
Qed.

Lemma quality_assessment_total (m : dict) :
  val_str_or_none (get m "property_type") = true ->
  exists q notes, quality_assessment m = Ok (q, notes).
Proof.
  intros Ht. destruct (str_or_none_ptype m Ht) as [pt Hpt].
  unfold quality_assessment, quality_reasons. rewrite Hpt. cbn [bind].
  match goal with
  | |- context [match ?l with [] => _ | _ :: _ => _ end] => destruct l
  end; eauto.
Qed.

(** Rewrites the reads of [m'] into reads of [m], given [removed k m m']. *)
Ltac reads_of_removed Hrem :=
  let Hk := fresh "Hk" in
  let Hother := fresh "Hother" in
  destruct Hrem as [Hk Hother];
  unfold quality_assessment, quality_reasons, ptype_of in *;
  rewrite ?Hk; rewrite ?Hother by discriminate.

(** C8, as stated, fails: [complete_listing] has every listed field and
    passes, and with its address removed it still passes, because the gate
    asks for an address or a property name. *)
Lemma quality_gate_address_removed_passes :
  quality_assessment complete_listing = Ok ("pass", "ready") /\
  truthy (get complete_listing "address") = true /\
  quality_assessment (delete "address" complete_listing)
    = Ok ("pass", "ready").
Proof. vm_compute. repeat split; reflexivity. Qed.

(** C8 (amended): a merged listing with a non-empty canonical key,
    non-null price, beds and baths, a non-empty address, an allowed
    property type and non-empty sources gets the verdict "pass" with no
    reason.  Removing the price, the beds, the baths, the sources or the
    property type gives "fail" with exactly one reason, which names that
    field.  Removing the address gives "fail" with the one reason
    "missing address/name" when the listing has no property name, and
    still "pass" when it has one. *)
Theorem quality_gate_completeness (m : dict) (pt : string) :
  truthy (get m "canonical_key") = true ->
  truthy (get m "address") = true ->
  truthy (get m "sources") = true ->
  is_none (get m "price") = false ->
  is_none (get m "beds") = false ->
  is_none (get m "baths") = false ->
  ptype_of m = Ok pt ->
  allowed_type pt = true ->
  (quality_reasons m = Ok [] /\
   quality_assessment m = Ok ("pass", "ready")) /\
  (forall m', removed "price" m m' ->
     quality_reasons m' = Ok ["missing price"] /\
     quality_assessment m' = Ok ("fail", "missing price")) /\
  (forall m', removed "beds" m m' ->
     quality_reasons m' = Ok ["missing beds"] /\
     quality_assessment m' = Ok ("fail", "missing beds")) /\
  (forall m', removed "baths" m m' ->
     quality_reasons m' = Ok ["missing baths"] /\
     quality_assessment m' = Ok ("fail", "missing baths")) /\
  (forall m', removed "sources" m m' ->
     quality_reasons m' = Ok ["missing sources"] /\
     quality_assessment m' = Ok ("fail", "missing sources")) /\
  (forall m', removed "property_type" m m' ->
     quality_reasons m' = Ok ["property type not allowed: unknown"] /\
     quality_assessment m' =
       Ok ("fail", "property type not allowed: unknown")) /\
  (forall m', removed "address" m m' ->
     if truthy (get m "property_name")
     then quality_reasons m' = Ok [] /\
          quality_assessment m' = Ok ("pass", "ready")
     else quality_reasons m' = Ok ["missing address/name"] /\
          quality_assessment m' = Ok ("fail", "missing address/name")).
Proof.
  intros Hck Haddr Hsrc Hp Hb Ha Hpt Hal.
  assert (Hor : truthy (py_or (get m "address") (get m "property_name"))
                = true).
  { unfold py_or. rewrite Haddr. exact Haddr. }
  split; [|repeat (split; [intros m' H|])]; [| | | | | |intros m' H].
  - unfold quality_assessment, quality_reasons.
    rewrite Hck, Hor, Hsrc, Hp, Hb, Ha, Hpt. cbn [bind negb append_if].
    rewrite Hal. split; reflexivity.
  - reads_of_removed H.
    rewrite Hck, Hor, Hsrc, Hb, Ha, Hpt. cbn [bind negb append_if is_none].
    rewrite Hal. split; reflexivity.
  - reads_of_removed H.
    rewrite Hck, Hor, Hsrc, Hp, Ha, Hpt. cbn [bind negb append_if is_none].
    rewrite Hal. split; reflexivity.
  - reads_of_removed H.
    rewrite Hck, Hor, Hsrc, Hp, Hb, Hpt. cbn [bind negb append_if is_none].
    rewrite Hal. split; reflexivity.
  - reads_of_removed H.
    rewrite Hck, Hor, Hp, Hb, Ha, Hpt.
    cbn [bind negb append_if is_none truthy].
    rewrite Hal. split; reflexivity.
  - reads_of_removed H.
    rewrite Hck, Hor, Hsrc, Hp, Hb, Ha. split; reflexivity.
  - reads_of_removed H.
    rewrite Hck, Hsrc, Hp, Hb, Ha, Hpt.
    change (py_or VNone (get m "property_name"))
      with (get m "property_name").
    destruct (truthy (get m "property_name")) eqn:Hname;
      cbn [bind negb append_if]; rewrite Hal; split; reflexivity.
Qed.

(** ** [score] and the first two statements of the loop body *)

Lemma num_or_absent_get_or (d : dict) (k : string) :
  num_or_absent (d !! k) = true ->
  exists q, num_of (get_or d k (VNum 0)) = Ok q.
Proof.
  unfold get_or. destruct (d !! k) as [[ | s | q | l]|]; simpl;
    try discriminate; eauto.
Qed.

Lemma score_total (d : dict) :
  wf_score_fields d = true -> exists s, score d = Ok s.
Proof.
  unfold wf_score_fields. rewrite !andb_true_iff.
  intros [[[[Hp Hb] Ha] Hn] Hc].
  apply num_or_none_get in Hp, Hb, Ha.
  destruct (num_or_absent_get_or d "nature_score" Hn) as [n En].
  destruct (num_or_absent_get_or d "commute_score" Hc) as [c Ec].
  unfold score. rewrite En, Ec.
  destruct Hp as [-> | [p ->]], Hb as [-> | [b ->]], Ha as [-> | [a ->]];
    cbn [is_none num_of bind];
    repeat match goal with
           | |- context [Qle_bool ?x ?y] => destruct (Qle_bool x y)
           end; cbn [bind]; eauto.
Qed.

(** [score] reads seven fields. *)
Lemma score_reads (d d' : dict) :
  (forall k, In k ["price"; "beds"; "baths"; "dog_friendly"; "parking"] ->
             get d' k = get d k) ->
  d' !! "nature_score" = d !! "nature_score" ->
  d' !! "commute_score" = d !! "commute_score" ->
  score d' = score d.
Proof.
  intros H Hn Hc. unfold score, get_or.
  rewrite !H by (simpl; tauto). rewrite Hn, Hc. reflexivity.
Qed.

(** [canonical_key] reads four. *)
Lemma canonical_key_reads (d d' : dict) :
  (forall k, In k ["address"; "property_name"; "city"; "url"] ->
             d' !! k = d !! k) ->
  canonical_key d' = canonical_key d.
Proof.
  intros H. unfold canonical_key, get_or.
  rewrite !H by (simpl; tauto). reflexivity.
Qed.

(** The record as the loop body leaves it. *)
Lemma annotate_Ok (item item' : dict) (k : string) (sc : Q) :
  annotate item = Ok (k, sc, item') <->
  canonical_key item = Ok k /\ score item = Ok sc /\
  item' = <["match_score" := VNum sc]> (<["canonical_key" := VStr k]> item).
Proof.
  unfold annotate.
  assert (Hs : forall v, score (<["canonical_key" := v]> item) = score item).
  { intros v. apply score_reads.
    - intros f Hf. apply get_insert_ne.
      intros E. subst f. simpl in Hf. intuition discriminate.
    - by rewrite lookup_insert_ne.
    - by rewrite lookup_insert_ne. }
  split.
  - intros H. inv_bind H. rewrite Hs in H. inv_bind H.
    injection H as <- <- <-. auto.
  - intros (Hk & Hsc & ->). rewrite Hk. cbn [bind]. rewrite Hs, Hsc.
    reflexivity.
Qed.

Lemma annotate_total (item : dict) :
  wf_raw item = true ->
  exists k sc,
    annotate item
    = Ok (k, sc,
          <["match_score" := VNum sc]> (<["canonical_key" := VStr k]> item)).
Proof.
  unfold wf_raw. rewrite !andb_true_iff. intros [[[[[Hk Hs] _] _] _] _].
  destruct (canonical_key_shape item Hk) as (k & Ek & _).
  destruct (score_total item Hs) as (sc & Esc).
  exists k, sc. apply annotate_Ok. auto.
Qed.

(** Writing the key and the score a second time changes nothing: a record
    that stands twice in the input list ends as two equal records do. *)
Lemma annotate_idempotent (item item' : dict) (k : string) (sc : Q) :
  annotate item = Ok (k, sc, item') -> annotate item' = Ok (k, sc, item').
Proof.
  intros H. apply annotate_Ok in H. destruct H as (Hk & Hsc & ->).
  apply annotate_Ok. split; [|split].
  - rewrite <- Hk. apply canonical_key_reads.
    intros f Hf. rewrite !lookup_insert_ne; [done | |];
      intros E; subst f; simpl in Hf; intuition discriminate.
  - rewrite <- Hsc. apply score_reads.
    + intros f Hf. rewrite !get_insert_ne; [done | |];
        intros E; subst f; simpl in Hf; intuition discriminate.
    + by rewrite !lookup_insert_ne.
    + by rewrite !lookup_insert_ne.
  - apply map_eq. intros f.
    destruct (decide (f = "match_score")) as [-> | Hms];
      [by rewrite !lookup_insert_eq|].
    destruct (decide (f = "canonical_key")) as [-> | Hck];
      repeat first [ rewrite lookup_insert_eq
                   | rewrite lookup_insert_ne by done ]; reflexivity.
Qed.

(** The fields of the annotated record. *)
Lemma annotated_get (item : dict) (k : string) (sc : Q) (f : string) :
  f <> "canonical_key" -> f <> "match_score" ->
  get (<["match_score" := VNum sc]> (<["canonical_key" := VStr k]> item)) f
  = get item f.
Proof. intros H1 H2. by rewrite !get_insert_ne. Qed.

Lemma annotated_lookup (item : dict) (k : string) (sc : Q) (f : string) :
  f <> "canonical_key" -> f <> "match_score" ->
  (<["match_score" := VNum sc]> (<["canonical_key" := VStr k]> item)) !! f
  = item !! f.
Proof. intros H1 H2. by rewrite !lookup_insert_ne. Qed.

(** ** The mapping [by_key] *)

Lemma bk_lookup_set_eq (k : string) (m : dict) (bk : by_key_t) :
  bk_lookup k (bk_set k m bk) = Some m.
Proof.
  induction bk as [|[k' m'] tl IH]; simpl.
  - by rewrite String.eqb_refl.
  - destruct (String.eqb k k') eqn:E; simpl; rewrite E; auto.
Qed.

Lemma bk_lookup_set_ne (k k' : string) (m : dict) (bk : by_key_t) :
  k <> k' -> bk_lookup k' (bk_set k m bk) = bk_lookup k' bk.
Proof.
  intros Hne. induction bk as [|[k0 m0] tl IH]; simpl.
  - destruct (String.eqb k' k) eqn:E; [|reflexivity].
    apply String.eqb_eq in E. congruence.
  - destruct (String.eqb k k0) eqn:E; simpl.
    + apply String.eqb_eq in E. subst k0.
      destruct (String.eqb k' k) eqn:E'; [|reflexivity].
      apply String.eqb_eq in E'. congruence.
    + rewrite IH. reflexivity.
Qed.

Lemma bk_lookup_None (k : string) (bk : by_key_t) :
  bk_lookup k bk = None <-> ~ List.In k (map fst bk).
Proof.
  induction bk as [|[k' m'] tl IH]; simpl; [tauto|].
  destruct (String.eqb k k') eqn:E.
  - apply String.eqb_eq in E. subst. split; [discriminate | tauto].
  - apply String.eqb_neq in E. rewrite IH. split; [|tauto].
    intros H [H'|H']; [congruence | tauto].
Qed.

Lemma bk_lookup_In (k : string) (m : dict) (bk : by_key_t) :
  bk_lookup k bk = Some m -> List.In (k, m) bk.
Proof.
  induction bk as [|[k' m'] tl IH]; simpl; [discriminate|].
  destruct (String.eqb k k') eqn:E.
  - apply String.eqb_eq in E. intros [= ->]. subst. auto.
  - auto.
Qed.

Lemma bk_In_lookup (k : string) (m : dict) (bk : by_key_t) :
  List.NoDup (map fst bk) -> List.In (k, m) bk -> bk_lookup k bk = Some m.
Proof.
  induction bk as [|[k' m'] tl IH]; simpl; [tauto|].
  intros Hnd [H|H].
  - injection H as -> ->. by rewrite String.eqb_refl.
  - inversion Hnd as [|? ? Hnotin Hnd']; subst.
    destruct (String.eqb k k') eqn:E; [|auto].
    apply String.eqb_eq in E. subst k'. exfalso. apply Hnotin.
    change k with (fst (k, m)). by apply in_map.
Qed.

(** A new key goes to the end. *)
Lemma bk_set_new (k : string) (m : dict) (bk : by_key_t) :
  bk_lookup k bk = None -> bk_set k m bk = bk ++ [(k, m)].
Proof.
  induction bk as [|[k' m'] tl IH]; simpl; [reflexivity|].
  destruct (String.eqb k k'); [discriminate|].
  intros H. by rewrite IH.
Qed.

(** A known key keeps its place. *)
Lemma bk_set_keys (k : string) (m c : dict) (bk : by_key_t) :
  bk_lookup k bk = Some c -> map fst (bk_set k m bk) = map fst bk.
Proof.
  induction bk as [|[k' m'] tl IH]; simpl; [discriminate|].
  destruct (String.eqb k k'); simpl; [reflexivity|].
  intros H. by rewrite IH.
Qed.

Lemma bk_set_NoDup (k : string) (m : dict) (bk : by_key_t) :
  List.NoDup (map fst bk) -> List.NoDup (map fst (bk_set k m bk)).
Proof.
  intros Hnd. destruct (bk_lookup k bk) as [c|] eqn:E.
  - by rewrite (bk_set_keys k m c bk E).
  - rewrite (bk_set_new k m bk E), map_app. simpl.
    apply bk_lookup_None in E.
    apply Permutation.Permutation_NoDup with (l := k :: map fst bk).
    + apply Permutation.Permutation_cons_append.
    + by constructor.
Qed.

(** A value of the mapping sits under its own key when keys are
    distinct. *)
Lemma bk_values_lookup (m : dict) (bk : by_key_t) :
  List.NoDup (map fst bk) -> List.In m (map snd bk) ->
  exists k, bk_lookup k bk = Some m.
Proof.
  intros Hnd Hin. apply in_map_iff in Hin. destruct Hin as ([k m'] & E & Hin).
  simpl in E. subst m'. exists k. by apply bk_In_lookup.
Qed.

(** ** Reading an entry after the statements of the loop body *)

Lemma is_none_true (v : val) : is_none v = true -> v = VNone.
Proof. destruct v; simpl; congruence. Qed.

Lemma fill_numeric_get (item cur : dict) (fld k : string) :
  get (fill_numeric item cur fld) k =
  if String.eqb k fld
  then (if is_none (get cur fld) then get item fld else get cur fld)
  else get cur k.
Proof.
  unfold fill_numeric.
  destruct (String.eqb k fld) eqn:E.
  - apply String.eqb_eq in E. subst k.
    destruct (is_none (get cur fld)) eqn:Hc; simpl.
    + destruct (is_none (get item fld)) eqn:Hi; simpl.
      * apply is_none_true in Hc, Hi. congruence.
      * apply get_insert_eq.
    + reflexivity.
  - apply String.eqb_neq in E.
    destruct (is_none (get cur fld) && negb (is_none (get item fld)))%bool;
      [|reflexivity].
    by apply get_insert_ne.
Qed.

Lemma adopt_address_get (item cur : dict) (k : string) :
  k <> "address" -> get (adopt_address item cur) k = get cur k.
Proof.
  intros Hne. unfold adopt_address.
  destruct (negb (truthy (get cur "address")) && truthy (get item "address"))%bool;
    [|reflexivity].
  by apply get_insert_ne.
Qed.

Lemma get_as_list (v : val) :
  val_is_list v = true -> exists l, v = VList l.
Proof. destruct v; simpl; try discriminate; eauto. Qed.

Lemma get_as_num (v : val) :
  val_is_num v = true -> exists q, v = VNum q.
Proof. destruct v; simpl; try discriminate; eauto. Qed.

Lemma get_as_str (v : val) :
  val_is_str v = true -> exists s, v = VStr s.
Proof. destruct v; simpl; try discriminate; eauto. Qed.

Lemma lookup_string (d : dict) (k : string) :
  is_string (d !! k) = true -> exists s, d !! k = Some (VStr s).
Proof.
  destruct (d !! k) as [[ | s | q | l]|]; simpl; try discriminate; eauto.
Qed.

(** With the default [[]] or without it, a stored list reads the same. *)
Lemma get_or_get (d : dict) (k : string) (dflt v : val) :
  get d k = v -> v <> VNone -> get_or d k dflt = v.
Proof.
  unfold get, get_or. destruct (d !! k); [auto | congruence].
Qed.

Lemma seed_Ok (item : dict) (src url lid : string) :
  item !! "source" = Some (VStr src) ->
  item !! "url" = Some (VStr url) ->
  item !! "listing_id" = Some (VStr lid) ->
  seed item
  = Ok (<["listing_ids" := VList [lid]]>
          (<["source_urls" := VList [url]]>
             (<["sources" := VList [src]]> item))).
Proof.
  intros Hs Hu Hl. unfold seed, getitem. rewrite Hs, Hu, Hl. reflexivity.
Qed.

Lemma add_provenance_Ok (item cur : dict) (fld src : string)
    (old : list string) (x : string) :
  get cur fld = VList old -> item !! src = Some (VStr x) ->
  add_provenance item fld src cur
  = Ok (<[fld := VList (sorted_union old x)]> cur).
Proof.
  intros Hc Hi. unfold add_provenance, getitem.
  rewrite (get_or_get cur fld (VList []) (VList old) Hc) by discriminate.
  rewrite Hi. reflexivity.
Qed.

(** Splits a membership in a literal list into its cases. *)
Ltac in_cases H :=
  simpl in H;
  repeat (destruct H as [H|H]; [subst|]); try contradiction.

Section FoldInto.

(** An entry [cur] with its provenance lists and stored score, and an
    incoming record [item] with its source, URL and listing id. *)
Variables (sc stored : Q) (item cur : dict).
Variables (srcs urls lids : list string) (src url lid : string).
Hypothesis Hs : get cur "sources" = VList srcs.
Hypothesis Hu : get cur "source_urls" = VList urls.
Hypothesis Hl : get cur "listing_ids" = VList lids.
Hypothesis Hm : get cur "match_score" = VNum stored.
Hypothesis Hsrc : item !! "source" = Some (VStr src).
Hypothesis Hurl : item !! "url" = Some (VStr url).
Hypothesis Hlid : item !! "listing_id" = Some (VStr lid).

(** What [fold_into] leaves in each field of the entry. *)
Lemma fold_into_fields :
  exists cur',
    fold_into sc item cur = Ok cur' /\
    (forall f, List.In f NUMERIC_FIELDS ->
       get cur' f = if is_none (get cur f) then get item f else get cur f) /\
    get cur' "sources" = VList (sorted_union srcs src) /\
    get cur' "source_urls" = VList (sorted_union urls url) /\
    get cur' "listing_ids" = VList (sorted_union lids lid) /\
    (forall f, List.In f REPRESENTATIVE_FIELDS ->
       get cur' f = if Qlt_bool stored sc then get item f else get cur f) /\
    get cur' "canonical_key" = get cur "canonical_key".
Proof.
  unfold fold_into.
  set (c0 := fold_left (fill_numeric item) NUMERIC_FIELDS cur).
  set (c1 := adopt_address item c0).
  assert (G0 : forall k, get c0 k =
             if (String.eqb k "price" || String.eqb k "beds"
                 || String.eqb k "baths")%bool
             then (if is_none (get cur k) then get item k else get cur k)
             else get cur k).
  { intros k. unfold c0, NUMERIC_FIELDS. cbn [fold_left].
    rewrite !fill_numeric_get.
    destruct (String.eqb k "baths") eqn:E3;
      [apply String.eqb_eq in E3; subst k; reflexivity|].
    destruct (String.eqb k "beds") eqn:E2;
      [apply String.eqb_eq in E2; subst k; reflexivity|].
    destruct (String.eqb k "price") eqn:E1;
      [apply String.eqb_eq in E1; subst k; reflexivity|].
    reflexivity. }
  assert (G1 : forall k, k <> "address" -> get c1 k = get c0 k).
  { intros k H1. unfold c1. by rewrite adopt_address_get. }
  rewrite (add_provenance_Ok item c1 "sources" "source" srcs src);
    [|rewrite G1, G0 by discriminate; done|done].
  cbn [bind].
  erewrite (add_provenance_Ok item _ "source_urls" "url" urls url);
    [|read_writes; rewrite G1, G0 by discriminate; done|done].
  cbn [bind].
  erewrite (add_provenance_Ok item _ "listing_ids" "listing_id" lids lid);
    [|read_writes; rewrite G1, G0 by discriminate; done|done].
  cbn [bind].
  set (c3 := <["listing_ids" := _]> _).
  assert (G3 : forall k, k <> "address" -> k <> "sources" ->
             k <> "source_urls" -> k <> "listing_ids" ->
             get c3 k = get c0 k).
  { intros k H1 H2 H3 H4. unfold c3. rewrite !get_insert_ne by done.
    by apply G1. }
  assert (P1 : get c3 "sources" = VList (sorted_union srcs src))
    by (unfold c3; read_writes; reflexivity).
  assert (P2 : get c3 "source_urls" = VList (sorted_union urls url))
    by (unfold c3; read_writes; reflexivity).
  assert (P3 : get c3 "listing_ids" = VList (sorted_union lids lid))
    by (unfold c3; read_writes; reflexivity).
  clearbody c3. clear G1. clearbody c1 c0.
  rewrite (get_or_get c3 "match_score" (VNum 0) (VNum stored))
    by (try rewrite G3, G0 by discriminate; done).
  cbn [num_of bind].
  destruct (Qlt_bool stored sc).
  - eexists. split; [reflexivity|].
    unfold REPRESENTATIVE_FIELDS. cbn [fold_left]. unfold take_field.
    split; [|split; [|split; [|split; [|split]]]].
    + intros f Hf. in_cases Hf; read_writes;
        rewrite G3, G0 by discriminate; reflexivity.
    + read_writes. exact P1.
    + read_writes. exact P2.
    + read_writes. exact P3.
    + intros f Hf. in_cases Hf; read_writes; reflexivity.
    + read_writes. rewrite G3, G0 by discriminate. reflexivity.
  - eexists. split; [reflexivity|].
    split; [|split; [|split; [|split; [|split]]]]; try assumption.
    + intros f Hf. in_cases Hf; rewrite G3, G0 by discriminate; reflexivity.
    + intros f Hf. in_cases Hf; rewrite G3, G0 by discriminate; reflexivity.
    + rewrite G3, G0 by discriminate. reflexivity.
Qed.

End FoldInto.

(** ** One round of the loop *)

Lemma wf_raw_fields (item : dict) :
  wf_raw item = true ->
  wf_key_fields item = true /\ wf_score_fields item = true /\
  (exists src, item !! "source" = Some (VStr src)) /\
  (exists url, item !! "url" = Some (VStr url)) /\
  (exists lid, item !! "listing_id" = Some (VStr lid)) /\
  val_str_or_none (get item "property_type") = true.
Proof.
  unfold wf_raw. rewrite !andb_true_iff.
  intros [[[[[Hk Hs] H1] H2] H3] H4].
  auto 10 using lookup_string.
Qed.

Lemma val_num_or_none_if (c : bool) (a b : val) :
  val_num_or_none a = true -> val_num_or_none b = true ->
  val_num_or_none (if c then a else b) = true.
Proof. by destruct c. Qed.

(** The loop body on a typed record and a well-formed mapping: it
    succeeds, writes the key and the score into the record, and files the
    seeded or merged entry under the key. *)
Section LoopBody.

Variables (bk : by_key_t) (item : dict).
Hypothesis Hwf : wf_raw item = true.
Hypothesis Hbk : wf_by_key bk.

Lemma merge_step_Ok :
  exists k sc m',
    canonical_key item = Ok k /\ score item = Ok sc /\
    merge_step bk item
    = Ok (<["match_score" := VNum sc]> (<["canonical_key" := VStr k]> item),
          bk_set k m' bk) /\
    wf_merged m' = true /\ get m' "canonical_key" = VStr k /\
    match bk_lookup k bk with
    | None =>
        seed (<["match_score" := VNum sc]>
                (<["canonical_key" := VStr k]> item)) = Ok m'
    | Some cur =>
        fold_into sc (<["match_score" := VNum sc]>
                        (<["canonical_key" := VStr k]> item)) cur = Ok m'
    end.
Proof.
  destruct Hbk as [Hnd Hent].
  destruct (annotate_total item Hwf) as (k & sc & Han).
  pose proof Han as Han'. apply annotate_Ok in Han'.
  destruct Han' as (Hk & Hsc & _).
  destruct (wf_raw_fields item Hwf)
    as (_ & Hsf & [src Hsrc] & [url Hurl] & [lid Hlid] & Hpt).
  unfold wf_score_fields in Hsf. rewrite !andb_true_iff in Hsf.
  destruct Hsf as [[[[Hp Hb] Ha] _] _].
  remember (<["match_score" := VNum sc]>
              (<["canonical_key" := VStr k]> item)) as item' eqn:Eitem.
  assert (Hsrc' : item' !! "source" = Some (VStr src))
    by (rewrite Eitem; by rewrite annotated_lookup).
  assert (Hurl' : item' !! "url" = Some (VStr url))
    by (rewrite Eitem; by rewrite annotated_lookup).
  assert (Hlid' : item' !! "listing_id" = Some (VStr lid))
    by (rewrite Eitem; by rewrite annotated_lookup).
  assert (Hget : forall f, f <> "canonical_key" -> f <> "match_score" ->
                   get item' f = get item f)
    by (intros f H1 H2; rewrite Eitem; by apply annotated_get).
  assert (Hms : get item' "match_score" = VNum sc)
    by (rewrite Eitem; apply get_insert_eq).
  assert (Hck : get item' "canonical_key" = VStr k)
    by (rewrite Eitem; by read_writes).
  unfold merge_step. rewrite Han. cbn [bind].
  destruct (bk_lookup k bk) as [cur|] eqn:Elook.
  - destruct (Hent k cur Elook) as [Hwfc Hckc].
    unfold wf_merged in Hwfc. rewrite !andb_true_iff in Hwfc.
    destruct Hwfc as [[[[[[[[Hcp Hcb] Hca] Hct] Hcm] _] Hcs] Hcu] Hcl].
    apply get_as_list in Hcs, Hcu, Hcl. apply get_as_num in Hcm.
    destruct Hcs as [srcs Hcs], Hcu as [urls Hcu], Hcl as [lids Hcl],
             Hcm as [stored Hcm].
    destruct (fold_into_fields sc stored item' cur srcs urls lids src url lid
                Hcs Hcu Hcl Hcm Hsrc' Hurl' Hlid')
      as (cur' & Hfold & HN & HP1 & HP2 & HP3 & HR & HK).
    exists k, sc, cur'. rewrite <- Eitem, Hfold. cbn [bind].
    repeat split; try assumption; try reflexivity.
    + unfold wf_merged.
      rewrite (HN "price"), (HN "beds"), (HN "baths") by (simpl; tauto).
      rewrite (HR "property_type"), (HR "match_score") by (simpl; tauto).
      rewrite HP1, HP2, HP3, HK, Hckc, Hms, Hcm.
      rewrite !Hget by discriminate.
      rewrite !val_num_or_none_if by assumption.
      destruct (Qlt_bool stored sc); rewrite ?Hpt, ?Hct; reflexivity.
    + by rewrite HK.
    + rewrite Elook. exact Hfold.
  - pose proof (seed_Ok item' src url lid Hsrc' Hurl' Hlid') as Hseed.
    eexists k, sc, _. rewrite <- Eitem, Hseed. cbn [bind].
    repeat split; try assumption; try reflexivity.
    + unfold wf_merged. read_writes. rewrite !Hget by discriminate.
      rewrite Hp, Hb, Ha, Hpt, Hms, Hck. reflexivity.
    + read_writes. exact Hck.
    + rewrite Elook. reflexivity.
Qed.

(** The invariant of the mapping survives the round. *)
Lemma merge_step_wf (item' : dict) (bk' : by_key_t) :
  merge_step bk item = Ok (item', bk') -> wf_by_key bk'.
Proof.
  intros Hstep.
  destruct merge_step_Ok as (k & sc & m' & _ & _ & Hstep' & Hwm & Hck & _).
  rewrite Hstep' in Hstep. injection Hstep as _ <-.
  destruct Hbk as [Hnd Hent]. split; [by apply bk_set_NoDup|].
  intros k0 m0. destruct (decide (k = k0)) as [<- | Hne].
  - rewrite bk_lookup_set_eq. intros [= <-]. auto.
  - rewrite bk_lookup_set_ne by done. apply Hent.
Qed.

End LoopBody.

(** ** The loop *)

Lemma wf_by_key_nil : wf_by_key [].
Proof. split; [constructor | intros k m; discriminate]. Qed.

Lemma merge_loop_total (items : list dict) (bk : by_key_t) :
  wf_items items -> wf_by_key bk ->
  exists items' bk', merge_loop bk items = Ok (items', bk') /\ wf_by_key bk'.
Proof.
  intros Hitems. revert bk.
  induction Hitems as [|item rest Hwf Hrest IH]; intros bk Hbk.
  - exists [], bk. auto.
  - destruct (merge_step_Ok bk item Hwf Hbk)
      as (k & sc & m' & _ & _ & Hstep & _).
    pose proof (merge_step_wf _ _ Hwf Hbk _ _ Hstep) as Hbk1.
    destruct (IH _ Hbk1) as (rest' & bk' & Hloop & Hbk').
    cbn [merge_loop]. rewrite Hstep. cbn [bind]. rewrite Hloop. cbn [bind].
    eauto.
Qed.

(** The loop over a list that is split in two. *)
Lemma merge_loop_app (pre post : list dict) (bk : by_key_t) :
  merge_loop bk (pre ++ post)
  = (do (pre', bk1) <- merge_loop bk pre;
     do (post', bk2) <- merge_loop bk1 post;
     Ok (pre' ++ post', bk2)).
Proof.
  revert bk. induction pre as [|item rest IH]; intros bk; cbn [merge_loop app bind].
  - destruct (merge_loop bk post) as [[post' bk2]|e]; reflexivity.
  - destruct (merge_step bk item) as [[item' bk1]|e]; cbn [bind]; [|reflexivity].
    rewrite IH.
    destruct (merge_loop bk1 rest) as [[rest' bk2]|e]; cbn [bind]; [|reflexivity].
    destruct (merge_loop bk2 post) as [[post' bk3]|e]; reflexivity.
Qed.

(** A property of the records read so far and the mapping, kept by every
    round, holds when the loop ends. *)
Lemma merge_loop_invariant (P : list dict -> by_key_t -> Prop) :
  (forall seen bk item item' bk',
     P seen bk -> wf_by_key bk -> wf_raw item = true ->
     merge_step bk item = Ok (item', bk') -> P (seen ++ [item]) bk') ->
  forall items seen bk items' bk',
    wf_items items -> wf_by_key bk -> P seen bk ->
    merge_loop bk items = Ok (items', bk') -> P (seen ++ items) bk'.
Proof.
  intros Hstep items. induction items as [|item rest IH];
    intros seen bk items' bk' Hitems Hbk HP Hloop.
  - cbn [merge_loop] in Hloop. injection Hloop as _ <-.
    by rewrite app_nil_r.
  - inversion Hitems as [|? ? Hwf Hrest]; subst.
    cbn [merge_loop] in Hloop. inv_bind Hloop. destruct a as [item1 bk1].
    inv_bind Hloop. destruct a as [rest1 bk2]. injection Hloop as _ <-.
    replace (seen ++ item :: rest) with ((seen ++ [item]) ++ rest)
      by (by rewrite <- app_assoc).
    apply (IH (seen ++ [item]) bk1 rest1 bk2); eauto using merge_step_wf.
Qed.

(** ** Filtering, the quality pass and the sort *)

Lemma filter_res_total {A : Type} (f : A -> res bool) (l : list A) :
  (forall x, List.In x l -> exists b, f x = Ok b) ->
  exists l', filter_res f l = Ok l'.
Proof.
  induction l as [|x tl IH]; intros H; cbn [filter_res].
  - eauto.
  - destruct (H x (or_introl eq_refl)) as [b ->].
    destruct IH as [tl' ->]; [intros y Hy; apply H; by right|].
    cbn [bind]. eauto.
Qed.

Lemma filter_res_In {A : Type} (f : A -> res bool) (l l' : list A) :
  filter_res f l = Ok l' ->
  forall x, List.In x l' <-> List.In x l /\ f x = Ok true.
Proof.
  revert l'. induction l as [|y tl IH]; intros l' H x; cbn [filter_res] in H.
  - injection H as <-. simpl. tauto.
  - inv_bind H. inv_bind H. injection H as <-.
    specialize (IH _ Ha0 x). destruct a; simpl; rewrite IH.
    + split; [intros [<-|[? ?]]; auto | intros [[<-|?] ?]; auto].
    + split; [intros [? ?]; auto | intros [[<-|?] ?]; [congruence | auto]].
Qed.

Lemma map_res_total {A B : Type} (f : A -> res B) (l : list A) :
  (forall x, List.In x l -> exists y, f x = Ok y) ->
  exists l', map_res f l = Ok l'.
Proof.
  induction l as [|x tl IH]; intros H; cbn [map_res].
  - eauto.
  - destruct (H x (or_introl eq_refl)) as [y ->].
    destruct IH as [tl' ->]; [intros z Hz; apply H; by right|].
    cbn [bind]. eauto.
Qed.

Lemma map_res_In {A B : Type} (f : A -> res B) (l : list A) (l' : list B) :
  map_res f l = Ok l' ->
  forall y, List.In y l' <-> exists x, List.In x l /\ f x = Ok y.
Proof.
  revert l'. induction l as [|x tl IH]; intros l' H y; cbn [map_res] in H.
  - injection H as <-. simpl. split; [tauto | intros (? & [] & _)].
  - inv_bind H. inv_bind H. injection H as <-.
    specialize (IH _ Ha0 y). simpl. rewrite IH. split.
    + intros [<-|(z & Hz & Hfz)]; eauto.
    + intros (z & [<-|Hz] & Hfz); [left; congruence | eauto].
Qed.

Lemma map_res_length {A B : Type} (f : A -> res B) (l : list A) (l' : list B) :
  map_res f l = Ok l' -> length l' = length l.
Proof.
  revert l'. induction l as [|x tl IH]; intros l' H; cbn [map_res] in H.
  - by injection H as <-.
  - inv_bind H. inv_bind H. injection H as <-. simpl. f_equal. eauto.
Qed.

Lemma insert_desc_perm (x : Q * dict) (l : list (Q * dict)) :
  Permutation.Permutation (insert_desc x l) (x :: l).
Proof.
  induction l as [|y tl IH]; cbn [insert_desc]; [reflexivity|].
  destruct (Qlt_bool (fst x) (fst y)); [|reflexivity].
  rewrite IH. apply Permutation.perm_swap.
Qed.

Lemma sort_desc_perm (l : list (Q * dict)) :
  Permutation.Permutation (sort_desc l) l.
Proof.
  induction l as [|x tl IH]; cbn [sort_desc fold_right]; [reflexivity|].
  rewrite insert_desc_perm. by constructor.
Qed.

Lemma sort_keys_snd (l : list dict) (keyed : list (Q * dict)) :
  map_res sort_key l = Ok keyed -> map snd keyed = l.
Proof.
  revert keyed. induction l as [|x tl IH]; intros keyed H; cbn [map_res] in H.
  - by injection H as <-.
  - inv_bind H. inv_bind H. injection H as <-.
    unfold sort_key in Ha. inv_bind Ha. injection Ha as <-.
    simpl. f_equal. eauto.
Qed.

(** The sort succeeds on scored listings and only reorders them. *)
Lemma sort_by_score_Ok (l : list dict) :
  (forall m, List.In m l -> val_is_num (get m "match_score") = true) ->
  exists l', sort_by_score l = Ok l' /\ Permutation.Permutation l' l.
Proof.
  intros H. unfold sort_by_score.
  destruct (map_res_total sort_key l) as [keyed Hk].
  { intros m Hm. apply H in Hm. apply get_as_num in Hm.
    destruct Hm as [q Hq]. unfold sort_key.
    rewrite (get_or_get m "match_score" (VNum 0) (VNum q)) by done.
    cbn [num_of bind]. eauto. }
  rewrite Hk. cbn [bind]. eexists. split; [reflexivity|].
  rewrite <- (sort_keys_snd l keyed Hk) at 1.
  apply Permutation.Permutation_map, sort_desc_perm.
Qed.

(** The listing with its verdict attached. *)
Lemma attach_quality_Ok (c m : dict) :
  attach_quality c = Ok m <->
  exists q notes,
    quality_assessment c = Ok (q, notes) /\
    m = <["quality_notes" := VStr notes]> (<["data_quality" := VStr q]> c).
Proof.
  unfold attach_quality. split.
  - intros H. inv_bind H. destruct a as [q notes]. injection H as <-. eauto.
  - intros (q & notes & -> & ->). reflexivity.
Qed.

Lemma attach_quality_get (c m : dict) (f : string) :
  attach_quality c = Ok m ->
  f <> "data_quality" -> f <> "quality_notes" -> get m f = get c f.
Proof.
  intros H H1 H2. apply attach_quality_Ok in H.
  destruct H as (q & notes & _ & ->). by rewrite !get_insert_ne.
Qed.

Lemma wf_merged_fields (m : dict) :
  wf_merged m = true ->
  val_num_or_none (get m "price") = true /\
  val_num_or_none (get m "beds") = true /\
  val_num_or_none (get m "baths") = true /\
  val_str_or_none (get m "property_type") = true /\
  val_is_num (get m "match_score") = true /\
  val_is_str (get m "canonical_key") = true /\
  val_is_list (get m "sources") = true /\
  val_is_list (get m "source_urls") = true /\
  val_is_list (get m "listing_ids") = true.
Proof. unfold wf_merged. rewrite !andb_true_iff. tauto. Qed.

(** ** The whole of [merge_duplicates] *)

(** On typed records the call succeeds; its result holds, in some order,
    the entries of the final mapping that pass the hard filters, each with
    its verdict attached. *)
Lemma merge_duplicates_Ok (items : list dict) :
  wf_items items ->
  exists items' bk out,
    merge_loop [] items = Ok (items', bk) /\ wf_by_key bk /\
    merge_duplicates items = Ok (items', out) /\
    forall m, List.In m out <->
      exists c, List.In c (map snd bk) /\
                passes_hard_filters c = Ok true /\ attach_quality c = Ok m.
Proof.
  intros Hitems.
  destruct (merge_loop_total items [] Hitems wf_by_key_nil)
    as (items' & bk & Hloop & Hbk).
  assert (Hall : forall c, List.In c (map snd bk) -> wf_merged c = true).
  { intros c Hc. destruct Hbk as [Hnd Hbk].
    destruct (bk_values_lookup c bk Hnd Hc) as [k Hk].
    by destruct (Hbk k c Hk). }
  destruct (filter_res_total passes_hard_filters (map snd bk)) as [kept Hkept].
  { intros c Hc. apply passes_hard_filters_total. auto. }
  pose proof (filter_res_In _ _ _ Hkept) as Hkept_in.
  destruct (map_res_total attach_quality kept) as [judged Hjudged].
  { intros c Hc. apply Hkept_in in Hc. destruct Hc as [Hc _].
    apply Hall, wf_merged_fields in Hc.
    destruct (quality_assessment_total c) as (q & notes & Hq); [tauto|].
    eexists. apply attach_quality_Ok. eauto. }
  pose proof (map_res_In _ _ _ Hjudged) as Hjudged_in.
  destruct (sort_by_score_Ok judged) as (out & Hsort & Hperm).
  { intros m Hm. apply Hjudged_in in Hm. destruct Hm as (c & Hc & Hm).
    rewrite (attach_quality_get c m) by done.
    apply Hkept_in in Hc. destruct Hc as [Hc _].
    apply Hall, wf_merged_fields in Hc. tauto. }
  exists items', bk, out. split; [exact Hloop|]. split; [exact Hbk|]. split.
  - unfold merge_duplicates. rewrite Hloop. cbn [bind].
    rewrite Hkept. cbn [bind]. rewrite Hjudged. cbn [bind].
    rewrite Hsort. reflexivity.
  - intros m. split.
    + intros Hm. apply (Permutation.Permutation_in _ Hperm) in Hm.
      apply Hjudged_in in Hm. destruct Hm as (c & Hc & Hm).
      apply Hkept_in in Hc. destruct Hc as [Hc Hpass]. eauto.
    + intros (c & Hc & Hpass & Hm).
      apply (Permutation.Permutation_in _ (Permutation.Permutation_sym Hperm)).
      apply Hjudged_in. exists c. split; [|exact Hm].
      apply Hkept_in. auto.
Qed.

(** Reading off a run on given records: the pattern of the result is
    matched once, so that the properties are checked by computation. *)
Lemma returns_one (items : list dict) (P : list dict -> dict -> Prop) :
  match merge_duplicates items with
  | Ok (items', [m]) => P items' m
  | _ => False
  end ->
  exists items' m, merge_duplicates items = Ok (items', [m]) /\ P items' m.
Proof.
  destruct (merge_duplicates items) as [[items' [|m [|m' tl]]]|e];
    try contradiction.
  eauto.
Qed.

Lemma returns_two (items : list dict) (P : list dict -> dict -> dict -> Prop) :
  match merge_duplicates items with
  | Ok (items', [a; b]) => P items' a b
  | _ => False
  end ->
  exists items' a b,
    merge_duplicates items = Ok (items', [a; b]) /\ P items' a b.
Proof.
  destruct (merge_duplicates items) as [[items' [|a [|b [|c tl]]]]|e];
    try contradiction.
  eauto.
Qed.

Lemma leaves_one (items : list dict) (P : dict -> list dict -> Prop) :
  match merge_duplicates items with
  | Ok ([item'], out) => P item' out
  | _ => False
  end ->
  exists item' out,
    merge_duplicates items = Ok ([item'], out) /\ P item' out.
Proof.
  destruct (merge_duplicates items) as [[[|item' [|x tl]] out]|e];
    try contradiction.
  eauto.
Qed.

(** ** What one round leaves in the entry it touches *)

Lemma merge_step_fields (bk : by_key_t) (item : dict) :
  wf_raw item = true -> wf_by_key bk ->
  exists k sc m' src url lid,
    canonical_key item = Ok k /\ score item = Ok sc /\
    item !! "source" = Some (VStr src) /\
    item !! "url" = Some (VStr url) /\
    item !! "listing_id" = Some (VStr lid) /\
    merge_step bk item = Ok (annotated k sc item, bk_set k m' bk) /\
    match bk_lookup k bk with
    | None =>
        m' = <["listing_ids" := VList [lid]]>
               (<["source_urls" := VList [url]]>
                  (<["sources" := VList [src]]> (annotated k sc item)))
    | Some cur =>
        exists stored srcs urls lids,
          get cur "match_score" = VNum stored /\
          get cur "sources" = VList srcs /\
          get cur "source_urls" = VList urls /\
          get cur "listing_ids" = VList lids /\
          (forall f, List.In f NUMERIC_FIELDS ->
             get m' f
             = if is_none (get cur f) then get item f else get cur f) /\
          get m' "sources" = VList (sorted_union srcs src) /\
          get m' "source_urls" = VList (sorted_union urls url) /\
          get m' "listing_ids" = VList (sorted_union lids lid) /\
          (forall f, List.In f REPRESENTATIVE_FIELDS ->
             get m' f
             = if Qlt_bool stored sc then get (annotated k sc item) f
               else get cur f) /\
          get m' "canonical_key" = get cur "canonical_key"
    end.
Proof.
  intros Hwf Hbk.
  destruct (merge_step_Ok bk item Hwf Hbk)
    as (k & sc & m' & Hk & Hsc & Hstep & _ & _ & Hm').
  destruct (wf_raw_fields item Hwf)
    as (_ & _ & [src Hsrc] & [url Hurl] & [lid Hlid] & _).
  exists k, sc, m', src, url, lid. fold (annotated k sc item) in Hstep, Hm'.
  repeat (split; [assumption|]).
  assert (Hsrc' : annotated k sc item !! "source" = Some (VStr src))
    by (unfold annotated; by rewrite annotated_lookup).
  assert (Hurl' : annotated k sc item !! "url" = Some (VStr url))
    by (unfold annotated; by rewrite annotated_lookup).
  assert (Hlid' : annotated k sc item !! "listing_id" = Some (VStr lid))
    by (unfold annotated; by rewrite annotated_lookup).
  destruct (bk_lookup k bk) as [cur|] eqn:Elook.
  - destruct Hbk as [_ Hbk]. destruct (Hbk k cur Elook) as [Hwfc _].
    apply wf_merged_fields in Hwfc.
    destruct Hwfc as (_ & _ & _ & _ & Hcm & _ & Hcs & Hcu & Hcl).
    apply get_as_list in Hcs, Hcu, Hcl. apply get_as_num in Hcm.
    destruct Hcs as [srcs Hcs], Hcu as [urls Hcu], Hcl as [lids Hcl],
             Hcm as [stored Hcm].
    destruct (fold_into_fields sc stored (annotated k sc item) cur
                srcs urls lids src url lid
                Hcs Hcu Hcl Hcm Hsrc' Hurl' Hlid')
      as (cur' & Hfold & HN & HP1 & HP2 & HP3 & HR & HK).
    rewrite Hfold in Hm'. injection Hm' as <-.
    exists stored, srcs, urls, lids.
    repeat (split; [assumption|]). split; [|auto].
    intros f Hf. rewrite (HN f Hf). unfold annotated.
    rewrite annotated_get; [reflexivity | |];
      intros ->; in_cases Hf; discriminate.
  - rewrite (seed_Ok _ src url lid Hsrc' Hurl' Hlid') in Hm'.
    by injection Hm' as <-.
Qed.

(** ** The stored score is the best individual score *)

Lemma Qlt_bool_true (a b : Q) : Qlt_bool a b = true <-> (a < b)%Q.
Proof.
  unfold Qlt_bool. rewrite negb_true_iff.
  destruct (Qle_bool b a) eqn:E.
  - apply Qle_bool_iff in E. split; [discriminate | intros H; exfalso; lra].
  - split; [intros _|reflexivity].
    apply Qnot_le_lt. intros H. apply Qle_bool_iff in H. congruence.
Qed.

Lemma Qlt_bool_false (a b : Q) : Qlt_bool a b = false <-> (b <= a)%Q.
Proof.
  unfold Qlt_bool. rewrite negb_false_iff. apply Qle_bool_iff.
Qed.

Lemma best_score_step (seen : list dict) (bk : by_key_t)
    (item item' : dict) (bk' : by_key_t) :
  best_score_inv seen bk -> wf_by_key bk -> wf_raw item = true ->
  merge_step bk item = Ok (item', bk') ->
  best_score_inv (seen ++ [item]) bk'.
Proof.
  intros [Hseen Hbest] Hbk Hwf Hstep.
  destruct (merge_step_fields bk item Hwf Hbk)
    as (k & sc & m' & src & url & lid & Hk & Hsc & _ & _ & _ & Hstep' & Hm').
  rewrite Hstep' in Hstep. injection Hstep as _ <-. split.
  - intros i Hi. apply in_app_or in Hi. destruct Hi as [Hi|[<-|[]]].
    + destruct (Hseen i Hi) as (ki & Hki & Hin). exists ki. split; [done|].
      destruct (decide (k = ki)) as [<-|Hne].
      * by rewrite bk_lookup_set_eq.
      * by rewrite bk_lookup_set_ne.
    + exists k. split; [done|]. by rewrite bk_lookup_set_eq.
  - intros k0 m0. destruct (decide (k = k0)) as [<-|Hne].
    + rewrite bk_lookup_set_eq. intros [= <-].
      destruct (bk_lookup k bk) as [cur|] eqn:Elook.
      * destruct Hm' as (stored & srcs & urls & lids & Hcm & _ & _ & _
                         & _ & _ & _ & _ & HR & _).
        destruct (Hbest k cur Elook) as (s & Hs & (i0 & Hi0 & Hk0 & Hs0) & Hmax).
        rewrite Hcm in Hs. injection Hs as <-.
        rewrite (HR "match_score") by (simpl; tauto).
        unfold annotated. rewrite get_insert_eq.
        destruct (Qlt_bool stored sc) eqn:Elt.
        -- apply Qlt_bool_true in Elt. exists sc. split; [done|]. split.
           ++ exists item. split; [apply in_or_app; simpl; auto | done].
           ++ intros i si Hi Hki Hsi. apply in_app_or in Hi.
              destruct Hi as [Hi|[<-|[]]].
              ** pose proof (Hmax i si Hi Hki Hsi). lra.
              ** rewrite Hsc in Hsi. injection Hsi as <-. lra.
        -- apply Qlt_bool_false in Elt. exists stored. split; [done|]. split.
           ++ exists i0. split; [apply in_or_app; auto | done].
           ++ intros i si Hi Hki Hsi. apply in_app_or in Hi.
              destruct Hi as [Hi|[<-|[]]].
              ** exact (Hmax i si Hi Hki Hsi).
              ** rewrite Hsc in Hsi. by injection Hsi as <-.
      * subst m'. exists sc. split.
        { rewrite !get_insert_ne by discriminate. apply get_insert_eq. }
        split.
        -- exists item. split; [apply in_or_app; simpl; auto | done].
        -- intros i si Hi Hki Hsi. apply in_app_or in Hi.
           destruct Hi as [Hi|[<-|[]]].
           ++ destruct (Hseen i Hi) as (ki & Hki' & Hin).
              rewrite Hki in Hki'. injection Hki' as <-. congruence.
           ++ rewrite Hsc in Hsi. injection Hsi as <-. lra.
    + rewrite bk_lookup_set_ne by done. intros Hlook.
      destruct (Hbest k0 m0 Hlook) as (s & Hs & (i0 & Hi0 & Hk0 & Hs0) & Hmax).
      exists s. split; [done|]. split.
      * exists i0. split; [apply in_or_app; auto | done].
      * intros i si Hi Hki Hsi. apply in_app_or in Hi.
        destruct Hi as [Hi|[<-|[]]]; [eauto|]. congruence.
Qed.

Lemma best_score_loop (items items' : list dict) (bk : by_key_t) :
  wf_items items -> merge_loop [] items = Ok (items', bk) ->
  best_score_inv items bk.
Proof.
  intros Hitems Hloop.
  apply (merge_loop_invariant best_score_inv best_score_step
           items [] [] items' bk Hitems wf_by_key_nil); [|exact Hloop].
  split; [intros i []|intros k m; discriminate].
Qed.

(** C4, as stated, fails: [half_a] scores 8 and [half_b] scores 9; merged,
    the listing has the price of one and the beds and baths of the other,
    which score 12, and its stored score is 9. *)
Lemma match_score_not_recomputed :
  score half_a = Ok 8%Q /\ score half_b = Ok 9%Q /\
  exists items' m,
    merge_duplicates [half_a; half_b] = Ok (items', [m]) /\
    get m "price" = VNum 7500 /\ get m "beds" = VNum 3 /\
    get m "baths" = VNum 2 /\
    get m "match_score" = VNum 9 /\ score m = Ok 12%Q /\
    ~ (9 == 12)%Q.
Proof.
  split; [vm_compute; reflexivity|]. split; [vm_compute; reflexivity|].
  apply (returns_one _ (fun _ m => _)). vm_compute.
  repeat split. intros H. discriminate H.
Qed.

(** C4 (amended): the match score stored in a merged record is not
    recomputed from the merged fields.  For every record that
    [merge_duplicates] returns, the stored score is the individual score
    of one of the input records with the same canonical key, and no input
    record with that key has a greater individual score. *)
Theorem match_score_is_best_individual (items : list dict) :
  wf_items items ->
  exists items' out,
    merge_duplicates items = Ok (items', out) /\
    forall m, List.In m out ->
      exists k s,
        get m "canonical_key" = VStr k /\ get m "match_score" = VNum s /\
        (exists i, List.In i items /\ canonical_key i = Ok k /\
                   score i = Ok s) /\
        (forall i si, List.In i items -> canonical_key i = Ok k ->
                      score i = Ok si -> (si <= s)%Q).
Proof.
  intros Hitems.
  destruct (merge_duplicates_Ok items Hitems)
    as (items' & bk & out & Hloop & [Hnd Hbk] & Hmerge & Hout).
  exists items', out. split; [exact Hmerge|].
  intros m Hm. apply Hout in Hm. destruct Hm as (c & Hc & _ & Hattach).
  destruct (bk_values_lookup c bk Hnd Hc) as [k Hk].
  destruct (Hbk k c Hk) as [_ Hck].
  destruct (best_score_loop items items' bk Hitems Hloop) as [_ Hbest].
  destruct (Hbest k c Hk) as (s & Hs & Hwit & Hmax).
  exists k, s. rewrite !(attach_quality_get c m) by done. auto.
Qed.

Lemma match_score_is_best_individual_witness :
  exists items' out,
    merge_duplicates [half_a; half_b] = Ok (items', out) /\
    forall m, List.In m out ->
      exists k s,
        get m "canonical_key" = VStr k /\ get m "match_score" = VNum s /\
        (exists i, List.In i [half_a; half_b] /\ canonical_key i = Ok k /\
                   score i = Ok s) /\
        (forall i si, List.In i [half_a; half_b] -> canonical_key i = Ok k ->
                      score i = Ok si -> (si <= s)%Q).
Proof.
  apply (match_score_is_best_individual [half_a; half_b]).
  repeat constructor; vm_compute; reflexivity.
Defined.

(** ** Every merged listing has a canonical key *)

Lemma append_if_In (c : bool) (r x : string) (l : list string) :
  List.In x (append_if c r l) -> x = r \/ List.In x l.
Proof.
  unfold append_if. destruct c; [|auto].
  intros H. apply in_app_or in H. destruct H as [H|[H|[]]]; auto.
Qed.

(** The reason for a missing key is given only when the key is falsy. *)
Lemma quality_reasons_key (m : dict) (reasons : list string) :
  truthy (get m "canonical_key") = true ->
  quality_reasons m = Ok reasons ->
  ~ List.In "missing canonical key" reasons.
Proof.
  intros Hck H. unfold quality_reasons in H. rewrite Hck in H.
  inv_bind H. injection H as <-. cbn [negb append_if].
  intros Hin.
  repeat (apply append_if_In in Hin; destruct Hin as [Hin|Hin];
          [discriminate Hin|]).
  destruct Hin.
Qed.

(** C10: [canonical_key] returns, for every record whose identifying
    fields are strings, empty, [None] or absent, a key that begins with
    exactly one of ["addr:"], ["namecity:"] and ["url:"]; so every record
    that [merge_duplicates] returns has a non-empty canonical key of that
    shape, and the list of reasons the quality gate built for it does not
    hold "missing canonical key". *)
Theorem canonical_key_total_prefixed :
  (forall item, wf_key_fields item = true ->
     exists k, canonical_key item = Ok k /\ one_prefix k /\ k <> "") /\
  (forall items, wf_items items ->
     exists items' out,
       merge_duplicates items = Ok (items', out) /\
       forall m, List.In m out ->
         exists k c reasons,
           get m "canonical_key" = VStr k /\ one_prefix k /\ k <> "" /\
           attach_quality c = Ok m /\
           quality_reasons c = Ok reasons /\
           ~ List.In "missing canonical key" reasons).
Proof.
  assert (Hshape : forall item, wf_key_fields item = true ->
            exists k, canonical_key item = Ok k /\ one_prefix k /\
                      truthy (VStr k) = true).
  { intros item Hwf. destruct (canonical_key_shape item Hwf) as (k & Hk & Hs).
    exists k. split; [exact Hk|]. by apply key_shape_nonempty. }
  assert (Hne : forall k, truthy (VStr k) = true -> k <> "").
  { intros k Ht ->. discriminate Ht. }
  split.
  - intros item Hwf. destruct (Hshape item Hwf) as (k & Hk & Hp & Ht).
    eauto.
  - intros items Hitems.
    destruct (merge_duplicates_Ok items Hitems)
      as (items' & bk & out & Hloop & [Hnd Hbk] & Hmerge & Hout).
    exists items', out. split; [exact Hmerge|].
    intros m Hm. apply Hout in Hm. destruct Hm as (c & Hc & _ & Hattach).
    destruct (bk_values_lookup c bk Hnd Hc) as [k Hk].
    destruct (Hbk k c Hk) as [_ Hck].
    destruct (best_score_loop items items' bk Hitems Hloop) as [_ Hbest].
    destruct (Hbest k c Hk) as (s & _ & (i & Hi & Hki & _) & _).
    assert (Hwfi : wf_key_fields i = true).
    { unfold wf_items in Hitems. rewrite List.Forall_forall in Hitems.
      apply Hitems, wf_raw_fields in Hi. tauto. }
    destruct (Hshape i Hwfi) as (k' & Hk' & Hp & Ht).
    rewrite Hki in Hk'. injection Hk' as <-.
    pose proof Hattach as Hq. apply attach_quality_Ok in Hq.
    destruct Hq as (q & notes & Hq & _).
    unfold quality_assessment in Hq. inv_bind Hq.
    exists k, c, a. rewrite (attach_quality_get c m) by done.
    repeat split; auto.
    apply (quality_reasons_key c); [by rewrite Hck | exact Ha].
Qed.

Lemma canonical_key_total_prefixed_witness :
  (exists k, canonical_key (∅ : dict) = Ok k /\ one_prefix k /\ k <> "") /\
  exists items' out,
    merge_duplicates [half_a; half_b] = Ok (items', out) /\
    forall m, List.In m out ->
      exists k c reasons,
        get m "canonical_key" = VStr k /\ one_prefix k /\ k <> "" /\
        attach_quality c = Ok m /\
        quality_reasons c = Ok reasons /\
        ~ List.In "missing canonical key" reasons.
Proof.
  split.
  - apply (proj1 canonical_key_total_prefixed ∅). vm_compute. reflexivity.
  - apply (proj2 canonical_key_total_prefixed [half_a; half_b]).
    repeat constructor; vm_compute; reflexivity.
Defined.

(** ** What the call does to its input records *)

(** C9, as stated, fails: the call writes the canonical key and the match
    score into the raw record; [main_redfin] has neither key before the
    call and both after it. *)
Lemma raw_record_is_written :
  main_redfin !! "canonical_key" = None /\
  main_redfin !! "match_score" = None /\
  exists item' out,
    merge_duplicates [main_redfin] = Ok ([item'], out) /\
    item' !! "canonical_key" = Some (VStr "addr:123 main st") /\
    item' !! "match_score" = Some (VNum 12).
Proof.
  split; [vm_compute; reflexivity|]. split; [vm_compute; reflexivity|].
  apply (leaves_one _ (fun item' _ => _)). vm_compute.
  split; reflexivity.
Qed.

Lemma merge_loop_records (items : list dict) (bk : by_key_t)
    (items' : list dict) (bk' : by_key_t) :
  wf_items items -> wf_by_key bk ->
  merge_loop bk items = Ok (items', bk') ->
  List.Forall2
    (fun item item' =>
       exists k sc, canonical_key item = Ok k /\ score item = Ok sc /\
                    item' = annotated k sc item)
    items items'.
Proof.
  intros Hitems. revert bk items' bk'.
  induction Hitems as [|item rest Hwf Hrest IH];
    intros bk items' bk' Hbk Hloop; cbn [merge_loop] in Hloop.
  - injection Hloop as <- _. constructor.
  - destruct (merge_step_Ok bk item Hwf Hbk)
      as (k & sc & m' & Hk & Hsc & Hstep & _).
    pose proof (merge_step_wf _ _ Hwf Hbk _ _ Hstep) as Hbk1.
    rewrite Hstep in Hloop. cbn [bind] in Hloop. inv_bind Hloop.
    destruct a as [rest' bk2]. injection Hloop as <- _.
    constructor; [|eapply IH; eauto].
    exists k, sc. auto.
Qed.

(** C9 (amended): [merge_duplicates] writes two keys into each input
    record, ["canonical_key"] with the record's canonical key and
    ["match_score"] with its individual score, and leaves every other key
    of every input record as it was: none is added, removed or
    modified. *)
Theorem raw_records_only_annotated (items : list dict) :
  wf_items items ->
  exists items' out,
    merge_duplicates items = Ok (items', out) /\
    List.Forall2
      (fun item item' =>
         (exists k sc,
            canonical_key item = Ok k /\ score item = Ok sc /\
            item' !! "canonical_key" = Some (VStr k) /\
            item' !! "match_score" = Some (VNum sc)) /\
         forall f, f <> "canonical_key" -> f <> "match_score" ->
                   item' !! f = item !! f)
      items items'.
Proof.
  intros Hitems.
  destruct (merge_duplicates_Ok items Hitems)
    as (items' & bk & out & Hloop & _ & Hmerge & _).
  exists items', out. split; [exact Hmerge|].
  pose proof (merge_loop_records items [] items' bk Hitems wf_by_key_nil Hloop)
    as Hrec.
  eapply List.Forall2_impl; [|exact Hrec].
  intros item item' (k & sc & Hk & Hsc & ->). split.
  - exists k, sc. unfold annotated.
    rewrite lookup_insert_eq, lookup_insert_ne, lookup_insert_eq by done.
    auto.
  - intros f H1 H2. by apply annotated_lookup.
Qed.

Lemma raw_records_only_annotated_witness :
  exists items' out,
    merge_duplicates [main_redfin; main_realtor] = Ok (items', out) /\
    List.Forall2
      (fun item item' =>
         (exists k sc,
            canonical_key item = Ok k /\ score item = Ok sc /\
            item' !! "canonical_key" = Some (VStr k) /\
            item' !! "match_score" = Some (VNum sc)) /\
         forall f, f <> "canonical_key" -> f <> "match_score" ->
                   item' !! f = item !! f)
      [main_redfin; main_realtor] items'.
Proof.
  apply (raw_records_only_annotated [main_redfin; main_realtor]).
  repeat constructor; vm_compute; reflexivity.
Defined.

(** ** Provenance sets only grow *)

Lemma insert_sorted_In (x y : string) (l : list string) :
  List.In x (insert_sorted y l) <-> x = y \/ List.In x l.
Proof.
  induction l as [|z tl IH]; cbn [insert_sorted].
  - simpl. intuition.
  - destruct (String.compare y z) eqn:E.
    + apply String.compare_eq_iff in E. subst z. simpl. intuition.
    + simpl. intuition.
    + simpl. rewrite IH. intuition.
Qed.

Lemma sorted_set_In (x : string) (l : list string) :
  List.In x (sorted_set l) <-> List.In x l.
Proof.
  unfold sorted_set. induction l as [|y tl IH]; cbn [fold_right].
  - reflexivity.
  - rewrite insert_sorted_In, IH. simpl. intuition.
Qed.

Lemma sorted_union_In (x y : string) (l : list string) :
  List.In x (sorted_union l y) <-> x = y \/ List.In x l.
Proof. unfold sorted_union. by rewrite insert_sorted_In, sorted_set_In. Qed.

Lemma provenance_within_refl (cur : dict) : provenance_within cur cur.
Proof. intros fld _ old Hold. eauto. Qed.

Lemma provenance_grows_refl (bk : by_key_t) : provenance_grows bk bk.
Proof. intros k cur Hk. eauto using provenance_within_refl. Qed.

Lemma provenance_grows_trans (bk1 bk2 bk3 : by_key_t) :
  provenance_grows bk1 bk2 -> provenance_grows bk2 bk3 ->
  provenance_grows bk1 bk3.
Proof.
  intros H12 H23 k cur Hk.
  destruct (H12 k cur Hk) as (cur2 & Hk2 & Hw12).
  destruct (H23 k cur2 Hk2) as (cur3 & Hk3 & Hw23).
  exists cur3. split; [exact Hk3|].
  intros fld Hfld old Hold.
  destruct (Hw12 fld Hfld old Hold) as (mid & Hmid & Hsub1).
  destruct (Hw23 fld Hfld mid Hmid) as (new & Hnew & Hsub2).
  eauto.
Qed.

Lemma provenance_step (bk : by_key_t) (item item' : dict) (bk' : by_key_t) :
  wf_raw item = true -> wf_by_key bk ->
  merge_step bk item = Ok (item', bk') -> provenance_grows bk bk'.
Proof.
  intros Hwf Hbk Hstep.
  destruct (merge_step_fields bk item Hwf Hbk)
    as (k & sc & m' & src & url & lid & _ & _ & _ & _ & _ & Hstep' & Hm').
  rewrite Hstep' in Hstep. injection Hstep as _ <-.
  intros k0 cur Hk0. destruct (decide (k = k0)) as [<-|Hne].
  - rewrite bk_lookup_set_eq. exists m'. split; [reflexivity|].
    rewrite Hk0 in Hm'.
    destruct Hm' as (stored & srcs & urls & lids & _ & Hs & Hu & Hl
                     & _ & Hs' & Hu' & Hl' & _ & _).
    intros fld Hfld old Hold. in_cases Hfld.
    + rewrite Hs in Hold. injection Hold as <-. eexists. split; [exact Hs'|].
      intros x Hx. apply sorted_union_In. auto.
    + rewrite Hu in Hold. injection Hold as <-. eexists. split; [exact Hu'|].
      intros x Hx. apply sorted_union_In. auto.
    + rewrite Hl in Hold. injection Hold as <-. eexists. split; [exact Hl'|].
      intros x Hx. apply sorted_union_In. auto.
  - rewrite bk_lookup_set_ne by done.
    exists cur. split; [exact Hk0 | apply provenance_within_refl].
Qed.

Lemma provenance_loop (items : list dict) (bk : by_key_t)
    (items' : list dict) (bk' : by_key_t) :
  wf_items items -> wf_by_key bk ->
  merge_loop bk items = Ok (items', bk') -> provenance_grows bk bk'.
Proof.
  intros Hitems. revert bk items' bk'.
  induction Hitems as [|item rest Hwf Hrest IH];
    intros bk items' bk' Hbk Hloop; cbn [merge_loop] in Hloop.
  - injection Hloop as _ <-. apply provenance_grows_refl.
  - inv_bind Hloop. destruct a as [item1 bk1]. inv_bind Hloop.
    destruct a as [rest1 bk2]. injection Hloop as _ <-.
    apply provenance_grows_trans with (bk2 := bk1).
    + eapply provenance_step; eauto.
    + eapply IH; eauto using merge_step_wf.
Qed.

(** C6: during one merge pass the provenance sets stored for a canonical
    key only grow.  Whatever records are folded after a point of the pass,
    every key stored at that point is still stored at the end, and every
    element of its sources, source URLs and listing ids is still there. *)
Theorem provenance_monotone (pre post : list dict) :
  wf_items (pre ++ post) ->
  exists pre' bk1 all' bk2,
    merge_loop [] pre = Ok (pre', bk1) /\
    merge_loop [] (pre ++ post) = Ok (all', bk2) /\
    provenance_grows bk1 bk2.
Proof.
  intros Hall. unfold wf_items in Hall. apply List.Forall_app in Hall.
  destruct Hall as [Hpre Hpost].
  destruct (merge_loop_total pre [] Hpre wf_by_key_nil)
    as (pre' & bk1 & Hloop1 & Hbk1).
  destruct (merge_loop_total post bk1 Hpost Hbk1)
    as (post' & bk2 & Hloop2 & Hbk2).
  exists pre', bk1, (pre' ++ post'), bk2. split; [exact Hloop1|]. split.
  - rewrite merge_loop_app, Hloop1. cbn [bind]. rewrite Hloop2. reflexivity.
  - by apply (provenance_loop post bk1 post' bk2).
Qed.

Lemma provenance_monotone_witness :
  exists pre' bk1 all' bk2,
    merge_loop [] [main_redfin] = Ok (pre', bk1) /\
    merge_loop [] ([main_redfin] ++ [main_realtor; half_a]) = Ok (all', bk2) /\
    provenance_grows bk1 bk2.
Proof.
  apply (provenance_monotone [main_redfin] [main_realtor; half_a]).
  repeat constructor; vm_compute; reflexivity.
Defined.

(** ** The hard filters at their boundary *)

Lemma attach_quality_passes (c m : dict) :
  attach_quality c = Ok m ->
  passes_hard_filters m = passes_hard_filters c.
Proof.
  intros H. apply passes_hard_filters_reads;
    by apply (attach_quality_get c m).
Qed.

(** C7: a record whose property type is "apartment" fails the hard
    filters whatever its other fields; with an allowed type, a price of
    9500 fails and a price of 9000 passes when beds and baths are null or
    at least the minimums; on typed fields the filter is exactly
    [eligible], in which a null price, beds or baths passes.  The result
    of [merge_duplicates] holds exactly the entries of the final mapping
    that pass, so it holds no apartment and no price above 9000, and it
    keeps an eligible entry priced 9000. *)
Theorem hard_filter_boundary :
  (forall m, get m "property_type" = VStr "apartment" ->
     passes_hard_filters m = Ok false) /\
  (forall m pt, ptype_of m = Ok pt -> get m "price" = VNum 9500 ->
     passes_hard_filters m = Ok false) /\
  (forall m pt, ptype_of m = Ok pt -> allowed_type pt = true ->
     get m "price" = VNum 9000 ->
     null_or (fun b => Qle_bool MIN_BEDS b) (get m "beds") = true ->
     null_or (fun b => Qle_bool MIN_BATHS b) (get m "baths") = true ->
     passes_hard_filters m = Ok true) /\
  (forall m pt, ptype_of m = Ok pt ->
     val_num_or_none (get m "price") = true ->
     val_num_or_none (get m "beds") = true ->
     val_num_or_none (get m "baths") = true ->
     passes_hard_filters m = Ok (eligible pt m)) /\
  (forall m pt, ptype_of m = Ok pt -> allowed_type pt = true ->
     get m "price" = VNone -> get m "beds" = VNone ->
     get m "baths" = VNone ->
     passes_hard_filters m = Ok true) /\
  (forall items, wf_items items ->
     exists items' bk out,
       merge_loop [] items = Ok (items', bk) /\
       merge_duplicates items = Ok (items', out) /\
       (forall m, List.In m out ->
          (exists pt, ptype_of m = Ok pt /\ eligible pt m = true) /\
          get m "property_type" <> VStr "apartment" /\
          get m "price" <> VNum 9500) /\
       (forall c, List.In c (map snd bk) ->
          passes_hard_filters c = Ok true ->
          exists m, List.In m out /\ attach_quality c = Ok m)).
Proof.
  assert (Hflat : forall m, get m "property_type" = VStr "apartment" ->
            passes_hard_filters m = Ok false).
  { intros m Ht. apply (passes_hard_filters_type m "apartment");
      [|reflexivity].
    unfold ptype_of. rewrite Ht. reflexivity. }
  assert (Hdear : forall m pt, ptype_of m = Ok pt ->
            get m "price" = VNum 9500 -> passes_hard_filters m = Ok false).
  { intros m pt Hpt Hp.
    apply (passes_hard_filters_price m pt 9500 Hpt Hp). reflexivity. }
  assert (Hnum : forall v ok, null_or ok v = true ->
            val_num_or_none v = true).
  { intros [ | s | q | l] ok; simpl; congruence. }
  split; [exact Hflat|]. split; [exact Hdear|]. split; [|split; [|split]].
  - intros m pt Hpt Hal Hp Hb Ha.
    rewrite (passes_hard_filters_eligible m pt Hpt);
      [| by rewrite Hp | by apply Hnum in Hb | by apply Hnum in Ha].
    unfold eligible. rewrite Hal, Hp, Hb, Ha. reflexivity.
  - exact passes_hard_filters_eligible.
  - intros m pt Hpt Hal Hp Hb Ha.
    rewrite (passes_hard_filters_eligible m pt Hpt);
      [| by rewrite Hp | by rewrite Hb | by rewrite Ha].
    unfold eligible. rewrite Hal, Hp, Hb, Ha. reflexivity.
  - intros items Hitems.
    destruct (merge_duplicates_Ok items Hitems)
      as (items' & bk & out & Hloop & Hbk & Hmerge & Hout).
    exists items', bk, out. split; [exact Hloop|]. split; [exact Hmerge|].
    split.
    + intros m Hm. apply Hout in Hm. destruct Hm as (c & Hc & Hpass & Hm).
      assert (Hpm : passes_hard_filters m = Ok true)
        by (by rewrite (attach_quality_passes c m Hm)).
      split; [|split].
      * destruct Hbk as [Hnd Hbk].
        destruct (bk_values_lookup c bk Hnd Hc) as [k Hk].
        destruct (Hbk k c Hk) as [Hwfc _]. apply wf_merged_fields in Hwfc.
        destruct Hwfc as (Hcp & Hcb & Hca & Hct & _).
        assert (Hmt : val_str_or_none (get m "property_type") = true)
          by (by rewrite (attach_quality_get c m)).
        destruct (str_or_none_ptype m Hmt) as [pt Hpt].
        exists pt. split; [exact Hpt|].
        rewrite (passes_hard_filters_eligible m pt Hpt) in Hpm;
          [congruence | | |]; by rewrite (attach_quality_get c m).
      * intros Ht. rewrite (Hflat m Ht) in Hpm. discriminate Hpm.
      * intros Hp. unfold passes_hard_filters in Hpm. inv_bind Hpm.
        assert (Hd := Hdear m a Ha Hp).
        unfold passes_hard_filters in Hd. rewrite Ha in Hd. cbn [bind] in Hd.
        rewrite Hd in Hpm. discriminate Hpm.
    + intros c Hc Hpass.
      destruct Hbk as [Hnd Hbk].
      destruct (bk_values_lookup c bk Hnd Hc) as [k Hk].
      destruct (Hbk k c Hk) as [Hwfc _]. apply wf_merged_fields in Hwfc.
      destruct (quality_assessment_total c) as (q & notes & Hq); [tauto|].
      eexists. split; [|apply attach_quality_Ok; eauto].
      apply Hout. exists c. split; [exact Hc|]. split; [exact Hpass|].
      apply attach_quality_Ok. eauto.
Qed.

Lemma hard_filter_boundary_witness :
  passes_hard_filters flat_listing = Ok false /\
  passes_hard_filters dear_listing = Ok false /\
  passes_hard_filters ceiling_listing = Ok true /\
  passes_hard_filters blank_listing = Ok true /\
  exists items' bk out,
    merge_loop [] [flat_listing; dear_listing; ceiling_listing; blank_listing]
    = Ok (items', bk) /\
    merge_duplicates [flat_listing; dear_listing; ceiling_listing; blank_listing]
    = Ok (items', out) /\
    (forall m, List.In m out ->
       (exists pt, ptype_of m = Ok pt /\ eligible pt m = true) /\
       get m "property_type" <> VStr "apartment" /\
       get m "price" <> VNum 9500) /\
    (forall c, List.In c (map snd bk) ->
       passes_hard_filters c = Ok true ->
       exists m, List.In m out /\ attach_quality c = Ok m).
Proof.
  destruct hard_filter_boundary as (Hflat & Hdear & Hceil & _ & Hnull & Hout).
  split; [apply Hflat; vm_compute; reflexivity|].
  split; [apply (Hdear dear_listing "house"); vm_compute; reflexivity|].
  split; [apply (Hceil ceiling_listing "house"); vm_compute; reflexivity|].
  split; [apply (Hnull blank_listing "house"); vm_compute; reflexivity|].
  apply Hout. repeat constructor; vm_compute; reflexivity.
Defined.

(** The four boundary listings in one run: only the house at the ceiling
    and the house without numbers come back. *)
Example hard_filter_run :
  exists items' a b,
    merge_duplicates [flat_listing; dear_listing; ceiling_listing; blank_listing]
    = Ok (items', [a; b]) /\
    get a "canonical_key" = VStr "addr:3 park ave" /\
    get a "price" = VNum 9000 /\
    get b "canonical_key" = VStr "addr:4 park ave" /\
    get b "price" = VNone.
Proof.
  apply (returns_two _ (fun _ a b => _)). vm_compute.
  repeat split.
Qed.

(** ** Two records under one key *)

(** The mapping after two records with the same key: one entry, whose
    numeric fields are the first non-null in arrival order, and whose
    representative fields are those of the second record when it scores
    strictly higher and of the first otherwise. *)
Lemma merge_pair (a b : dict) (k : string) :
  wf_raw a = true -> wf_raw b = true ->
  canonical_key a = Ok k -> canonical_key b = Ok k ->
  exists sa sb m,
    score a = Ok sa /\ score b = Ok sb /\
    merge_loop [] [a; b]
    = Ok ([annotated k sa a; annotated k sb b], [(k, m)]) /\
    wf_by_key [(k, m)] /\
    (forall f, List.In f NUMERIC_FIELDS ->
       get m f = if is_none (get a f) then get b f else get a f) /\
    (forall f, List.In f REPRESENTATIVE_FIELDS ->
       get m f = if Qlt_bool sa sb then get (annotated k sb b) f
                 else get (annotated k sa a) f).
Proof.
  intros Hwa Hwb Hka Hkb.
  destruct (merge_step_fields [] a Hwa wf_by_key_nil)
    as (k1 & sa & m1 & src & url & lid & Hk1 & Hsa & _ & _ & _ & Hstep1 & Hm1).
  rewrite Hka in Hk1. injection Hk1 as <-.
  cbn [bk_lookup bk_set] in Hstep1, Hm1.
  pose proof (merge_step_wf _ _ Hwa wf_by_key_nil _ _ Hstep1) as Hbk1.
  destruct (merge_step_fields [(k, m1)] b Hwb Hbk1)
    as (k2 & sb & m2 & src2 & url2 & lid2
        & Hk2 & Hsb & _ & _ & _ & Hstep2 & Hm2).
  rewrite Hkb in Hk2. injection Hk2 as <-.
  pose proof (merge_step_wf _ _ Hwb Hbk1 _ _ Hstep2) as Hbk2.
  cbn [bk_lookup bk_set] in Hstep2, Hm2, Hbk2.
  rewrite String.eqb_refl in Hstep2, Hm2, Hbk2.
  destruct Hm2 as (stored & srcs & urls & lids & Hst & _ & _ & _
                   & HN & _ & _ & _ & HR & _).
  assert (Hm1get : forall f, f <> "sources" -> f <> "source_urls" ->
                     f <> "listing_ids" ->
                     get m1 f = get (annotated k sa a) f).
  { intros f H1 H2 H3. subst m1. by rewrite !get_insert_ne. }
  assert (Hstored : stored = sa).
  { rewrite Hm1get in Hst by discriminate. unfold annotated in Hst.
    rewrite get_insert_eq in Hst. by injection Hst. }
  subst stored.
  exists sa, sb, m2. split; [exact Hsa|]. split; [exact Hsb|]. split.
  { cbn [merge_loop]. rewrite Hstep1. cbn [bind]. rewrite Hstep2.
    reflexivity. }
  split; [exact Hbk2|]. split.
  - intros f Hf. rewrite (HN f Hf).
    assert (Hf' : get m1 f = get a f).
    { rewrite Hm1get by (intros ->; in_cases Hf; discriminate).
      apply annotated_get; intros ->; in_cases Hf; discriminate. }
    by rewrite Hf'.
  - intros f Hf. rewrite (HR f Hf).
    rewrite Hm1get by (intros ->; in_cases Hf; discriminate).
    reflexivity.
Qed.

(** What [merge_duplicates] returns when the mapping ends with one
    entry. *)
Lemma merge_duplicates_single (items items' : list dict) (k : string)
    (c : dict) :
  wf_items items -> merge_loop [] items = Ok (items', [(k, c)]) ->
  exists out,
    merge_duplicates items = Ok (items', out) /\
    (forall m, List.In m out -> attach_quality c = Ok m) /\
    (passes_hard_filters c = Ok true ->
     exists m, out = [m] /\ attach_quality c = Ok m).
Proof.
  intros Hitems Hloop.
  destruct (merge_duplicates_Ok items Hitems)
    as (items1 & bk & out & Hloop' & Hbk & Hmerge & Hout).
  rewrite Hloop in Hloop'. injection Hloop' as <- <-.
  exists out. split; [exact Hmerge|]. split.
  - intros m Hm. apply Hout in Hm. destruct Hm as (c' & [<-|[]] & _ & Hm).
    exact Hm.
  - intros Hpass. unfold merge_duplicates in Hmerge. rewrite Hloop in Hmerge.
    cbn [bind map snd filter_res] in Hmerge. rewrite Hpass in Hmerge.
    cbn [bind map_res] in Hmerge.
    destruct (attach_quality c) as [m|e] eqn:Hatt;
      cbn [bind] in Hmerge; [|discriminate Hmerge].
    unfold sort_by_score in Hmerge. cbn [map_res] in Hmerge.
    unfold sort_key in Hmerge.
    destruct (num_of (get_or m "match_score" (VNum 0))) as [q|e];
      cbn [bind] in Hmerge; [|discriminate Hmerge].
    cbn [sort_desc fold_right insert_desc map snd] in Hmerge.
    injection Hmerge as <-. eauto.
Qed.

(** ** First non-null wins *)

(** C3: folding a record into an existing entry keeps each of price, beds
    and baths that the entry has and fills a null one from the record.
    So for two records with one canonical key, A without a price and B
    priced 2500, the merged entry is priced 2500 whether A or B comes
    first, and so is every record [merge_duplicates] returns for them. *)
Theorem first_non_null_wins :
  (forall bk item k cur,
     wf_raw item = true -> wf_by_key bk ->
     canonical_key item = Ok k -> bk_lookup k bk = Some cur ->
     exists item' bk' cur',
       merge_step bk item = Ok (item', bk') /\
       bk_lookup k bk' = Some cur' /\
       forall f, List.In f NUMERIC_FIELDS ->
         get cur' f = if is_none (get cur f) then get item f else get cur f) /\
  (forall a b k,
     wf_raw a = true -> wf_raw b = true ->
     canonical_key a = Ok k -> canonical_key b = Ok k ->
     get a "price" = VNone -> get b "price" = VNum 2500 ->
     (exists items' m out,
        merge_loop [] [a; b] = Ok (items', [(k, m)]) /\
        get m "price" = VNum 2500 /\
        merge_duplicates [a; b] = Ok (items', out) /\
        forall m', List.In m' out -> get m' "price" = VNum 2500) /\
     (exists items' m out,
        merge_loop [] [b; a] = Ok (items', [(k, m)]) /\
        get m "price" = VNum 2500 /\
        merge_duplicates [b; a] = Ok (items', out) /\
        forall m', List.In m' out -> get m' "price" = VNum 2500)).
Proof.
  split.
  - intros bk item k cur Hwf Hbk Hk Hcur.
    destruct (merge_step_fields bk item Hwf Hbk)
      as (k1 & sc & m' & src & url & lid
          & Hk1 & _ & _ & _ & _ & Hstep & Hm').
    rewrite Hk in Hk1. injection Hk1 as <-. rewrite Hcur in Hm'.
    destruct Hm' as (stored & srcs & urls & lids & _ & _ & _ & _
                     & HN & _).
    eexists _, _, m'. split; [exact Hstep|].
    split; [apply bk_lookup_set_eq | exact HN].
  - assert (Hpair : forall a b k,
              wf_raw a = true -> wf_raw b = true ->
              canonical_key a = Ok k -> canonical_key b = Ok k ->
              (if is_none (get a "price") then get b "price"
               else get a "price") = VNum 2500 ->
              exists items' m out,
                merge_loop [] [a; b] = Ok (items', [(k, m)]) /\
                get m "price" = VNum 2500 /\
                merge_duplicates [a; b] = Ok (items', out) /\
                forall m', List.In m' out -> get m' "price" = VNum 2500).
    { intros a b k Hwa Hwb Hka Hkb Hprice.
      destruct (merge_pair a b k Hwa Hwb Hka Hkb)
        as (sa & sb & m & _ & _ & Hloop & _ & HN & _).
      assert (Hm : get m "price" = VNum 2500).
      { rewrite (HN "price") by (simpl; tauto). exact Hprice. }
      destruct (merge_duplicates_single [a; b] _ k m
                  ltac:(by repeat constructor) Hloop)
        as (out & Hout & Hin & _).
      eexists _, m, out. split; [exact Hloop|]. split; [exact Hm|].
      split; [exact Hout|].
      intros m' Hm'. rewrite (attach_quality_get m m') by auto. exact Hm. }
    intros a b k Hwa Hwb Hka Hkb Hpa Hpb. split.
    + apply Hpair; auto. by rewrite Hpa.
    + apply Hpair; auto. by rewrite Hpb.
Qed.

Lemma first_non_null_wins_witness :
  (exists items' m out,
     merge_loop [] [half_a; cheap_b]
     = Ok (items', [("addr:9 elm rd", m)]) /\
     get m "price" = VNum 2500 /\
     merge_duplicates [half_a; cheap_b] = Ok (items', out) /\
     forall m', List.In m' out -> get m' "price" = VNum 2500) /\
  (exists items' m out,
     merge_loop [] [cheap_b; half_a]
     = Ok (items', [("addr:9 elm rd", m)]) /\
     get m "price" = VNum 2500 /\
     merge_duplicates [cheap_b; half_a] = Ok (items', out) /\
     forall m', List.In m' out -> get m' "price" = VNum 2500).
Proof.
  apply (proj2 first_non_null_wins half_a cheap_b "addr:9 elm rd");
    vm_compute; reflexivity.
Defined.

(** The same pair, run: one record comes back in either order, priced
    2500, with the beds and baths of the record that has them. *)
Example first_non_null_run :
  (exists items' m,
     merge_duplicates [half_a; cheap_b] = Ok (items', [m]) /\
     get m "price" = VNum 2500 /\ get m "beds" = VNum 3 /\
     get m "baths" = VNum 2) /\
  (exists items' m,
     merge_duplicates [cheap_b; half_a] = Ok (items', [m]) /\
     get m "price" = VNum 2500 /\ get m "beds" = VNum 3 /\
     get m "baths" = VNum 2).
Proof.
  split; apply (returns_one _ (fun _ m => _)); vm_compute; repeat split.
Qed.

(** ** The representative record *)

(** C5: when the individual score of an incoming record strictly exceeds
    the score stored in the entry of its key, the fields property_name,
    city, property_type, dog_friendly, parking, nature_score,
    commute_score and match_score of the entry become those of the
    incoming record (its match_score being its individual score);
    otherwise they stay.  So for A scoring 3 and B scoring 8 under one
    key, A first, the merged property type is B's. *)
Theorem representative_override :
  (forall bk item k cur sc stored,
     wf_raw item = true -> wf_by_key bk ->
     canonical_key item = Ok k -> score item = Ok sc ->
     bk_lookup k bk = Some cur -> get cur "match_score" = VNum stored ->
     exists bk' cur',
       merge_step bk item = Ok (annotated k sc item, bk') /\
       bk_lookup k bk' = Some cur' /\
       get (annotated k sc item) "match_score" = VNum sc /\
       ((stored < sc)%Q ->
        forall f, List.In f REPRESENTATIVE_FIELDS ->
          get cur' f = get (annotated k sc item) f) /\
       ((sc <= stored)%Q ->
        forall f, List.In f REPRESENTATIVE_FIELDS ->
          get cur' f = get cur f)) /\
  (forall a b k sa sb,
     wf_raw a = true -> wf_raw b = true ->
     canonical_key a = Ok k -> canonical_key b = Ok k ->
     score a = Ok sa -> score b = Ok sb ->
     (sa == 3)%Q -> (sb == 8)%Q ->
     exists items' m out,
       merge_loop [] [a; b] = Ok (items', [(k, m)]) /\
       get m "property_type" = get b "property_type" /\
       get m "match_score" = VNum sb /\
       merge_duplicates [a; b] = Ok (items', out) /\
       forall m', List.In m' out ->
         get m' "property_type" = get b "property_type").
Proof.
  split.
  - intros bk item k cur sc stored Hwf Hbk Hk Hsc Hcur Hstored.
    destruct (merge_step_fields bk item Hwf Hbk)
      as (k1 & sc1 & m' & src & url & lid
          & Hk1 & Hsc1 & _ & _ & _ & Hstep & Hm').
    rewrite Hk in Hk1. injection Hk1 as <-.
    rewrite Hsc in Hsc1. injection Hsc1 as <-.
    rewrite Hcur in Hm'.
    destruct Hm' as (stored' & srcs & urls & lids & Hst & _ & _ & _
                     & _ & _ & _ & _ & HR & _).
    rewrite Hstored in Hst. injection Hst as <-.
    exists (bk_set k m' bk), m'. split; [exact Hstep|].
    split; [apply bk_lookup_set_eq|].
    split; [apply get_insert_eq|]. split.
    + intros Hlt f Hf. apply Qlt_bool_true in Hlt.
      rewrite (HR f Hf), Hlt. reflexivity.
    + intros Hle f Hf. apply Qlt_bool_false in Hle.
      rewrite (HR f Hf), Hle. reflexivity.
  - intros a b k sa sb Hwa Hwb Hka Hkb Hsa Hsb H3 H8.
    destruct (merge_pair a b k Hwa Hwb Hka Hkb)
      as (sa' & sb' & m & Hsa' & Hsb' & Hloop & _ & _ & HR).
    rewrite Hsa in Hsa'. injection Hsa' as <-.
    rewrite Hsb in Hsb'. injection Hsb' as <-.
    assert (Hlt : Qlt_bool sa sb = true) by (apply Qlt_bool_true; lra).
    rewrite Hlt in HR.
    assert (Hpt : get m "property_type" = get b "property_type").
    { rewrite (HR "property_type") by (simpl; tauto).
      by apply annotated_get. }
    assert (Hms : get m "match_score" = VNum sb).
    { rewrite (HR "match_score") by (simpl; tauto). apply get_insert_eq. }
    destruct (merge_duplicates_single [a; b] _ k m
                ltac:(by repeat constructor) Hloop)
      as (out & Hout & Hin & _).
    eexists _, m, out. split; [exact Hloop|]. split; [exact Hpt|].
    split; [exact Hms|]. split; [exact Hout|].
    intros m' Hm'. rewrite (attach_quality_get m m') by auto. exact Hpt.
Qed.

Lemma representative_override_witness :
  get high_b "property_type" = VStr "townhouse" /\
  exists items' m out,
    merge_loop [] [low_a; high_b] = Ok (items', [("addr:7 fir ln", m)]) /\
    get m "property_type" = get high_b "property_type" /\
    get m "match_score" = VNum 8 /\
    merge_duplicates [low_a; high_b] = Ok (items', out) /\
    forall m', List.In m' out ->
      get m' "property_type" = get high_b "property_type".
Proof.
  split; [vm_compute; reflexivity|].
  apply (proj2 representative_override low_a high_b "addr:7 fir ln" 3%Q 8%Q);
    vm_compute; reflexivity.
Defined.

(** The same pair, run: the townhouse of the record scoring 8 comes
    back, not the house of the record scoring 3. *)
Example representative_run :
  score low_a = Ok 3%Q /\ score high_b = Ok 8%Q /\
  get low_a "property_type" = VStr "house" /\
  exists items' m,
    merge_duplicates [low_a; high_b] = Ok (items', [m]) /\
    get m "property_type" = VStr "townhouse" /\
    get m "match_score" = VNum 8.
Proof.
  split; [vm_compute; reflexivity|]. split; [vm_compute; reflexivity|].
  split; [vm_compute; reflexivity|].
  apply (returns_one _ (fun _ m => _)). vm_compute.
  repeat split.
Qed.

(** ** The end-to-end scenario *)

(** C2, as stated, fails on the baths: [main_redfin] scores 12 and has 2
    baths, [main_realtor] scores 5 and has 2.5; when the realtor record
    arrives first the merged listing has 2.5 baths, those of the record
    with the lower score. *)
Lemma end_to_end_baths_of_lower_score :
  score main_redfin = Ok 12%Q /\ score main_realtor = Ok 5%Q /\
  get main_redfin "baths" = VNum 2 /\
  exists items' m,
    merge_duplicates [main_realtor; main_redfin] = Ok (items', [m]) /\
    get m "baths" = VNum (5 # 2) /\
    ~ (5 # 2 == 2)%Q.
Proof.
  split; [vm_compute; reflexivity|]. split; [vm_compute; reflexivity|].
  split; [vm_compute; reflexivity|].
  apply (returns_one _ (fun _ m => _)). vm_compute.
  split; [reflexivity|]. intros H. discriminate H.
Qed.

Lemma quality_gate_completeness_witness :
  quality_assessment complete_listing = Ok ("pass", "ready") /\
  quality_assessment (delete "price" complete_listing)
  = Ok ("fail", "missing price") /\
  quality_assessment (delete "property_type" complete_listing)
  = Ok ("fail", "property type not allowed: unknown").
Proof.
  destruct (quality_gate_completeness complete_listing "townhouse")
    as ((_ & Hpass) & Hprice & _ & _ & _ & Htype & _);
    try (vm_compute; reflexivity).
  split; [exact Hpass|]. split.
  - exact (proj2 (Hprice _ (removed_delete "price" complete_listing))).
  - exact (proj2 (Htype _ (removed_delete "property_type" complete_listing))).
Defined.

(** * Further properties of the code *)

(** ** [normalize_text] reaches a normal form *)

Lemma kept_lower (c : ascii) : is_kept c = true -> lower_char c = c.
Proof.
  destruct c as [[] [] [] [] [] [] [] []]; vm_compute;
    intros H; first [reflexivity | discriminate H].
Qed.

Lemma kept_space (c : ascii) :
  is_kept c = true -> is_space c = true -> c = " "%char.
Proof.
  destruct c as [[] [] [] [] [] [] [] []]; vm_compute;
    intros H1 H2; first [reflexivity | discriminate H1 | discriminate H2].
Qed.

(** After the first substitution only kept characters are left. *)
Lemma sub_runs_kept (b : bool) (s : string) :
  single_spaced false
    (sub_runs is_space false
       (sub_runs (fun c => negb (is_kept c)) b s)) = true.
Proof.
  assert (H : forall s b b',
             single_spaced false
               (sub_runs is_space b'
                  (sub_runs (fun c => negb (is_kept c)) b s)) = true /\
             (b' = true ->
              single_spaced true
                (sub_runs is_space b'
                   (sub_runs (fun c => negb (is_kept c)) b s)) = true)).
  { clear. induction s as [|c tl IH]; intros b b'; cbn [sub_runs].
    - auto.
    - destruct (is_kept c) eqn:Hk; cbn [negb].
      + cbn [sub_runs]. destruct (is_space c) eqn:Hs.
        * pose proof (kept_space c Hk Hs) as ->.
          destruct b'.
          -- split; [|intros _]; apply (IH false true); reflexivity.
          -- cbn [single_spaced]. split; [|discriminate].
             change (is_kept " ") with true. change (is_space " ") with true.
             cbn [andb negb]. apply (IH false true). reflexivity.
        * cbn [single_spaced]. rewrite Hk, Hs, andb_false_r. cbn [andb negb].
          split; [|intros _]; apply (IH false false).
      + destruct b.
        * apply IH.
        * cbn [sub_runs]. change (is_space " ") with true. destruct b'.
          -- split; [|intros _]; apply (IH true true); reflexivity.
          -- cbn [single_spaced]. split; [|discriminate].
             change (is_kept " ") with true. change (is_space " ") with true.
             cbn [andb negb]. apply (IH true true). reflexivity. }
  apply H.
Qed.

Lemma single_spaced_weaken (b : bool) (s : string) :
  single_spaced b s = true -> single_spaced false s = true.
Proof.
  destruct s as [|c tl]; cbn [single_spaced]; [auto|].
  rewrite !andb_true_iff. cbn [andb negb]. tauto.
Qed.

Lemma lstrip_single_spaced (s : string) :
  single_spaced false s = true -> single_spaced true (lstrip s) = true.
Proof.
  induction s as [|c tl IH]; cbn [lstrip single_spaced]; [auto|].
  rewrite !andb_true_iff. intros [[Hk _] Htl].
  destruct (is_space c) eqn:Hs.
  - apply IH. by apply single_spaced_weaken in Htl.
  - cbn [single_spaced]. rewrite Hk, Hs. exact Htl.
Qed.

Lemma rstrip_single_spaced (b : bool) (s : string) :
  single_spaced b s = true -> single_spaced b (rstrip s) = true.
Proof.
  revert b. induction s as [|c tl IH]; intros b; cbn [rstrip single_spaced];
    [auto|].
  rewrite !andb_true_iff. intros [[Hk Hb] Htl].
  specialize (IH _ Htl). destruct (rstrip tl) as [|d r].
  - destruct (is_space c) eqn:Hs; [reflexivity|].
    cbn [single_spaced]. rewrite Hk, Hs, andb_false_r. reflexivity.
  - cbn [single_spaced] in *. rewrite Hk, Hb. exact IH.
Qed.

Lemma rstrip_ends (s : string) : ends_space (rstrip s) = false.
Proof.
  induction s as [|c tl IH]; cbn [rstrip]; [reflexivity|].
  destruct (rstrip tl) as [|d r].
  - destruct (is_space c) eqn:Hs; [reflexivity | exact Hs].
  - exact IH.
Qed.

(** A normal form is left alone by each step of [normalize_text]. *)
Lemma lower_normal (b : bool) (s : string) :
  single_spaced b s = true -> lower s = s.
Proof.
  revert b. induction s as [|c tl IH]; intros b; cbn [lower single_spaced];
    [auto|].
  rewrite !andb_true_iff. intros [[Hk _] Htl].
  by rewrite (kept_lower c Hk), (IH _ Htl).
Qed.

Lemma sub_unkept_normal (b : bool) (s : string) :
  single_spaced b s = true ->
  sub_runs (fun c => negb (is_kept c)) false s = s.
Proof.
  revert b. induction s as [|c tl IH]; intros b;
    cbn [sub_runs single_spaced]; [auto|].
  rewrite !andb_true_iff. intros [[Hk _] Htl].
  rewrite Hk. cbn [negb]. by rewrite (IH _ Htl).
Qed.

Lemma sub_space_normal (b : bool) (s : string) :
  single_spaced b s = true -> sub_runs is_space b s = s.
Proof.
  revert b. induction s as [|c tl IH]; intros b;
    cbn [sub_runs single_spaced]; [auto|].
  rewrite !andb_true_iff. intros [[Hk Hb] Htl].
  destruct (is_space c) eqn:Hs.
  - rewrite andb_true_r in Hb. apply negb_true_iff in Hb. subst b.
    rewrite (kept_space c Hk Hs) in *. by rewrite (IH _ Htl).
  - by rewrite (IH _ Htl).
Qed.

Lemma lstrip_normal (s : string) :
  single_spaced true s = true -> lstrip s = s.
Proof.
  destruct s as [|c tl]; cbn [lstrip single_spaced]; [auto|].
  rewrite !andb_true_iff. cbn [andb]. intros [[_ Hs] _].
  apply negb_true_iff in Hs. by rewrite Hs.
Qed.

Lemma rstrip_normal (s : string) : ends_space s = false -> rstrip s = s.
Proof.
  induction s as [|c tl IH]; cbn [rstrip ends_space]; [auto|].
  destruct tl as [|d r].
  - intros ->. reflexivity.
  - intros H. rewrite (IH H). reflexivity.
Qed.

Lemma norm_str_normalized (s : string) : is_normalized (norm_str s) = true.
Proof.
  unfold is_normalized, norm_str, strip.
  rewrite rstrip_ends, andb_true_r.
  apply rstrip_single_spaced, lstrip_single_spaced, sub_runs_kept.
Qed.

Lemma norm_str_fixed (n : string) : is_normalized n = true -> norm_str n = n.
Proof.
  unfold is_normalized. rewrite andb_true_iff, negb_true_iff.
  intros [Hs He]. unfold norm_str, strip.
  rewrite (lower_normal _ _ Hs), (sub_unkept_normal _ _ Hs).
  rewrite (sub_space_normal false n (single_spaced_weaken _ _ Hs)).
  by rewrite (lstrip_normal n Hs), (rstrip_normal n He).
Qed.

(** X1: [normalize_text] is idempotent on strings: its result consists of
    characters of [[a-z0-9 ]] with no space at either end and no two
    spaces in a row, and normalizing such a string again returns it
    unchanged. *)
Theorem normalize_text_idempotent (s : string) :
  exists n,
    normalize_text (VStr s) = Ok n /\
    is_normalized n = true /\
    normalize_text (VStr n) = Ok n.
Proof.
  exists (norm_str s). split; [apply normalize_text_str|].
  split; [apply norm_str_normalized|].
  rewrite normalize_text_str. f_equal.
  apply norm_str_fixed, norm_str_normalized.
Qed.

(** ** The shape of the returned list *)

(** The three passes after the loop, one by one. *)
Lemma merge_duplicates_passes (items : list dict) :
  wf_items items ->
  exists items' bk kept judged out,
    merge_loop [] items = Ok (items', bk) /\ wf_by_key bk /\
    filter_res passes_hard_filters (map snd bk) = Ok kept /\
    map_res attach_quality kept = Ok judged /\
    sort_by_score judged = Ok out /\
    merge_duplicates items = Ok (items', out).
Proof.
  intros Hitems.
  destruct (merge_duplicates_Ok items Hitems)
    as (items' & bk & out & Hloop & Hbk & Hmerge & _).
  unfold merge_duplicates in Hmerge. rewrite Hloop in Hmerge.
  cbn [bind] in Hmerge.
  destruct (filter_res passes_hard_filters (map snd bk)) as [kept|e] eqn:Hk;
    cbn [bind] in Hmerge; [|discriminate Hmerge].
  destruct (map_res attach_quality kept) as [judged|e] eqn:Hj;
    cbn [bind] in Hmerge; [|discriminate Hmerge].
  destruct (sort_by_score judged) as [out'|e] eqn:Hs;
    cbn [bind] in Hmerge; [|discriminate Hmerge].
  injection Hmerge as <-.
  exists items', bk, kept, judged, out'.
  do 5 (split; [assumption || reflexivity|]).
  unfold merge_duplicates. rewrite Hloop. cbn [bind]. rewrite Hk. cbn [bind].
  rewrite Hj. cbn [bind]. rewrite Hs. reflexivity.
Qed.

Lemma sort_by_score_perm (l out : list dict) :
  sort_by_score l = Ok out -> Permutation out l.
Proof.
  unfold sort_by_score. intros H. inv_bind H. injection H as <-.
  rewrite <- (sort_keys_snd l a Ha) at 1.
  apply Permutation_map, sort_desc_perm.
Qed.

Lemma filter_res_NoDup {A B : Type} (f : A -> res bool) (g : A -> B)
    (l l' : list A) :
  filter_res f l = Ok l' ->
  List.NoDup (map g l) -> List.NoDup (map g l').
Proof.
  revert l'. induction l as [|x tl IH]; intros l' H Hnd;
    cbn [filter_res] in H.
  - injection H as <-. constructor.
  - inv_bind H. inv_bind H. injection H as <-.
    cbn [map] in Hnd. inversion Hnd as [|? ? Hnotin Hnd']; subst.
    specialize (IH _ Ha0 Hnd'). destruct a; [|exact IH].
    cbn [map]. constructor; [|exact IH].
    intros Hin. apply Hnotin. apply in_map_iff in Hin.
    destruct Hin as (y & Hy & Hin). apply in_map_iff. exists y.
    split; [exact Hy|]. by apply (filter_res_In f tl a0 Ha0 y).
Qed.

Lemma filter_res_length {A : Type} (f : A -> res bool) (l l' : list A) :
  filter_res f l = Ok l' -> length l' <= length l.
Proof.
  revert l'. induction l as [|x tl IH]; intros l' H; cbn [filter_res] in H.
  - injection H as <-. done.
  - inv_bind H. inv_bind H. injection H as <-.
    specialize (IH _ Ha0). destruct a; simpl; lia.
Qed.

Lemma map_res_pointwise {A B C : Type} (f : A -> res B) (g : A -> C)
    (h : B -> C) (l : list A) (l' : list B) :
  (forall x y, f x = Ok y -> h y = g x) ->
  map_res f l = Ok l' -> map h l' = map g l.
Proof.
  intros Hfg. revert l'. induction l as [|x tl IH]; intros l' H;
    cbn [map_res] in H.
  - by injection H as <-.
  - inv_bind H. inv_bind H. injection H as <-. simpl.
    by rewrite (Hfg x a Ha), (IH _ Ha0).
Qed.

(** The keys of the mapping are the keys of its entries. *)
Lemma bk_entry_keys (bk : by_key_t) :
  wf_by_key bk ->
  map (fun c => get c "canonical_key") (map snd bk) = map VStr (map fst bk).
Proof.
  intros [Hnd Hent].
  assert (H : forall k c, List.In (k, c) bk ->
                get c "canonical_key" = VStr k).
  { intros k c Hin. by destruct (Hent k c (bk_In_lookup k c bk Hnd Hin)). }
  clear Hent Hnd. induction bk as [|[k c] tl IH]; [reflexivity|].
  simpl. rewrite (H k c) by (by left). f_equal. apply IH.
  intros k' c' Hin. apply H. by right.
Qed.

(** The mapping never has more keys than records were read. *)
Lemma bk_set_length (k : string) (m : dict) (bk : by_key_t) :
  length (bk_set k m bk) <= S (length bk).
Proof.
  induction bk as [|[k' m'] tl IH]; simpl; [lia|].
  destruct (String.eqb k k'); simpl; lia.
Qed.

Lemma merge_loop_length (items : list dict) (bk : by_key_t)
    (items' : list dict) (bk' : by_key_t) :
  wf_items items -> wf_by_key bk ->
  merge_loop bk items = Ok (items', bk') ->
  length bk' <= length bk + length items /\ length items' = length items.
Proof.
  intros Hitems. revert bk items' bk'.
  induction Hitems as [|item rest Hwf Hrest IH];
    intros bk items' bk' Hbk Hloop; cbn [merge_loop] in Hloop.
  - injection Hloop as <- <-. simpl. lia.
  - destruct (merge_step_Ok bk item Hwf Hbk)
      as (k & sc & m' & _ & _ & Hstep & _).
    pose proof (merge_step_wf _ _ Hwf Hbk _ _ Hstep) as Hbk1.
    rewrite Hstep in Hloop. cbn [bind] in Hloop. inv_bind Hloop.
    destruct a as [rest' bk2]. injection Hloop as <- <-.
    destruct (IH _ _ _ Hbk1 Ha) as [Hlen Hlen'].
    pose proof (bk_set_length k m' bk). simpl. lia.
Qed.

(** X2: [merge_duplicates] returns at most one listing per canonical key:
    the canonical keys of the returned listings are pairwise distinct, the
    returned list is no longer than the input, and every input record is
    handed back. *)
Theorem one_listing_per_key (items : list dict) :
  wf_items items ->
  exists items' out,
    merge_duplicates items = Ok (items', out) /\
    List.NoDup (map (fun m => get m "canonical_key") out) /\
    length out <= length items /\
    length items' = length items.
Proof.
  intros Hitems.
  destruct (merge_duplicates_passes items Hitems)
    as (items' & bk & kept & judged & out
        & Hloop & Hbk & Hkept & Hjudged & Hsort & Hmerge).
  exists items', out. split; [exact Hmerge|].
  pose proof (sort_by_score_perm _ _ Hsort) as Hperm.
  assert (Hkeys : map (fun m => get m "canonical_key") judged
                  = map (fun c => get c "canonical_key") kept).
  { apply (map_res_pointwise attach_quality); [|exact Hjudged].
    intros c m Hm. by apply (attach_quality_get c m). }
  destruct (merge_loop_length items [] items' bk Hitems wf_by_key_nil Hloop)
    as [Hlen Hlen'].
  split; [|split; [|exact Hlen']].
  - apply (Permutation_NoDup
             (Permutation_map _ (Permutation_sym Hperm))).
    rewrite Hkeys.
    apply (filter_res_NoDup passes_hard_filters _ (map snd bk) kept Hkept).
    rewrite (bk_entry_keys bk Hbk).
    destruct Hbk as [Hnd _]. clear -Hnd.
    induction Hnd as [|k l Hnotin Hnd IH]; simpl; constructor; [|exact IH].
    intros Hin. apply in_map_iff in Hin. destruct Hin as (k' & [= ->] & Hin).
    contradiction.
  - rewrite (Permutation_length Hperm), (map_res_length _ _ _ Hjudged).
    pose proof (filter_res_length _ _ _ Hkept) as Hk.
    rewrite length_map in Hk. simpl in Hlen. lia.
Qed.

Lemma one_listing_per_key_witness :
  exists items' out,
    merge_duplicates [main_redfin; half_a; main_realtor; cheap_b]
    = Ok (items', out) /\
    List.NoDup (map (fun m => get m "canonical_key") out) /\
    length out <= 4 /\ length items' = 4.
Proof.
  apply (one_listing_per_key [main_redfin; half_a; main_realtor; cheap_b]).
  repeat constructor; vm_compute; reflexivity.
Defined.

(** ** The order of the returned list *)

Lemma insert_desc_sorted (x : Q * dict) (l : list (Q * dict)) :
  Sorted (fun a b => (fst b <= fst a)%Q) l ->
  Sorted (fun a b => (fst b <= fst a)%Q) (insert_desc x l).
Proof.
  induction l as [|y tl IH]; intros Hs; cbn [insert_desc].
  - repeat constructor.
  - inversion Hs as [|? ? Hs' Hhd]; subst.
    destruct (Qlt_bool (fst x) (fst y)) eqn:E.
    + apply Qlt_bool_true in E. constructor; [by apply IH|].
      destruct tl as [|z tl']; cbn [insert_desc].
      * constructor. lra.
      * destruct (Qlt_bool (fst x) (fst z)); constructor;
          [by inversion Hhd | lra].
    + apply Qlt_bool_false in E. constructor; [exact Hs|].
      constructor. exact E.
Qed.

Lemma sort_desc_sorted (l : list (Q * dict)) :
  Sorted (fun a b => (fst b <= fst a)%Q) (sort_desc l).
Proof.
  induction l as [|x tl IH]; cbn [sort_desc fold_right]; [constructor|].
  by apply insert_desc_sorted.
Qed.

(** The sort key of a listing is its stored score. *)
Lemma sort_key_stored (m : dict) (k : Q) (m' : dict) :
  sort_key m = Ok (k, m') -> m' = m /\ stored_score m = k.
Proof.
  unfold sort_key, stored_score, get_or, get. intros H. inv_bind H.
  injection H as <- <-. split; [reflexivity|].
  destruct (m !! "match_score") as [[ | s | q | l]|]; simpl in Ha;
    try discriminate Ha; by injection Ha.
Qed.

Lemma sort_keys_stored (l : list dict) (keyed : list (Q * dict)) :
  map_res sort_key l = Ok keyed ->
  List.Forall (fun p => stored_score (snd p) = fst p) keyed.
Proof.
  intros H. apply List.Forall_forall. intros [k m] Hin.
  apply (map_res_In sort_key l keyed H) in Hin.
  destruct Hin as (m0 & _ & Hk). apply sort_key_stored in Hk.
  destruct Hk as [-> Hk]. exact Hk.
Qed.

Lemma sort_by_score_descending (l out : list dict) :
  sort_by_score l = Ok out -> descending (map stored_score out).
Proof.
  unfold sort_by_score. intros H. inv_bind H. injection H as <-.
  pose proof (sort_keys_stored l a Ha) as Hst.
  assert (Hst' : List.Forall (fun p => stored_score (snd p) = fst p)
                   (sort_desc a)).
  { apply List.Forall_forall. intros p Hp.
    rewrite List.Forall_forall in Hst. apply Hst.
    by apply (Permutation_in _ (sort_desc_perm a)). }
  pose proof (sort_desc_sorted a) as Hsorted.
  unfold descending. rewrite map_map.
  induction Hsorted as [|p tl Hs IH Hhd]; [constructor|].
  inversion Hst' as [|? ? Hp Htl]; subst.
  cbn [map]. constructor; [by apply IH|].
  destruct tl as [|p' tl']; [constructor|]. cbn [map].
  inversion Htl as [|? ? Hp' _]; subst. inversion Hhd; subst.
  constructor. rewrite Hp, Hp'. assumption.
Qed.

(** X3: the list [merge_duplicates] returns is in non-increasing order of
    the stored match score, and each returned listing stores a number as
    its match score. *)
Theorem returned_in_score_order (items : list dict) :
  wf_items items ->
  exists items' out,
    merge_duplicates items = Ok (items', out) /\
    descending (map stored_score out) /\
    forall m, List.In m out ->
      get m "match_score" = VNum (stored_score m).
Proof.
  intros Hitems.
  destruct (merge_duplicates_passes items Hitems)
    as (items' & bk & kept & judged & out
        & Hloop & Hbk & Hkept & Hjudged & Hsort & Hmerge).
  exists items', out. split; [exact Hmerge|].
  split; [by apply (sort_by_score_descending judged)|].
  intros m Hm.
  apply (Permutation_in _ (sort_by_score_perm _ _ Hsort)) in Hm.
  apply (map_res_In _ _ _ Hjudged) in Hm. destruct Hm as (c & Hc & Hm).
  apply (filter_res_In _ _ _ Hkept) in Hc. destruct Hc as [Hc _].
  destruct Hbk as [Hnd Hent].
  destruct (bk_values_lookup c bk Hnd Hc) as [k Hk].
  destruct (Hent k c Hk) as [Hwfc _]. apply wf_merged_fields in Hwfc.
  destruct Hwfc as (_ & _ & _ & _ & Hnum & _).
  unfold stored_score. rewrite (attach_quality_get c m) by done.
  apply get_as_num in Hnum. destruct Hnum as [q ->]. reflexivity.
Qed.

Lemma returned_in_score_order_witness :
  exists items' out,
    merge_duplicates [blank_listing; main_redfin; ceiling_listing]
    = Ok (items', out) /\
    descending (map stored_score out) /\
    forall m, List.In m out ->
      get m "match_score" = VNum (stored_score m).
Proof.
  apply (returned_in_score_order [blank_listing; main_redfin; ceiling_listing]).
  repeat constructor; vm_compute; reflexivity.
Defined.

(** Among equal keys the sort keeps the order. *)
Lemma insert_desc_filter (q : Q) (x : Q * dict) (l : list (Q * dict)) :
  List.filter (fun p => Qeq_bool (fst p) q) (insert_desc x l)
  = List.filter (fun p => Qeq_bool (fst p) q) (x :: l).
Proof.
  induction l as [|y tl IH]; cbn [insert_desc]; [reflexivity|].
  destruct (Qlt_bool (fst x) (fst y)) eqn:E; [|reflexivity].
  apply Qlt_bool_true in E.
  cbn [List.filter] in *. rewrite IH.
  destruct (Qeq_bool (fst x) q) eqn:Ex; [|reflexivity].
  destruct (Qeq_bool (fst y) q) eqn:Ey; [|reflexivity].
  apply Qeq_bool_iff in Ex, Ey. exfalso. lra.
Qed.

Lemma sort_desc_filter (q : Q) (l : list (Q * dict)) :
  List.filter (fun p => Qeq_bool (fst p) q) (sort_desc l)
  = List.filter (fun p => Qeq_bool (fst p) q) l.
Proof.
  induction l as [|x tl IH]; cbn [sort_desc fold_right]; [reflexivity|].
  fold (sort_desc tl). rewrite insert_desc_filter.
  cbn [List.filter]. by rewrite IH.
Qed.

Lemma filter_map_snd (q : Q) (l : list (Q * dict)) :
  List.Forall (fun p => stored_score (snd p) = fst p) l ->
  List.filter (fun m => Qeq_bool (stored_score m) q) (map snd l)
  = map snd (List.filter (fun p => Qeq_bool (fst p) q) l).
Proof.
  induction 1 as [|p tl Hp Htl IH]; [reflexivity|].
  cbn [map List.filter]. rewrite Hp, IH.
  by destruct (Qeq_bool (fst p) q).
Qed.

Lemma sort_by_score_stable (q : Q) (l out : list dict) :
  sort_by_score l = Ok out ->
  List.filter (fun m => Qeq_bool (stored_score m) q) out
  = List.filter (fun m => Qeq_bool (stored_score m) q) l.
Proof.
  unfold sort_by_score. intros H. inv_bind H. injection H as <-.
  pose proof (sort_keys_stored l a Ha) as Hst.
  assert (Hst' : List.Forall (fun p => stored_score (snd p) = fst p)
                   (sort_desc a)).
  { apply List.Forall_forall. intros p Hp.
    rewrite List.Forall_forall in Hst. apply Hst.
    by apply (Permutation_in _ (sort_desc_perm a)). }
  rewrite (filter_map_snd q _ Hst'), sort_desc_filter.
  rewrite <- (filter_map_snd q _ Hst). by rewrite (sort_keys_snd l a Ha).
Qed.

(** The keys of the mapping stand in the order in which they were first
    read. *)
Lemma bk_set_fst (k : string) (m : dict) (bk : by_key_t) :
  map fst (bk_set k m bk)
  = if existsb (String.eqb k) (map fst bk) then map fst bk
    else map fst bk ++ [k].
Proof.
  induction bk as [|[k' m'] tl IH]; cbn [bk_set map fst existsb app];
    [reflexivity|].
  destruct (String.eqb k k'); cbn [map fst orb]; [reflexivity|].
  rewrite IH. by destruct (existsb (String.eqb k) (map fst tl)).
Qed.

Lemma fromkeys_snoc (l : list string) (x : string) :
  fromkeys (l ++ [x])
  = if existsb (String.eqb x) (fromkeys l) then fromkeys l
    else fromkeys l ++ [x].
Proof. unfold fromkeys. by rewrite fold_left_app. Qed.

Lemma first_seen_step (seen : list dict) (bk : by_key_t)
    (item item' : dict) (bk' : by_key_t) :
  map fst bk = fromkeys (map key_of seen) ->
  wf_by_key bk -> wf_raw item = true ->
  merge_step bk item = Ok (item', bk') ->
  map fst bk' = fromkeys (map key_of (seen ++ [item])).
Proof.
  intros Hinv Hbk Hwf Hstep.
  destruct (merge_step_Ok bk item Hwf Hbk)
    as (k & sc & m' & Hk & _ & Hstep' & _).
  rewrite Hstep' in Hstep. injection Hstep as _ <-.
  rewrite map_app. cbn [map]. rewrite fromkeys_snoc, <- Hinv.
  unfold key_of. rewrite Hk. apply bk_set_fst.
Qed.

Lemma filter_res_sublist {A : Type} (f : A -> res bool) (l l' : list A) :
  filter_res f l = Ok l' -> sublist l' l.
Proof.
  revert l'. induction l as [|x tl IH]; intros l' H; cbn [filter_res] in H.
  - injection H as <-. constructor.
  - inv_bind H. inv_bind H. injection H as <-.
    destruct a; constructor; auto.
Qed.

Lemma filter_sublist {A : Type} (p : A -> bool) (l : list A) :
  sublist (List.filter p l) l.
Proof.
  induction l as [|x tl IH]; cbn [List.filter]; [constructor|].
  destruct (p x); by constructor.
Qed.

Lemma map_sublist {A B : Type} (g : A -> B) (l l' : list A) :
  sublist l' l -> sublist (map g l') (map g l).
Proof. induction 1; cbn [map]; by constructor. Qed.

(** X4: the sort of the returned list is stable over the order in which
    canonical keys were first seen.  The mapping holds its keys in the
    order of their first occurrence among the input records, and the
    returned listings that share a stored score come back in that order:
    their keys, as returned, are a subsequence of the first-seen keys. *)
Theorem ties_keep_first_seen_order (items : list dict) :
  wf_items items ->
  exists items' bk out,
    merge_loop [] items = Ok (items', bk) /\
    merge_duplicates items = Ok (items', out) /\
    map fst bk = fromkeys (map key_of items) /\
    forall q,
      sublist
        (map (fun m => get m "canonical_key")
           (List.filter (fun m => Qeq_bool (stored_score m) q) out))
        (map VStr (fromkeys (map key_of items))).
Proof.
  intros Hitems.
  destruct (merge_duplicates_passes items Hitems)
    as (items' & bk & kept & judged & out
        & Hloop & Hbk & Hkept & Hjudged & Hsort & Hmerge).
  exists items', bk, out. split; [exact Hloop|]. split; [exact Hmerge|].
  assert (Hfirst : map fst bk = fromkeys (map key_of items)).
  { apply (merge_loop_invariant
             (fun seen bk => map fst bk = fromkeys (map key_of seen))
             first_seen_step items [] [] items' bk Hitems wf_by_key_nil);
      [reflexivity | exact Hloop]. }
  split; [exact Hfirst|]. intros q.
  rewrite (sort_by_score_stable q judged out Hsort), <- Hfirst.
  rewrite <- (bk_entry_keys bk Hbk).
  transitivity (map (fun m => get m "canonical_key") judged).
  { apply map_sublist, filter_sublist. }
  replace (map (fun m => get m "canonical_key") judged)
    with (map (fun c => get c "canonical_key") kept).
  { apply map_sublist. by apply (filter_res_sublist passes_hard_filters). }
  symmetry. apply (map_res_pointwise attach_quality); [|exact Hjudged].
  intros c m Hm. by apply (attach_quality_get c m).
Qed.

Lemma ties_keep_first_seen_order_witness :
  exists items' bk out,
    merge_loop [] [blank_listing; ceiling_listing; main_redfin]
    = Ok (items', bk) /\
    merge_duplicates [blank_listing; ceiling_listing; main_redfin]
    = Ok (items', out) /\
    map fst bk
    = fromkeys (map key_of [blank_listing; ceiling_listing; main_redfin]) /\
    forall q,
      sublist
        (map (fun m => get m "canonical_key")
           (List.filter (fun m => Qeq_bool (stored_score m) q) out))
        (map VStr
           (fromkeys
              (map key_of [blank_listing; ceiling_listing; main_redfin]))).
Proof.
  apply (ties_keep_first_seen_order
           [blank_listing; ceiling_listing; main_redfin]).
  repeat constructor; vm_compute; reflexivity.
Defined.

(** ** Provenance is exact *)

Lemma insert_sorted_sorted (x : string) (l : list string) :
  strictly_sorted l -> strictly_sorted (insert_sorted x l).
Proof.
  unfold strictly_sorted. induction l as [|y tl IH]; intros Hs;
    cbn [insert_sorted].
  - repeat constructor.
  - inversion Hs as [|? ? Hs' Hhd]; subst.
    destruct (String.compare x y) eqn:E.
    + exact Hs.
    + constructor; [exact Hs|]. by constructor.
    + constructor; [by apply IH|].
      assert (Hyx : String.compare y x = Lt).
      { rewrite String.compare_antisym, E. reflexivity. }
      destruct tl as [|z tl']; cbn [insert_sorted]; [by constructor|].
      destruct (String.compare x z); constructor;
        first [exact Hyx | by inversion Hhd].
Qed.

Lemma sorted_set_sorted (l : list string) : strictly_sorted (sorted_set l).
Proof.
  unfold sorted_set. induction l as [|x tl IH]; cbn [fold_right].
  - constructor.
  - by apply insert_sorted_sorted.
Qed.

Lemma sorted_union_sorted (l : list string) (x : string) :
  strictly_sorted (sorted_union l x).
Proof. apply insert_sorted_sorted, sorted_set_sorted. Qed.

Lemma provenance_inv_step (seen : list dict) (bk : by_key_t)
    (item item' : dict) (bk' : by_key_t) :
  provenance_inv seen bk -> wf_by_key bk -> wf_raw item = true ->
  merge_step bk item = Ok (item', bk') ->
  provenance_inv (seen ++ [item]) bk'.
Proof.
  intros [Hseen Hprov] Hbk Hwf Hstep.
  destruct (merge_step_fields bk item Hwf Hbk)
    as (k & sc & m' & src & url & lid
        & Hk & _ & Hsrc & Hurl & Hlid & Hstep' & Hm').
  rewrite Hstep' in Hstep. injection Hstep as _ <-. split.
  - intros i Hi. apply in_app_or in Hi. destruct Hi as [Hi|[<-|[]]].
    + destruct (Hseen i Hi) as (ki & Hki & Hin). exists ki. split; [done|].
      destruct (decide (k = ki)) as [<-|Hne].
      * by rewrite bk_lookup_set_eq.
      * by rewrite bk_lookup_set_ne.
    + exists k. split; [done|]. by rewrite bk_lookup_set_eq.
  - intros k0 m0. destruct (decide (k = k0)) as [<-|Hne].
    + rewrite bk_lookup_set_eq. intros [= <-] fld raw Hpair.
      assert (Hitem : exists x, item !! raw = Some (VStr x) /\
                (match bk_lookup k bk with
                 | Some cur =>
                     exists old, get cur fld = VList old /\
                                 get m' fld = VList (sorted_union old x)
                 | None => get m' fld = VList [x]
                 end)).
      { destruct (bk_lookup k bk) as [cur|] eqn:Elook.
        - destruct Hm' as (stored & srcs & urls & lids & _ & Hs & Hu & Hl
                           & _ & Hs' & Hu' & Hl' & _).
          in_cases Hpair; injection Hpair as <- <-; eauto.
        - subst m'. in_cases Hpair; injection Hpair as <- <-;
            eexists; (split; [eassumption|]); by read_writes. }
      destruct Hitem as (x & Hx & Hfld).
      destruct (bk_lookup k bk) as [cur|] eqn:Elook.
      * destruct Hfld as (old & Hold & Hnew).
        destruct (Hprov k cur Elook fld raw Hpair) as (l & Hl & _ & Hiff).
        rewrite Hold in Hl. injection Hl as <-.
        exists (sorted_union old x). split; [exact Hnew|].
        split; [apply sorted_union_sorted|].
        intros y. rewrite sorted_union_In, Hiff. split.
        -- intros [->|(i & Hi & Hki & Hiy)].
           ++ exists item. split; [apply in_or_app; simpl; auto | done].
           ++ exists i. split; [apply in_or_app; auto | done].
        -- intros (i & Hi & Hki & Hiy). apply in_app_or in Hi.
           destruct Hi as [Hi|[<-|[]]]; [right; eauto | left; congruence].
      * exists [x]. split; [exact Hfld|].
        split; [repeat constructor|].
        intros y. split.
        -- intros [<-|[]]. exists item.
           split; [apply in_or_app; simpl; auto | done].
        -- intros (i & Hi & Hki & Hiy). apply in_app_or in Hi.
           destruct Hi as [Hi|[<-|[]]]; [|left; congruence].
           destruct (Hseen i Hi) as (ki & Hki' & Hin).
           rewrite Hki in Hki'. injection Hki' as <-. congruence.
    + rewrite bk_lookup_set_ne by done. intros Hlook fld raw Hpair.
      destruct (Hprov k0 m0 Hlook fld raw Hpair) as (l & Hl & Hsorted & Hiff).
      exists l. split; [exact Hl|]. split; [exact Hsorted|].
      intros y. rewrite Hiff. split.
      * intros (i & Hi & Hki & Hiy). exists i.
        split; [apply in_or_app; auto | done].
      * intros (i & Hi & Hki & Hiy). apply in_app_or in Hi.
        destruct Hi as [Hi|[<-|[]]]; [eauto | congruence].
Qed.

Lemma provenance_inv_loop (items items' : list dict) (bk : by_key_t) :
  wf_items items -> merge_loop [] items = Ok (items', bk) ->
  provenance_inv items bk.
Proof.
  intros Hitems Hloop.
  apply (merge_loop_invariant provenance_inv provenance_inv_step
           items [] [] items' bk Hitems wf_by_key_nil); [|exact Hloop].
  split; [intros i []|intros k m; discriminate].
Qed.

(** X5: the provenance of a returned listing is exact.  Its sources,
    source URLs and listing ids are strictly increasing lists (sorted,
    without duplicates) that hold exactly the source, URL and listing id
    of the input records with the listing's canonical key: nothing is
    lost and nothing comes from a record of another key. *)
Theorem provenance_exact (items : list dict) :
  wf_items items ->
  exists items' out,
    merge_duplicates items = Ok (items', out) /\
    forall m, List.In m out ->
      exists k, get m "canonical_key" = VStr k /\
      forall fld src, List.In (fld, src) PROVENANCE_PAIRS ->
        exists l, get m fld = VList l /\ strictly_sorted l /\
          forall x, List.In x l <->
            exists i, List.In i items /\ canonical_key i = Ok k /\
                      i !! src = Some (VStr x).
Proof.
  intros Hitems.
  destruct (merge_duplicates_Ok items Hitems)
    as (items' & bk & out & Hloop & [Hnd Hent] & Hmerge & Hout).
  exists items', out. split; [exact Hmerge|].
  intros m Hm. apply Hout in Hm. destruct Hm as (c & Hc & _ & Hattach).
  destruct (bk_values_lookup c bk Hnd Hc) as [k Hk].
  destruct (Hent k c Hk) as [_ Hck].
  exists k. split; [by rewrite (attach_quality_get c m)|].
  intros fld src Hpair.
  destruct (provenance_inv_loop items items' bk Hitems Hloop) as [_ Hprov].
  destruct (Hprov k c Hk fld src Hpair) as (l & Hl & Hsorted & Hiff).
  exists l. split; [|auto].
  rewrite (attach_quality_get c m); [exact Hl | exact Hattach | |];
    intros ->; in_cases Hpair; discriminate.
Qed.

Lemma provenance_exact_witness :
  exists items' out,
    merge_duplicates [main_realtor; half_a; main_redfin]
    = Ok (items', out) /\
    forall m, List.In m out ->
      exists k, get m "canonical_key" = VStr k /\
      forall fld src, List.In (fld, src) PROVENANCE_PAIRS ->
        exists l, get m fld = VList l /\ strictly_sorted l /\
          forall x, List.In x l <->
            exists i, List.In i [main_realtor; half_a; main_redfin] /\
                      canonical_key i = Ok k /\
                      i !! src = Some (VStr x).
Proof.
  apply (provenance_exact [main_realtor; half_a; main_redfin]).
  repeat constructor; vm_compute; reflexivity.
Defined.

(** ** The quality gate on returned listings *)

Lemma passes_hard_filters_allowed (c : dict) :
  passes_hard_filters c = Ok true ->
  exists pt, ptype_of c = Ok pt /\ allowed_type pt = true.
Proof.
  unfold passes_hard_filters. intros H. inv_bind H. exists a.
  split; [exact Ha|].
  destruct (allowed_type a); [reflexivity | discriminate H].
Qed.

(** The reasons on a listing that has a key, sources and an allowed
    type. *)
Lemma quality_reasons_kept (c : dict) (pt : string) :
  truthy (get c "canonical_key") = true ->
  truthy (get c "sources") = true ->
  ptype_of c = Ok pt -> allowed_type pt = true ->
  quality_reasons c
  = Ok (append_if (is_none (get c "baths")) "missing baths"
          (append_if (is_none (get c "beds")) "missing beds"
             (append_if (is_none (get c "price")) "missing price"
                (append_if
                   (negb (truthy (py_or (get c "address")
                                        (get c "property_name"))))
                   "missing address/name" [])))).
Proof.
  intros Hck Hsrc Hpt Hal. unfold quality_reasons.
  rewrite Hck, Hsrc, Hpt. cbn [bind negb]. rewrite Hal. reflexivity.
Qed.

(** X6: on a listing that [merge_duplicates] returns the quality gate can
    only miss the address or name, the price, the beds or the baths: the
    reasons for a missing key, missing sources or a disallowed property
    type never appear.  The stored verdict is "pass", with the note
    "ready", exactly when price, beds and baths are known and the listing
    has an address or a property name; otherwise it is "fail". *)
Theorem returned_quality (items : list dict) :
  wf_items items ->
  exists items' out,
    merge_duplicates items = Ok (items', out) /\
    forall m, List.In m out ->
      exists reasons,
        quality_reasons m = Ok reasons /\
        (forall r, List.In r reasons -> List.In r OUTPUT_REASONS) /\
        (reasons = [] <-> complete m = true) /\
        get m "data_quality"
        = VStr (if complete m then "pass" else "fail") /\
        (complete m = true -> get m "quality_notes" = VStr "ready").
Proof.
  intros Hitems.
  destruct (merge_duplicates_Ok items Hitems)
    as (items' & bk & out & Hloop & [Hnd Hent] & Hmerge & Hout).
  exists items', out. split; [exact Hmerge|].
  intros m Hm. apply Hout in Hm. destruct Hm as (c & Hc & Hpass & Hattach).
  destruct (bk_values_lookup c bk Hnd Hc) as [k Hk].
  destruct (Hent k c Hk) as [_ Hck].
  destruct (best_score_loop items items' bk Hitems Hloop) as [_ Hbest].
  destruct (Hbest k c Hk) as (s & _ & (i & Hi & Hki & _) & _).
  assert (Hwfi : wf_raw i = true).
  { unfold wf_items in Hitems. rewrite List.Forall_forall in Hitems. auto. }
  destruct (wf_raw_fields i Hwfi) as (Hkf & _ & [src Hsrc] & _).
  destruct (canonical_key_shape i Hkf) as (k' & Hk' & Hshape).
  rewrite Hki in Hk'. injection Hk' as <-.
  apply key_shape_nonempty in Hshape. destruct Hshape as [_ Htruthy].
  destruct (provenance_inv_loop items items' bk Hitems Hloop) as [_ Hprov].
  destruct (Hprov k c Hk "sources" "source") as (l & Hl & _ & Hiff);
    [simpl; auto|].
  assert (Hsources : truthy (get c "sources") = true).
  { rewrite Hl. destruct l as [|x l']; [|reflexivity].
    exfalso. apply (proj2 (Hiff src)). eauto. }
  destruct (passes_hard_filters_allowed c Hpass) as (pt & Hpt & Hal).
  assert (Hck' : truthy (get c "canonical_key") = true) by (by rewrite Hck).
  pose proof (quality_reasons_kept c pt Hck' Hsources Hpt Hal) as Hreasons.
  assert (Hreads : forall f, f <> "data_quality" -> f <> "quality_notes" ->
                     get m f = get c f)
    by (intros f; apply (attach_quality_get c m f Hattach)).
  assert (Hcomplete : complete m = complete c).
  { unfold complete. by rewrite !Hreads. }
  apply attach_quality_Ok in Hattach.
  destruct Hattach as (q & notes & Hq & ->).
  unfold quality_assessment in Hq. rewrite Hreasons in Hq. cbn [bind] in Hq.
  eexists. split.
  { rewrite (quality_reasons_reads c); [exact Hreasons|].
    intros f Hf. apply Hreads; intros ->; in_cases Hf; discriminate. }
  rewrite Hcomplete. read_writes. unfold complete, append_if in *.
  destruct (truthy (py_or (get c "address") (get c "property_name")));
    destruct (is_none (get c "price")); destruct (is_none (get c "beds"));
    destruct (is_none (get c "baths")); cbn in Hq |- *;
    injection Hq as <- <-;
    (split; [intros r Hr; tauto|]);
    (split; [split; intros H; (reflexivity || discriminate H)|]);
    (split; [reflexivity | intros H; (reflexivity || discriminate H)]).
Qed.

Lemma returned_quality_witness :
  exists items' out,
    merge_duplicates [main_realtor; blank_listing; main_redfin]
    = Ok (items', out) /\
    forall m, List.In m out ->
      exists reasons,
        quality_reasons m = Ok reasons /\
        (forall r, List.In r reasons -> List.In r OUTPUT_REASONS) /\
        (reasons = [] <-> complete m = true) /\
        get m "data_quality"
        = VStr (if complete m then "pass" else "fail") /\
        (complete m = true -> get m "quality_notes" = VStr "ready").
Proof.
  apply (returned_quality [main_realtor; blank_listing; main_redfin]).
  repeat constructor; vm_compute; reflexivity.
Defined.

(** ** Keys do not interfere *)

Lemma key_is_Ok (k k0 : string) (item : dict) :
  canonical_key item = Ok k0 -> key_is k item = String.eqb k0 k.
Proof. unfold key_is. by intros ->. Qed.

Lemma wf_items_filter (p : dict -> bool) (items : list dict) :
  wf_items items -> wf_items (List.filter p items).
Proof.
  unfold wf_items. rewrite !List.Forall_forall. intros H i Hi.
  apply filter_In in Hi. apply H, Hi.
Qed.

Lemma merge_loop_one_key (k : string) (items : list dict)
    (bk1 bk2 : by_key_t) :
  wf_items items -> wf_by_key bk1 -> wf_by_key bk2 ->
  bk_lookup k bk1 = bk_lookup k bk2 ->
  exists i1 b1 i2 b2,
    merge_loop bk1 items = Ok (i1, b1) /\
    merge_loop bk2 (List.filter (key_is k) items) = Ok (i2, b2) /\
    bk_lookup k b1 = bk_lookup k b2.
Proof.
  intros Hitems. revert bk1 bk2.
  induction Hitems as [|item rest Hwf Hrest IH]; intros bk1 bk2 H1 H2 Heq.
  - cbn [List.filter merge_loop]. eauto 10.
  - destruct (merge_step_Ok bk1 item Hwf H1)
      as (k0 & sc & m1 & Hk0 & Hsc & Hstep1 & _ & _ & Hm1).
    pose proof (merge_step_wf _ _ Hwf H1 _ _ Hstep1) as H1'.
    cbn [List.filter merge_loop]. rewrite Hstep1. cbn [bind].
    rewrite (key_is_Ok k k0 item Hk0).
    destruct (String.eqb k0 k) eqn:E.
    + apply String.eqb_eq in E. subst k0.
      destruct (merge_step_Ok bk2 item Hwf H2)
        as (k' & sc' & m2 & Hk' & Hsc' & Hstep2 & _ & _ & Hm2).
      rewrite Hk0 in Hk'. injection Hk' as <-.
      rewrite Hsc in Hsc'. injection Hsc' as <-.
      pose proof (merge_step_wf _ _ Hwf H2 _ _ Hstep2) as H2'.
      assert (Hm : m1 = m2).
      { rewrite <- Heq in Hm2. destruct (bk_lookup k bk1);
          rewrite Hm1 in Hm2; by injection Hm2. }
      subst m2.
      destruct (IH (bk_set k m1 bk1) (bk_set k m1 bk2) H1' H2')
        as (i1 & b1 & i2 & b2 & Hl1 & Hl2 & Hfin).
      { by rewrite !bk_lookup_set_eq. }
      cbn [merge_loop]. rewrite Hstep2. cbn [bind]. rewrite Hl1, Hl2.
      cbn [bind]. eauto 10.
    + apply String.eqb_neq in E.
      destruct (IH (bk_set k0 m1 bk1) bk2 H1' H2)
        as (i1 & b1 & i2 & b2 & Hl1 & Hl2 & Hfin).
      { by rewrite bk_lookup_set_ne. }
      rewrite Hl1, Hl2. cbn [bind]. eauto 10.
Qed.

(** X7: records of other keys never influence an entry.  The entry the
    loop stores under a canonical key after reading all the records is
    the entry it stores after reading, in the same order, only the
    records with that key. *)
Theorem keys_do_not_interfere (k : string) (items : list dict) :
  wf_items items ->
  exists items1 bk1 items2 bk2,
    merge_loop [] items = Ok (items1, bk1) /\
    merge_loop [] (List.filter (key_is k) items) = Ok (items2, bk2) /\
    bk_lookup k bk1 = bk_lookup k bk2.
Proof.
  intros Hitems.
  apply merge_loop_one_key; auto using wf_by_key_nil.
Qed.

Lemma keys_do_not_interfere_witness :
  exists items1 bk1 items2 bk2,
    merge_loop [] [main_realtor; half_a; main_redfin; cheap_b]
    = Ok (items1, bk1) /\
    merge_loop []
      (List.filter (key_is "addr:123 main st")
         [main_realtor; half_a; main_redfin; cheap_b])
    = Ok (items2, bk2) /\
    bk_lookup "addr:123 main st" bk1 = bk_lookup "addr:123 main st" bk2.
Proof.
  apply (keys_do_not_interfere "addr:123 main st"
           [main_realtor; half_a; main_redfin; cheap_b]).
  repeat constructor; vm_compute; reflexivity.
Defined.

(** ** The fields of an entry, read off the records of its key *)

Lemma seen_keys_stored_step (seen : list dict) (bk : by_key_t)
    (item : dict) (k : string) (m' : dict) :
  seen_keys_stored seen bk -> canonical_key item = Ok k ->
  seen_keys_stored (seen ++ [item]) (bk_set k m' bk).
Proof.
  intros Hseen Hk i Hi. apply in_app_or in Hi. destruct Hi as [Hi|[<-|[]]].
  - destruct (Hseen i Hi) as (ki & Hki & Hin). exists ki. split; [done|].
    destruct (decide (k = ki)) as [<-|Hne].
    + by rewrite bk_lookup_set_eq.
    + by rewrite bk_lookup_set_ne.
  - exists k. split; [done|]. by rewrite bk_lookup_set_eq.
Qed.

(** No record read so far has a key that the mapping lacks. *)
Lemma filter_key_absent (seen : list dict) (bk : by_key_t) (k : string) :
  seen_keys_stored seen bk -> bk_lookup k bk = None ->
  List.filter (key_is k) seen = [].
Proof.
  intros Hseen Hnone. induction seen as [|i tl IH]; [reflexivity|].
  cbn [List.filter].
  destruct (Hseen i (or_introl eq_refl)) as (ki & Hki & Hin).
  rewrite (key_is_Ok k ki i Hki).
  destruct (String.eqb ki k) eqn:E.
  - apply String.eqb_eq in E. subst ki. contradiction.
  - apply IH. intros j Hj. apply Hseen. by right.
Qed.

Lemma filter_key_snoc (k k0 : string) (seen : list dict) (item : dict) :
  canonical_key item = Ok k0 ->
  List.filter (key_is k) (seen ++ [item])
  = if String.eqb k0 k then List.filter (key_is k) seen ++ [item]
    else List.filter (key_is k) seen.
Proof.
  intros Hk. rewrite List.filter_app. cbn [List.filter].
  rewrite (key_is_Ok k k0 item Hk).
  destruct (String.eqb k0 k); [reflexivity | apply app_nil_r].
Qed.

Lemma first_non_null_snoc (f : string) (l : list dict) (x : dict) :
  first_non_null f (l ++ [x])
  = if is_none (first_non_null f l) then get x f else first_non_null f l.
Proof.
  unfold first_non_null. induction l as [|d tl IH]; cbn [app fold_right].
  - destruct (is_none (get x f)) eqn:E; [|reflexivity].
    by apply is_none_true in E.
  - destruct (is_none (get d f)) eqn:E; [exact IH|]. by rewrite E.
Qed.

Lemma first_truthy_snoc (f : string) (l : list dict) (x : dict) :
  first_truthy f (l ++ [x])
  = match first_truthy f l with
    | Some v => Some v
    | None => if truthy (get x f) then Some (get x f) else None
    end.
Proof.
  unfold first_truthy. induction l as [|d tl IH]; cbn [app fold_right].
  - reflexivity.
  - destruct (truthy (get d f)); [reflexivity | exact IH].
Qed.

Lemma first_truthy_truthy (f : string) (l : list dict) (v : val) :
  first_truthy f l = Some v -> truthy v = true.
Proof.
  unfold first_truthy. induction l as [|d tl IH]; cbn [fold_right];
    [discriminate|].
  destruct (truthy (get d f)) eqn:E; [|exact IH]. by intros [= <-].
Qed.

Lemma Ok_inj {A : Type} (a b : A) : Ok a = Ok b -> a = b.
Proof. by intros [= ->]. Qed.

(** The address after [fold_into]. *)
Lemma fold_into_address (sc : Q) (item cur m' : dict) :
  fold_into sc item cur = Ok m' ->
  get m' "address"
  = if (negb (truthy (get cur "address")) && truthy (get item "address"))%bool
    then get item "address" else get cur "address".
Proof.
  unfold fold_into, add_provenance. intros H.
  inv_bind H. inv_bind Ha. inv_bind Ha. inv_bind Ha. injection Ha as <-.
  inv_bind H. inv_bind Ha. inv_bind Ha. inv_bind Ha. injection Ha as <-.
  inv_bind H. inv_bind Ha. inv_bind Ha. inv_bind Ha. injection Ha as <-.
  inv_bind H.
  assert (Hc1 : get (adopt_address item
                       (fold_left (fill_numeric item) NUMERIC_FIELDS cur))
                  "address"
                = if (negb (truthy (get cur "address"))
                      && truthy (get item "address"))%bool
                  then get item "address" else get cur "address").
  { unfold adopt_address, NUMERIC_FIELDS. cbn [fold_left].
    rewrite !fill_numeric_get. cbn [String.eqb Ascii.eqb Bool.eqb].
    destruct (negb (truthy (get cur "address"))
              && truthy (get item "address"))%bool;
      [apply get_insert_eq|].
    rewrite !fill_numeric_get. reflexivity. }
  unfold NUMERIC_FIELDS in Hc1. cbn [fold_left] in Hc1.
  destruct (Qlt_bool a sc); apply Ok_inj in H; subst m';
    unfold REPRESENTATIVE_FIELDS; cbn [fold_left]; unfold take_field;
    rewrite !get_insert_ne by discriminate; exact Hc1.
Qed.

Lemma first_values_step (seen : list dict) (bk : by_key_t)
    (item item' : dict) (bk' : by_key_t) :
  first_values_inv seen bk -> wf_by_key bk -> wf_raw item = true ->
  merge_step bk item = Ok (item', bk') ->
  first_values_inv (seen ++ [item]) bk'.
Proof.
  intros [Hseen Hinv] Hbk Hwf Hstep.
  destruct (merge_step_fields bk item Hwf Hbk)
    as (k & sc & m' & src & url & lid & Hk & _ & _ & _ & _ & Hstep' & Hm').
  destruct (merge_step_Ok bk item Hwf Hbk)
    as (k1 & sc1 & m1 & Hk1 & _ & Hstep1 & _ & _ & Hfold).
  rewrite Hk in Hk1. injection Hk1 as <-.
  fold (annotated k sc1 item) in Hstep1, Hfold.
  assert (Hm1 : m1 = m').
  { rewrite Hstep1 in Hstep'. apply Ok_inj in Hstep'.
    apply (f_equal snd) in Hstep'. cbn [snd] in Hstep'.
    apply (f_equal (bk_lookup k)) in Hstep'.
    rewrite !bk_lookup_set_eq in Hstep'. by apply (inj Some) in Hstep'. }
  subst m1. clear Hstep'.
  rewrite Hstep1 in Hstep. apply Ok_inj in Hstep.
  apply (f_equal snd) in Hstep. cbn [snd] in Hstep. subst bk'.
  assert (Hann : forall s f, f <> "canonical_key" -> f <> "match_score" ->
                   get (annotated k s item) f = get item f)
    by (intros s f; apply annotated_get).
  split; [by apply seen_keys_stored_step|].
  intros k0 m0. rewrite (filter_key_snoc k0 k seen item Hk).
  destruct (decide (k = k0)) as [<-|Hne].
  - rewrite bk_lookup_set_eq, String.eqb_refl. intros [= <-].
    destruct (bk_lookup k bk) as [cur|] eqn:Elook.
    + destruct (Hinv k cur Elook) as [Hnum Haddr].
      split.
      * destruct Hm' as (stored & srcs & urls & lids & _ & _ & _ & _ & HN & _).
        intros f Hf. rewrite first_non_null_snoc, <- (Hnum f Hf).
        apply (HN f Hf).
      * rewrite first_truthy_snoc.
        pose proof (fold_into_address _ _ _ _ Hfold) as Ha.
        rewrite Hann in Ha by discriminate.
        destruct (first_truthy "address" (List.filter (key_is k) seen))
          as [v|] eqn:Ef.
        -- pose proof (first_truthy_truthy _ _ _ Ef) as Hv.
           rewrite Haddr, Hv in Ha. exact Ha.
        -- rewrite Haddr in Ha. cbn [negb andb] in Ha.
           destruct (truthy (get item "address")) eqn:Et; [exact Ha|].
           by rewrite Ha.
    + rewrite (filter_key_absent seen bk k Hseen Elook). cbn [app].
      clear Hfold. subst m'. split.
      * intros f Hf. rewrite !get_insert_ne, Hann
          by (intros E; subst f; in_cases Hf; discriminate).
        unfold first_non_null. cbn [fold_right].
        destruct (is_none (get item f)) eqn:E; [|reflexivity].
        by apply is_none_true in E.
      * unfold first_truthy. cbn [fold_right].
        rewrite !get_insert_ne, Hann by discriminate.
        destruct (truthy (get item "address")) eqn:E; reflexivity.
  - rewrite bk_lookup_set_ne by done.
    apply String.eqb_neq in Hne. rewrite Hne. apply Hinv.
Qed.

Lemma first_values_loop (items items' : list dict) (bk : by_key_t) :
  wf_items items -> merge_loop [] items = Ok (items', bk) ->
  first_values_inv items bk.
Proof.
  intros Hitems Hloop.
  apply (merge_loop_invariant first_values_inv first_values_step
           items [] [] items' bk Hitems wf_by_key_nil); [|exact Hloop].
  split; [intros i []|intros k m; discriminate].
Qed.

(** X8: first non-null wins over any number of records.  In a returned
    listing each of price, beds and baths is the first value that is not
    [None] among the input records with the listing's canonical key,
    taken in arrival order, and [None] when no such record has one. *)
Theorem numeric_fields_first_non_null (items : list dict) :
  wf_items items ->
  exists items' out,
    merge_duplicates items = Ok (items', out) /\
    forall m, List.In m out ->
      exists k, get m "canonical_key" = VStr k /\
      forall f, List.In f NUMERIC_FIELDS ->
        get m f = first_non_null f (List.filter (key_is k) items).
Proof.
  intros Hitems.
  destruct (merge_duplicates_Ok items Hitems)
    as (items' & bk & out & Hloop & [Hnd Hent] & Hmerge & Hout).
  exists items', out. split; [exact Hmerge|].
  intros m Hm. apply Hout in Hm. destruct Hm as (c & Hc & _ & Hattach).
  destruct (bk_values_lookup c bk Hnd Hc) as [k Hk].
  destruct (Hent k c Hk) as [_ Hck].
  exists k. split; [by rewrite (attach_quality_get c m)|].
  destruct (first_values_loop items items' bk Hitems Hloop) as [_ Hinv].
  destruct (Hinv k c Hk) as [Hnum _].
  intros f Hf. rewrite <- (Hnum f Hf).
  apply (attach_quality_get c m f Hattach);
    intros ->; in_cases Hf; discriminate.
Qed.

Lemma numeric_fields_first_non_null_witness :
  exists items' out,
    merge_duplicates [main_realtor; half_a; main_redfin; cheap_b]
    = Ok (items', out) /\
    forall m, List.In m out ->
      exists k, get m "canonical_key" = VStr k /\
      forall f, List.In f NUMERIC_FIELDS ->
        get m f
        = first_non_null f
            (List.filter (key_is k)
               [main_realtor; half_a; main_redfin; cheap_b]).
Proof.
  apply (numeric_fields_first_non_null
           [main_realtor; half_a; main_redfin; cheap_b]).
  repeat constructor; vm_compute; reflexivity.
Defined.

(** X9: an address is adopted once and kept.  When some input record with
    the listing's canonical key has a non-empty address, the returned
    listing has the address of the first such record in arrival order;
    when none has, the listing's address is empty or [None]. *)
Theorem address_first_non_empty (items : list dict) :
  wf_items items ->
  exists items' out,
    merge_duplicates items = Ok (items', out) /\
    forall m, List.In m out ->
      exists k, get m "canonical_key" = VStr k /\
      match first_truthy "address" (List.filter (key_is k) items) with
      | Some v => get m "address" = v
      | None => truthy (get m "address") = false
      end.
Proof.
  intros Hitems.
  destruct (merge_duplicates_Ok items Hitems)
    as (items' & bk & out & Hloop & [Hnd Hent] & Hmerge & Hout).
  exists items', out. split; [exact Hmerge|].
  intros m Hm. apply Hout in Hm. destruct Hm as (c & Hc & _ & Hattach).
  destruct (bk_values_lookup c bk Hnd Hc) as [k Hk].
  destruct (Hent k c Hk) as [_ Hck].
  exists k. split; [by rewrite (attach_quality_get c m)|].
  destruct (first_values_loop items items' bk Hitems Hloop) as [_ Hinv].
  destruct (Hinv k c Hk) as [_ Haddr].
  by rewrite (attach_quality_get c m "address" Hattach).
Qed.

Lemma address_first_non_empty_witness :
  exists items' out,
    merge_duplicates [main_realtor; half_a; main_redfin]
    = Ok (items', out) /\
    forall m, List.In m out ->
      exists k, get m "canonical_key" = VStr k /\
      match first_truthy "address"
              (List.filter (key_is k) [main_realtor; half_a; main_redfin])
      with
      | Some v => get m "address" = v
      | None => truthy (get m "address") = false
      end.
Proof.
  apply (address_first_non_empty [main_realtor; half_a; main_redfin]).
  repeat constructor; vm_compute; reflexivity.
Defined.

(** ** The representative record *)

Lemma representative_step (seen : list dict) (bk : by_key_t)
    (item item' : dict) (bk' : by_key_t) :
  representative_inv seen bk -> wf_by_key bk -> wf_raw item = true ->
  merge_step bk item = Ok (item', bk') ->
  representative_inv (seen ++ [item]) bk'.
Proof.
  intros [Hseen Hinv] Hbk Hwf Hstep.
  destruct (merge_step_fields bk item Hwf Hbk)
    as (k & sc & m' & src & url & lid & Hk & Hsc & _ & _ & _ & Hstep' & Hm').
  rewrite Hstep' in Hstep. apply Ok_inj in Hstep.
  apply (f_equal snd) in Hstep. cbn [snd] in Hstep. subst bk'.
  split; [by apply seen_keys_stored_step|].
  intros k0 m0. destruct (decide (k = k0)) as [<-|Hne].
  - rewrite bk_lookup_set_eq. intros [= <-].
    destruct (bk_lookup k bk) as [cur|] eqn:Elook.
    + destruct Hm' as (stored & srcs & urls & lids & Hst & _ & _ & _
                       & _ & _ & _ & _ & HR & _).
      destruct (Hinv k cur Elook)
        as (pre & i & post & s & Hsplit & Hki & Hsi & Hrep & Hpre & Hpost).
      assert (Hs : stored = s).
      { rewrite (Hrep "match_score") in Hst by (simpl; tauto).
        unfold annotated in Hst. rewrite get_insert_eq in Hst.
        by injection Hst. }
      subst stored.
      destruct (Qlt_bool s sc) eqn:Elt.
      * apply Qlt_bool_true in Elt.
        exists seen, item, [], sc. split; [reflexivity|].
        split; [exact Hk|]. split; [exact Hsc|]. split; [exact HR|].
        split; [|intros j sj []].
        intros j sj Hj Hkj Hsj. subst seen.
        apply in_app_or in Hj. destruct Hj as [Hj|[<-|Hj]].
        -- pose proof (Hpre j sj Hj Hkj Hsj). lra.
        -- rewrite Hsi in Hsj. injection Hsj as <-. exact Elt.
        -- pose proof (Hpost j sj Hj Hkj Hsj). lra.
      * apply Qlt_bool_false in Elt.
        exists pre, i, (post ++ [item]), s. subst seen.
        split; [by rewrite <- app_assoc|].
        split; [exact Hki|]. split; [exact Hsi|].
        split; [intros f Hf; rewrite (HR f Hf); by apply Hrep|].
        split; [exact Hpre|].
        intros j sj Hj Hkj Hsj. apply in_app_or in Hj.
        destruct Hj as [Hj|[<-|[]]]; [eauto|].
        rewrite Hsc in Hsj. by injection Hsj as <-.
    + exists seen, item, [], sc. split; [reflexivity|].
      split; [exact Hk|]. split; [exact Hsc|]. subst m'.
      split; [intros f Hf; rewrite !get_insert_ne; [reflexivity | | |];
              intros E; subst f; in_cases Hf; discriminate|].
      split; [|intros j sj []].
      intros j sj Hj Hkj Hsj.
      destruct (Hseen j Hj) as (kj & Hkj' & Hin).
      rewrite Hkj in Hkj'. injection Hkj' as <-. congruence.
  - rewrite bk_lookup_set_ne by done. intros Hlook.
    destruct (Hinv k0 m0 Hlook)
      as (pre & i & post & s & Hsplit & Hki & Hsi & Hrep & Hpre & Hpost).
    exists pre, i, (post ++ [item]), s. subst seen.
    split; [by rewrite <- app_assoc|].
    split; [exact Hki|]. split; [exact Hsi|]. split; [exact Hrep|].
    split; [exact Hpre|].
    intros j sj Hj Hkj Hsj. apply in_app_or in Hj.
    destruct Hj as [Hj|[<-|[]]]; [eauto | congruence].
Qed.

Lemma representative_loop (items items' : list dict) (bk : by_key_t) :
  wf_items items -> merge_loop [] items = Ok (items', bk) ->
  representative_inv items bk.
Proof.
  intros Hitems Hloop.
  apply (merge_loop_invariant representative_inv representative_step
           items [] [] items' bk Hitems wf_by_key_nil); [|exact Hloop].
  split; [intros i []|intros k m; discriminate].
Qed.

(** X10: the representative fields of a returned listing are never mixed.
    Its property_name, city, property_type, dog_friendly, parking,
    nature_score, commute_score and match_score are all those of one
    input record with the listing's canonical key: the earliest record
    whose individual score is the greatest among the records of that
    key. *)
Theorem representative_is_earliest_best (items : list dict) :
  wf_items items ->
  exists items' out,
    merge_duplicates items = Ok (items', out) /\
    forall m, List.In m out ->
      exists k pre i post s,
        get m "canonical_key" = VStr k /\
        items = pre ++ i :: post /\
        canonical_key i = Ok k /\ score i = Ok s /\
        (forall f, List.In f REPRESENTATIVE_FIELDS ->
           get m f = get (annotated k s i) f) /\
        (forall j sj, List.In j pre -> canonical_key j = Ok k ->
                      score j = Ok sj -> (sj < s)%Q) /\
        (forall j sj, List.In j post -> canonical_key j = Ok k ->
                      score j = Ok sj -> (sj <= s)%Q).
Proof.
  intros Hitems.
  destruct (merge_duplicates_Ok items Hitems)
    as (items' & bk & out & Hloop & [Hnd Hent] & Hmerge & Hout).
  exists items', out. split; [exact Hmerge|].
  intros m Hm. apply Hout in Hm. destruct Hm as (c & Hc & _ & Hattach).
  destruct (bk_values_lookup c bk Hnd Hc) as [k Hk].
  destruct (Hent k c Hk) as [_ Hck].
  destruct (representative_loop items items' bk Hitems Hloop) as [_ Hinv].
  destruct (Hinv k c Hk)
    as (pre & i & post & s & Hsplit & Hki & Hsi & Hrep & Hpre & Hpost).
  exists k, pre, i, post, s.
  split; [by rewrite (attach_quality_get c m)|].
  do 3 (split; [assumption|]). split; [|auto].
  intros f Hf. rewrite <- (Hrep f Hf).
  apply (attach_quality_get c m f Hattach);
    intros ->; in_cases Hf; discriminate.
Qed.

Lemma representative_is_earliest_best_witness :
  exists items' out,
    merge_duplicates [low_a; main_realtor; high_b; main_redfin]
    = Ok (items', out) /\
    forall m, List.In m out ->
      exists k pre i post s,
        get m "canonical_key" = VStr k /\
        [low_a; main_realtor; high_b; main_redfin] = pre ++ i :: post /\
        canonical_key i = Ok k /\ score i = Ok s /\
        (forall f, List.In f REPRESENTATIVE_FIELDS ->
           get m f = get (annotated k s i) f) /\
        (forall j sj, List.In j pre -> canonical_key j = Ok k ->
                      score j = Ok sj -> (sj < s)%Q) /\
        (forall j sj, List.In j post -> canonical_key j = Ok k ->
                      score j = Ok sj -> (sj <= s)%Q).
Proof.
  apply (representative_is_earliest_best
           [low_a; main_realtor; high_b; main_redfin]).
  repeat constructor; vm_compute; reflexivity.
Defined.
(** * The extractor *)

(** ** Substrings *)

Lemma prefix_nil (s : string) : String.prefix "" s = true.
Proof. by destruct s. Qed.

Lemma prefix_cons (a b : ascii) (n s : string) :
  String.prefix (String a n) (String b s)
  = (Ascii.eqb a b && String.prefix n s)%bool.
Proof.
  cbn [String.prefix]. destruct (ascii_dec a b) as [->|Hne].
  - by rewrite Ascii.eqb_refl.
  - apply Ascii.eqb_neq in Hne. by rewrite Hne.
Qed.

Lemma prefix_app (n a b : string) :
  String.prefix n a = true -> String.prefix n (a +:+ b) = true.
Proof.
  revert a. induction n as [|c n IH]; intros a H.
  - apply prefix_nil.
  - destruct a as [|d a]; [discriminate|].
    rewrite prefix_cons in H. apply andb_true_iff in H as [Hc H].
    change (String d a +:+ b) with (String d (a +:+ b)).
    rewrite prefix_cons, Hc. by apply IH.
Qed.

Lemma contains_cons (n : string) (c : ascii) (h : string) :
  contains n h = true -> contains n (String c h) = true.
Proof. intros H. cbn [contains]. rewrite H. apply orb_true_r. Qed.

Lemma contains_prefix (n h : string) :
  String.prefix n h = true -> contains n h = true.
Proof. intros H. destruct h; cbn [contains]; by rewrite H. Qed.

Lemma contains_app_r (n a b : string) :
  contains n b = true -> contains n (a +:+ b) = true.
Proof.
  intros H. induction a as [|c a IH]; [exact H|].
  cbn [String.append]. by apply contains_cons.
Qed.

Lemma contains_app_l (n a b : string) :
  contains n a = true -> contains n (a +:+ b) = true.
Proof.
  induction a as [|c a IH]; intros H.
  - destruct n; [destruct b; reflexivity|discriminate].
  - cbn [contains] in H. apply orb_true_iff in H as [H|H].
    + apply contains_prefix. by apply prefix_app.
    + cbn [String.append]. apply contains_cons. by apply IH.
Qed.

Lemma lower_app (a b : string) : lower (a +:+ b) = lower a +:+ lower b.
Proof.
  induction a as [|c a IH]; [reflexivity|].
  change (lower (String c (a +:+ b))
          = String (lower_char c) (lower a +:+ lower b)).
  cbn [lower]. by rewrite IH.
Qed.

Lemma any_in_intro (k : string) (ks : list string) (t : string) :
  List.In k ks -> contains k t = true -> any_in ks t = true.
Proof. intros Hk Hc. apply existsb_exists. eauto. Qed.

(** ** Every extracted row is a raw record *)

Lemma raw_record_wf
    (id src url name addr city pt : string) (p b ba : option Q)
    (dog park : string) (n c : Q) (raw : string) :
  wf_raw (raw_record id src url name addr city pt (val_of p) (val_of b)
            (val_of ba) dog park n c raw) = true.
Proof. destruct p, b, ba; vm_compute; reflexivity. Qed.

Lemma candidate_row_wf (source html base u : string) :
  wf_raw (candidate_row source html base u) = true.
Proof.
  unfold candidate_row. destruct (parse_beds_baths _) as [b ba].
  apply raw_record_wf.
Qed.

Lemma parse_candidates_wf (source html base : string) (rows : list dict) :
  parse_candidates source html base = Ok rows -> wf_items rows.
Proof.
  unfold parse_candidates. destruct (patterns source); [|discriminate].
  intros H. apply Ok_inj in H. subst rows.
  apply List.Forall_forall. intros r Hr. apply List.in_map_iff in Hr.
  destruct Hr as (u & <- & _). apply candidate_row_wf.
Qed.

Lemma page_items_wf (fetch_html : string -> res string) (source url : string) :
  wf_items (page_items fetch_html source url).
Proof.
  unfold page_items. destruct (fetch_html url) as [html|e]; cbn [bind].
  - destruct (parse_candidates source html url) as [rows|e] eqn:E.
    + by apply parse_candidates_wf in E.
    + constructor.
  - constructor.
Qed.

Lemma wf_items_flat_map {A : Type} (f : A -> list dict) (l : list A) :
  (forall x, wf_items (f x)) -> wf_items (flat_map f l).
Proof.
  intros H. induction l as [|x l IH]; [constructor|].
  cbn [flat_map]. apply List.Forall_app. split; [apply H|exact IH].
Qed.

Lemma raw_items_wf (fetch_html : string -> res string) :
  wf_items (raw_items fetch_html).
Proof.
  apply wf_items_flat_map. intros [source urls].
  apply wf_items_flat_map. intros url. apply page_items_wf.
Qed.

(** X11: the merge of a run never raises.  Whatever the fetch returns or
    raises for each search URL, the records the loop of [run] collects
    are well-formed raw records and [merge_duplicates] returns on them. *)
Theorem run_merge_returns (fetch_html : string -> res string) :
  wf_items (raw_items fetch_html) /\
  exists items' out,
    merge_duplicates (raw_items fetch_html) = Ok (items', out).
Proof.
  pose proof (raw_items_wf fetch_html) as Hwf. split; [exact Hwf|].
  destruct (merge_duplicates_Ok _ Hwf) as (items' & bk & out & _ & _ & H & _).
  eauto.
Qed.

(** ** Matches of the candidate patterns *)

Lemma pattern_at_alt (p : pattern) (s m : string) :
  pattern_at p s = Some m ->
  exists alt r,
    List.In alt (alternatives p) /\ match_atoms alt s = Some r /\
    take_while (tail_class p) r <> "" /\
    m = take_str (List.length alt) s +:+ take_while (tail_class p) r.
Proof.
  unfold pattern_at. induction (alternatives p) as [|alt alts IH];
    cbn [first_some]; [discriminate|].
  destruct (alternative_at (tail_class p) s alt) as [m'|] eqn:E.
  - intros [= ->]. unfold alternative_at in E.
    destruct (match_atoms alt s) as [r|] eqn:Hr; [|discriminate].
    exists alt, r. split; [by left|]. split; [exact Hr|].
    destruct (take_while (tail_class p) r) eqn:Ht; [discriminate|].
    injection E as <-. split; [discriminate|reflexivity].
  - intros H. destruct (IH H) as (a & r & Ha & Hr).
    exists a, r. split; [by right|exact Hr].
Qed.

Lemma findall_from_In (p : pattern) (m s : string) (skip : nat) :
  List.In m (findall_from p skip s) -> exists s', pattern_at p s' = Some m.
Proof.
  revert skip. induction s as [|c s IH]; intros skip; cbn [findall_from];
    [intros []|].
  destruct skip as [|k]; [|apply IH].
  destruct (pattern_at p (String c s)) as [m'|] eqn:E; [|apply IH].
  intros [->|H]; [eauto|by apply IH in H].
Qed.

Lemma lits_cons (c : ascii) (l : string) :
  lits (String c l) = Lit c :: lits l.
Proof. reflexivity. Qed.

Lemma match_lits (l s r : string) :
  match_atoms (lits l) s = Some r -> s = l +:+ r.
Proof.
  revert s. induction l as [|c l IH]; intros s.
  - by intros [= ->].
  - rewrite lits_cons. cbn [match_atoms atom_matches].
    destruct s as [|d s]; [discriminate|].
    destruct (Ascii.eqb d c) eqn:E; [|discriminate].
    apply Ascii.eqb_eq in E. subst d. intros H. by rewrite (IH _ H).
Qed.

Lemma lits_length (l : string) : List.length (lits l) = String.length l.
Proof.
  induction l as [|c l IH]; [reflexivity|].
  rewrite lits_cons. cbn [List.length String.length]. by rewrite IH.
Qed.

Lemma take_str_app (l r : string) : take_str (String.length l) (l +:+ r) = l.
Proof.
  induction l as [|c l IH]; [by destruct r|].
  change (String c (take_str (String.length l) (l +:+ r)) = String c l).
  by rewrite IH.
Qed.

Lemma take_while_all (p : ascii -> bool) (s : string) :
  all_chars p (take_while p s) = true.
Proof.
  induction s as [|c s IH]; [reflexivity|]. cbn [take_while].
  destruct (p c) eqn:E; [|reflexivity]. cbn [all_chars]. by rewrite E.
Qed.

Lemma realtor_match (s m : string) :
  pattern_at REALTOR s = Some m ->
  exists slug,
    m = "/rentals/details/" +:+ slug /\ slug <> "" /\
    all_chars in_realtor_class slug = true.
Proof.
  intros H. apply pattern_at_alt in H.
  destruct H as (alt & r & Halt & Hr & Hne & ->).
  destruct Halt as [<-|[]]. apply match_lits in Hr. subst s.
  rewrite lits_length, take_str_app.
  exists (take_while in_realtor_class r).
  split; [reflexivity|]. split; [exact Hne|apply take_while_all].
Qed.

(** ** The candidates are capped and distinct *)

Lemma existsb_eqb_In (x : string) (l : list string) :
  existsb (String.eqb x) l = true <-> List.In x l.
Proof.
  rewrite existsb_exists. split.
  - intros (y & Hy & E). apply String.eqb_eq in E. by subst.
  - intros H. exists x. split; [exact H|apply String.eqb_refl].
Qed.

Lemma fromkeys_NoDup (l : list string) : List.NoDup (fromkeys l).
Proof.
  induction l as [|x l IH] using rev_ind; [constructor|].
  rewrite fromkeys_snoc.
  destruct (existsb (String.eqb x) (fromkeys l)) eqn:E; [exact IH|].
  apply NoDup_ListNoDup, NoDup_app.
  split; [by apply NoDup_ListNoDup|]. split.
  - intros y Hy Hx. apply list_elem_of_singleton in Hx. subst y.
    apply list_elem_of_In, existsb_eqb_In in Hy. congruence.
  - apply NoDup_singleton.
Qed.

Lemma fromkeys_In (x : string) (l : list string) :
  List.In x (fromkeys l) -> List.In x l.
Proof.
  induction l as [|y l IH] using rev_ind; [intros []|].
  rewrite fromkeys_snoc, in_app_iff.
  destruct (existsb (String.eqb y) (fromkeys l)); [by left; apply IH|].
  rewrite in_app_iff. intros [H|H]; [left; by apply IH|by right].
Qed.

Lemma firstn_NoDup {A : Type} (n : nat) (l : list A) :
  List.NoDup l -> List.NoDup (firstn n l).
Proof.
  rewrite <- !NoDup_ListNoDup. intros H.
  eapply sublist_NoDup; [exact H|apply (sublist_take l n)].
Qed.

Lemma firstn_In {A : Type} (n : nat) (x : A) (l : list A) :
  List.In x (firstn n l) -> List.In x l.
Proof.
  revert l. induction n as [|n IH]; intros [|y l]; cbn; try tauto.
  intros [->|H]; [by left|right; by apply IH].
Qed.

Lemma map_NoDup_on {A B : Type} (f : A -> B) (l : list A) :
  (forall x y, List.In x l -> List.In y l -> f x = f y -> x = y) ->
  List.NoDup l -> List.NoDup (map f l).
Proof.
  intros Hinj Hnd. induction Hnd as [|x l Hx Hnd IH]; [constructor|].
  cbn [map]. apply List.NoDup_cons.
  - intros Hin. apply in_map_iff in Hin. destruct Hin as (y & E & Hy).
    apply Hx.
    rewrite <- (Hinj y x); [exact Hy|by right|by left|exact E].
  - apply IH. intros a b Ha Hb. apply Hinj; by right.
Qed.

Lemma raw_record_reads
    (id src url name addr city pt : string) (p b ba : val)
    (dog park : string) (n c : Q) (raw : string) :
  let r := raw_record id src url name addr city pt p b ba dog park n c raw in
  get r "listing_id" = VStr id /\ get r "source" = VStr src /\
  get r "url" = VStr url /\ get r "property_name" = VStr name /\
  get r "address" = VStr addr /\ get r "city" = VStr city /\
  get r "property_type" = VStr pt /\
  get r "price" = p /\ get r "beds" = b /\ get r "baths" = ba /\
  get r "dog_friendly" = VStr dog /\ get r "parking" = VStr park /\
  get r "nature_score" = VNum n /\ get r "commute_score" = VNum c /\
  get r "raw" = VStr raw.
Proof. vm_compute. repeat split. Qed.

Ltac row_reads H :=
  unfold candidate_row; cbv zeta;
  destruct (parse_beds_baths _) as [? ?];
  match goal with
  | |- context [raw_record ?a1 ?a2 ?a3 ?a4 ?a5 ?a6 ?a7 ?a8 ?a9 ?a10 ?a11
                  ?a12 ?a13 ?a14 ?a15] =>
      pose proof (raw_record_reads a1 a2 a3 a4 a5 a6 a7 a8 a9 a10 a11 a12
                    a13 a14 a15) as H;
      cbv zeta in H
  end.

Lemma candidate_row_ids (source html base u : string) :
  get (candidate_row source html base u) "url"
  = VStr (absolute_url source u) /\
  get (candidate_row source html base u) "listing_id"
  = VStr (quote (absolute_url source u)) /\
  get (candidate_row source html base u) "source" = VStr source.
Proof. row_reads H. tauto. Qed.

Lemma unquote_quote_char (c : ascii) (r : string) :
  unquote_head (quote_char c +:+ r) = Some (c, r).
Proof.
  destruct c as [b0 b1 b2 b3 b4 b5 b6 b7].
  destruct b0, b1, b2, b3, b4, b5, b6, b7; vm_compute; reflexivity.
Qed.

Lemma quote_inj (a b : string) : quote a = quote b -> a = b.
Proof.
  revert b. induction a as [|c a IH]; intros [|d b] H; cbn [quote] in H.
  - reflexivity.
  - apply (f_equal unquote_head) in H. rewrite unquote_quote_char in H.
    discriminate.
  - apply (f_equal unquote_head) in H. rewrite unquote_quote_char in H.
    discriminate.
  - apply (f_equal unquote_head) in H. rewrite !unquote_quote_char in H.
    injection H as -> H. by rewrite (IH _ H).
Qed.

Lemma append_inj_l (p a b : string) : p +:+ a = p +:+ b -> a = b.
Proof. induction p as [|c p IH]; [done|]. intros [= H]. by apply IH. Qed.

Lemma patterns_realtor (source : string) (p : pattern) :
  String.eqb source "realtor" = true -> patterns source = Some p ->
  p = REALTOR.
Proof. intros E. apply String.eqb_eq in E. subst. by intros [= <-]. Qed.

Lemma absolute_url_inj (source : string) (p : pattern) (html : string)
    (x y : string) :
  patterns source = Some p ->
  List.In x (findall p html) -> List.In y (findall p html) ->
  absolute_url source x = absolute_url source y -> x = y.
Proof.
  intros Hp Hx Hy. unfold absolute_url.
  destruct (String.eqb source "realtor") eqn:E; cbn [andb]; [|done].
  rewrite (patterns_realtor source p E Hp) in Hx, Hy.
  apply findall_from_In in Hx, Hy.
  destruct Hx as (sx & Hx). destruct Hy as (sy & Hy).
  apply realtor_match in Hx, Hy.
  destruct Hx as (gx & -> & _). destruct Hy as (gy & -> & _).
  cbn -[String.append]. apply append_inj_l.
Qed.

(** X12: the candidates of a page are capped and distinct.  At most 100
    rows are extracted; no two of them have the same URL or the same
    listing id, and each carries the source tag of the page. *)
Theorem candidates_capped_distinct
    (source html base : string) (rows : list dict) :
  parse_candidates source html base = Ok rows ->
  List.length rows <= 100 /\
  List.NoDup (map (fun r => get r "url") rows) /\
  List.NoDup (map (fun r => get r "listing_id") rows) /\
  List.Forall (fun r => get r "source" = VStr source) rows.
Proof.
  unfold parse_candidates. destruct (patterns source) as [p|] eqn:Hp;
    [|discriminate].
  intros H. apply Ok_inj in H. subst rows.
  set (urls := firstn 100 (fromkeys (findall p html))).
  assert (Hnd : List.NoDup urls)
    by apply firstn_NoDup, fromkeys_NoDup.
  assert (Hin : forall u, List.In u urls -> List.In u (findall p html))
    by (intros u Hu; by apply fromkeys_In, (firstn_In 100)).
  assert (Hinj : forall x y, List.In x urls -> List.In y urls ->
                   absolute_url source x = absolute_url source y -> x = y)
    by (intros x y Hx Hy; apply (absolute_url_inj source p html); auto).
  split; [|split; [|split]].
  - rewrite length_map. apply firstn_le_length.
  - rewrite map_map. apply map_NoDup_on; [|exact Hnd].
    intros x y Hx Hy E.
    rewrite (proj1 (candidate_row_ids source html base x)) in E.
    rewrite (proj1 (candidate_row_ids source html base y)) in E.
    injection E as E. by apply Hinj.
  - rewrite map_map. apply map_NoDup_on; [|exact Hnd].
    intros x y Hx Hy E.
    rewrite (proj1 (proj2 (candidate_row_ids source html base x))) in E.
    rewrite (proj1 (proj2 (candidate_row_ids source html base y))) in E.
    injection E as E. apply quote_inj in E. by apply Hinj.
  - apply List.Forall_forall. intros r Hr. apply in_map_iff in Hr.
    destruct Hr as (u & <- & _). apply candidate_row_ids.
Qed.

Lemma candidates_capped_distinct_witness :
  exists rows,
    parse_candidates "realtor"
      "<a href=/rentals/details/12-Oak-Ct_Cupertino>x</a> <a href=/rentals/details/12-Oak-Ct_Cupertino>"
      "https://www.realtor.com/apartments/Saratoga_CA" = Ok rows /\
    List.length rows <= 100 /\
    List.NoDup (map (fun r => get r "url") rows) /\
    List.NoDup (map (fun r => get r "listing_id") rows) /\
    List.Forall (fun r => get r "source" = VStr "realtor") rows.
Proof.
  eexists. split; [reflexivity|].
  apply (candidates_capped_distinct "realtor"
           "<a href=/rentals/details/12-Oak-Ct_Cupertino>x</a> <a href=/rentals/details/12-Oak-Ct_Cupertino>"
           "https://www.realtor.com/apartments/Saratoga_CA").
  reflexivity.
Defined.

(** ** The escaped patterns *)

Lemma match_atoms_has_lit (pre : list atom) (c : ascii) (post : list atom)
    (s r : string) :
  match_atoms (pre ++ Lit c :: post) s = Some r ->
  contains (String c "") s = true.
Proof.
  revert s. induction pre as [|a pre IH]; intros s; cbn [app match_atoms].
  - destruct s as [|d s]; [discriminate|]. cbn [atom_matches].
    destruct (Ascii.eqb d c) eqn:E; [|discriminate]. intros _.
    apply Ascii.eqb_eq in E. subst d. apply contains_prefix.
    rewrite prefix_cons, Ascii.eqb_refl. apply prefix_nil.
  - destruct s as [|d s]; [discriminate|].
    destruct (atom_matches a d); [|discriminate].
    intros H. apply contains_cons. by apply IH.
Qed.

Lemma contains_tail (n : string) (c : ascii) (s : string) :
  contains n (String c s) = false -> contains n s = false.
Proof. cbn [contains]. intros H. by apply orb_false_iff in H as [_ H]. Qed.

Lemma findall_needs_char (p : pattern) (c : ascii) :
  (forall alt, List.In alt (alternatives p) ->
     exists pre post, alt = pre ++ Lit c :: post) ->
  forall s skip, contains (String c "") s = false -> findall_from p skip s = [].
Proof.
  intros Halt s. induction s as [|d s IH]; intros skip Hs; [reflexivity|].
  pose proof (contains_tail _ _ _ Hs) as Htl. cbn [findall_from].
  destruct skip as [|k]; [|by apply IH].
  destruct (pattern_at p (String d s)) as [m|] eqn:E; [|by apply IH].
  apply pattern_at_alt in E. destruct E as (alt & r & Hin & Hr & _).
  destruct (Halt alt Hin) as (pre & post & ->).
  apply match_atoms_has_lit in Hr. congruence.
Qed.

Lemma escaped_sources_empty (source html base : string) :
  List.In source ["zillow"; "redfin"] ->
  contains (String backslash "") html = false ->
  parse_candidates source html base = Ok [].
Proof.
  intros Hsrc Hno.
  assert (Hall : forall p, patterns source = Some p ->
                   findall p html = []).
  { intros p Hp. apply (findall_needs_char p backslash); [|exact Hno].
    intros alt Halt.
    destruct Hsrc as [<-|[<-|[]]]; injection Hp as <-.
    - destruct Halt as [<-|[<-|[]]];
        exists (lits "https://www"); eexists; reflexivity.
    - destruct Halt as [<-|[]].
      exists (lits "https://www"); eexists; reflexivity. }
  unfold parse_candidates.
  destruct (patterns source) as [p|] eqn:Hp.
  - by rewrite (Hall p eq_refl).
  - destruct Hsrc as [<-|[<-|[]]]; discriminate.
Qed.

(** X13: the zillow and redfin patterns need a backslash.  Their dots
    are written with a doubled backslash in a raw string, so a link
    matches only where a backslash stands before the dot: a page without
    any backslash yields no candidate, whatever links it has. *)
Theorem escaped_patterns_need_backslash (source html base : string) :
  List.In source ["zillow"; "redfin"] ->
  contains (String backslash "") html = false ->
  parse_candidates source html base = Ok [].
Proof.
  intros Hsource Hplain. by apply escaped_sources_empty.
Qed.

Lemma escaped_patterns_need_backslash_witness :
  parse_candidates "redfin"
    "<a href=https://www.redfin.com/CA/Los-Gatos/12-Oak-Ct/home/1>12 Oak Ct</a>"
    "https://www.redfin.com/city/14972/CA/Los-Gatos/apartments-for-rent"
  = Ok [].
Proof.
  apply (escaped_patterns_need_backslash "redfin"
    "<a href=https://www.redfin.com/CA/Los-Gatos/12-Oak-Ct/home/1>12 Oak Ct</a>"
    "https://www.redfin.com/city/14972/CA/Los-Gatos/apartments-for-rent").
  - simpl. tauto.
  - vm_compute. reflexivity.
Defined.

(** ** Realtor links *)

Lemma prefix_split (m s : string) :
  String.prefix m s = true -> exists r, s = m +:+ r.
Proof.
  revert s. induction m as [|c m IH]; intros s H; [by exists s|].
  destruct s as [|d s]; [discriminate|].
  rewrite prefix_cons in H. apply andb_true_iff in H as [Hc H].
  apply Ascii.eqb_eq in Hc. subst d.
  destruct (IH _ H) as [r ->]. by exists r.
Qed.

Lemma realtor_class_no_s (slug : string) :
  all_chars in_realtor_class slug = true -> contains "s" slug = false.
Proof.
  induction slug as [|c slug IH]; [reflexivity|]. cbn [all_chars].
  intros H. apply andb_true_iff in H as [Hc H].
  cbn [contains]. rewrite (IH H), orb_false_r, prefix_cons.
  destruct (Ascii.eqb "s" c) eqn:E; [|reflexivity].
  apply Ascii.eqb_eq in E. subst c. discriminate Hc.
Qed.

Lemma marker_needs_s (m s : string) :
  contains "s" m = true -> contains "s" s = false ->
  String.prefix m s = false.
Proof.
  intros Hm Hs. destruct (String.prefix m s) eqn:E; [|reflexivity].
  destruct (prefix_split _ _ E) as [r ->].
  by rewrite (contains_app_l _ _ r Hm) in Hs.
Qed.

Lemma slug_at_needs_s (m : string) (stop : ascii -> bool) (closed : bool)
    (s : string) :
  contains "s" m = true -> contains "s" s = false ->
  slug_at m stop closed s = None.
Proof. intros Hm Hs. unfold slug_at. by rewrite marker_needs_s. Qed.

Lemma search_first_none {A : Type} (f : string -> option A) (s : string) :
  (forall t, contains "s" t = false -> f t = None) ->
  contains "s" s = false -> search_first f s = None.
Proof.
  intros Hf. induction s as [|c s IH]; intros Hs; cbn [search_first].
  - by rewrite Hf.
  - rewrite (Hf _ Hs). apply IH. by apply contains_tail in Hs.
Qed.

Lemma search_first_skip {A : Type} (f : string -> option A) (c : ascii)
    (s : string) :
  f (String c s) = None -> search_first f (String c s) = search_first f s.
Proof. intros H. cbn [search_first]. by rewrite H. Qed.

Lemma search_first_cons {A : Type} (f : string -> option A) (c : ascii)
    (s : string) :
  search_first f (String c s)
  = match f (String c s) with
    | Some r => Some r
    | None => search_first f s
    end.
Proof. reflexivity. Qed.

Lemma slash_then_no_s (m : string) (stop : ascii -> bool) (closed : bool)
    (slug : string) :
  contains "s" m = true -> contains "s" slug = false ->
  slug_at (String "/" m) stop closed (String "/" slug) = None.
Proof.
  intros Hm Hs. unfold slug_at.
  by rewrite prefix_cons, Ascii.eqb_refl, (marker_needs_s m slug Hm Hs).
Qed.

Lemma name_at_no_s (s : string) :
  contains "s" s = false -> name_at s = None.
Proof.
  intros Hs. unfold name_at. by rewrite !slug_at_needs_s.
Qed.

Lemma name_at_slash (slug : string) :
  contains "s" slug = false -> name_at (String "/" slug) = None.
Proof.
  intros Hs. unfold name_at.
  rewrite (slash_then_no_s "apartments/"), (slash_then_no_s "details/");
    done.
Qed.

Lemma realtor_class_segment (slug : string) :
  all_chars in_realtor_class slug = true ->
  take_while (fun c => negb (is_slash_or_query c)) slug
  = take_while (fun c => negb (is_slash c)) slug.
Proof.
  induction slug as [|c slug IH]; [reflexivity|]. cbn [all_chars].
  intros H. apply andb_true_iff in H as [Hc H]. cbn [take_while].
  rewrite (IH H). unfold is_slash_or_query, is_slash.
  unfold in_realtor_class in Hc. apply andb_true_iff in Hc as [_ Hq].
  apply negb_true_iff in Hq. by rewrite Hq, orb_false_r.
Qed.

Lemma prefix_self (m s : string) : String.prefix m (m +:+ s) = true.
Proof. apply prefix_app. induction m as [|c m IH]; [reflexivity|].
  by rewrite prefix_cons, Ascii.eqb_refl. Qed.

Lemma drop_str_app (m s : string) : drop_str (String.length m) (m +:+ s) = s.
Proof. induction m as [|c m IH]; [by destruct s|exact IH]. Qed.

Lemma slug_at_marker (m : string) (stop : ascii -> bool) (s : string) :
  slug_at m stop false (m +:+ s)
  = match take_while (fun c => negb (stop c)) s with
    | "" => None
    | g => Some g
    end.
Proof.
  unfold slug_at. rewrite prefix_self, drop_str_app.
  by destruct (take_while (fun c => negb (stop c)) s).
Qed.

Ltac skip_heads := repeat (rewrite search_first_skip by reflexivity).

(** The first segment of the slug, which is the match of the details
    pattern in a realtor link. *)
Lemma details_of_realtor_link (slug : string) :
  contains "s" slug = false ->
  search_first (slug_at "/details/" is_slash_or_query false)
    (REALTOR_DETAILS +:+ slug)
  = match take_while (fun c => negb (is_slash_or_query c)) slug with
    | "" => None
    | g => Some g
    end.
Proof.
  intros Hs. unfold REALTOR_DETAILS.
  cbv beta iota fix delta [String.append]. skip_heads.
  rewrite search_first_cons.
  change (String "/" (String "d" (String "e" (String "t" (String "a"
            (String "i" (String "l" (String "s" (String "/" slug)))))))))
    with ("/details/" +:+ slug) at 1.
  rewrite slug_at_marker.
  destruct (take_while (fun c => negb (is_slash_or_query c)) slug) as [|c g];
    [|reflexivity].
  skip_heads.
  rewrite search_first_skip by (by apply (slash_then_no_s "details/")).
  apply search_first_none; [|exact Hs].
  intros t Ht. by apply slug_at_needs_s.
Qed.

Lemma homedetails_of_realtor_link (slug : string) :
  contains "s" slug = false ->
  search_first (slug_at "/homedetails/" is_slash true)
    (REALTOR_DETAILS +:+ slug) = None.
Proof.
  intros Hs. unfold REALTOR_DETAILS.
  cbv beta iota fix delta [String.append]. skip_heads.
  rewrite search_first_skip by (by apply (slash_then_no_s "homedetails/")).
  apply search_first_none; [|exact Hs].
  intros t Ht. by apply slug_at_needs_s.
Qed.

Lemma name_of_realtor_link (slug : string) :
  contains "s" slug = false ->
  search_first name_at (REALTOR_DETAILS +:+ slug)
  = match take_while (fun c => negb (is_slash_or_query c)) slug with
    | "" => None
    | g => Some g
    end.
Proof.
  intros Hs. unfold REALTOR_DETAILS.
  cbv beta iota fix delta [String.append]. skip_heads.
  rewrite search_first_cons.
  change (name_at (String "/" (String "d" (String "e" (String "t" (String "a"
            (String "i" (String "l" (String "s" (String "/" slug))))))))))
    with (slug_at "/details/" is_slash_or_query false ("/details/" +:+ slug)).
  rewrite slug_at_marker.
  destruct (take_while (fun c => negb (is_slash_or_query c)) slug) as [|c g];
    [|reflexivity].
  skip_heads.
  rewrite search_first_skip by (by apply name_at_slash).
  apply search_first_none; [|exact Hs].
  intros t Ht. by apply name_at_no_s.
Qed.

Lemma replace_char_comm (g : string) :
  replace_char "_" " " (replace_char "-" " " g)
  = replace_char "-" " " (replace_char "_" " " g).
Proof.
  induction g as [|c g IH]; [reflexivity|]. cbn [replace_char].
  rewrite IH. f_equal.
  destruct (Ascii.eqb c "-") eqn:E1.
  - apply Ascii.eqb_eq in E1. by subst c.
  - destruct (Ascii.eqb c "_") eqn:E2; [reflexivity|]. by rewrite E1.
Qed.

Lemma absolute_realtor (slug : string) :
  absolute_url "realtor" ("/rentals/details/" +:+ slug)
  = REALTOR_DETAILS +:+ slug.
Proof. reflexivity. Qed.

Lemma candidate_row_texts (source html base u : string) :
  get (candidate_row source html base u) "address"
  = VStr (take_str 220 (address_from_url (absolute_url source u))) /\
  get (candidate_row source html base u) "property_name"
  = VStr (take_str 220
            match search_first name_at (absolute_url source u) with
            | Some g => replace_char "_" " " (replace_char "-" " " g)
            | None => ""
            end).
Proof. row_reads H. tauto. Qed.

(** X14: what a realtor link gives.  Every row extracted for the source
    "realtor" has the URL [https://www.realtor.com/rentals/details/]
    followed by a slug that is not empty and has none of the characters
    the pattern's class excludes, among them the lower-case letter [s],
    where the match stops; its address and its property name are the
    same text, the slug up to its first slash with hyphens and
    underscores turned into spaces, cut at 220 characters. *)
Theorem realtor_links (html base : string) (rows : list dict) :
  parse_candidates "realtor" html base = Ok rows ->
  List.Forall
    (fun r => exists slug,
       get r "url" = VStr (REALTOR_DETAILS +:+ slug) /\ slug <> "" /\
       all_chars in_realtor_class slug = true /\
       get r "address"
       = VStr (take_str 220
                 (replace_char "-" " "
                    (replace_char "_" " "
                       (take_while (fun c => negb (is_slash c)) slug)))) /\
       get r "property_name" = get r "address")
    rows.
Proof.
  intros H. apply Ok_inj in H. subst rows.
  apply List.Forall_forall. intros r Hr. apply in_map_iff in Hr.
  destruct Hr as (u & <- & Hu).
  apply firstn_In, fromkeys_In, findall_from_In in Hu.
  destruct Hu as (s & Hu). apply realtor_match in Hu.
  destruct Hu as (slug & -> & Hne & Hcls).
  pose proof (realtor_class_no_s slug Hcls) as Hs.
  destruct (candidate_row_ids "realtor" html base
              ("/rentals/details/" +:+ slug)) as (Hurl & _).
  destruct (candidate_row_texts "realtor" html base
              ("/rentals/details/" +:+ slug)) as (Haddr & Hname).
  rewrite absolute_realtor in Hurl, Haddr, Hname.
  unfold address_from_url in Haddr.
  rewrite (homedetails_of_realtor_link slug Hs),
    (details_of_realtor_link slug Hs), (realtor_class_segment slug Hcls)
    in Haddr.
  rewrite (name_of_realtor_link slug Hs), (realtor_class_segment slug Hcls)
    in Hname.
  exists slug. split; [exact Hurl|]. split; [exact Hne|].
  split; [exact Hcls|].
  rewrite Haddr, Hname.
  destruct (take_while (fun c => negb (is_slash c)) slug) as [|c g];
    [done|].
  by rewrite replace_char_comm.
Qed.

Lemma realtor_links_witness :
  exists rows,
    parse_candidates "realtor"
      "<a href=/rentals/details/123-Main-St_Los-Gatos_CA_95030>"
      "https://www.realtor.com/apartments/Los-Gatos_CA" = Ok rows /\
    List.Forall
      (fun r => exists slug,
         get r "url" = VStr (REALTOR_DETAILS +:+ slug) /\ slug <> "" /\
         all_chars in_realtor_class slug = true /\
         get r "address"
         = VStr (take_str 220
                   (replace_char "-" " "
                      (replace_char "_" " "
                         (take_while (fun c => negb (is_slash c)) slug)))) /\
         get r "property_name" = get r "address")
      rows.
Proof.
  eexists. split; [reflexivity|].
  apply (realtor_links
           "<a href=/rentals/details/123-Main-St_Los-Gatos_CA_95030>"
           "https://www.realtor.com/apartments/Los-Gatos_CA").
  reflexivity.
Defined.

(** ** Realtor pages with relative links *)

Lemma prefix_app_inv (p x s : string) :
  String.prefix (p +:+ x) s = true -> String.prefix p s = true.
Proof.
  revert s. induction p as [|c p IH]; intros s H; [apply prefix_nil|].
  destruct s as [|d s]; [discriminate|].
  change (String c p +:+ x) with (String c (p +:+ x)) in H.
  rewrite prefix_cons in *. apply andb_true_iff in H as [-> H].
  by rewrite (IH _ H).
Qed.

Lemma contains_longer (p x h : string) :
  contains p h = false -> contains (p +:+ x) h = false.
Proof.
  induction h as [|c h IH]; cbn [contains]; intros H;
    apply orb_false_iff in H as [Hp Hh].
  - rewrite orb_false_r.
    destruct (String.prefix (p +:+ x) "") eqn:E; [|reflexivity].
    apply prefix_app_inv in E. congruence.
  - rewrite (IH Hh), orb_false_r.
    destruct (String.prefix (p +:+ x) (String c h)) eqn:E; [|reflexivity].
    apply prefix_app_inv in E. congruence.
Qed.

Lemma window_absent (u html : string) :
  contains u html = false -> window u html = "".
Proof.
  intros H. unfold window.
  assert (E : search_first (window_at u) html = None); [|by rewrite E].
  induction html as [|c h IH]; cbn [contains] in H;
    apply orb_false_iff in H as [Hp Hh]; cbn [search_first];
    unfold window_at at 1; rewrite Hp; [reflexivity|by apply IH].
Qed.

Lemma candidate_row_blank (source html base u : string) :
  window (absolute_url source u) html = "" ->
  let r := candidate_row source html base u in
  get r "raw" = VStr "" /\ get r "price" = VNone /\ get r "beds" = VNone /\
  get r "baths" = VNone /\ get r "dog_friendly" = VStr "maybe" /\
  get r "parking" = VStr "maybe".
Proof.
  intros Hw. unfold candidate_row. cbv zeta. rewrite Hw.
  change (parse_beds_baths "") with (@None Q, @None Q).
  change (norm_price "") with (@None Q).
  change (search_words DOG_WORDS "") with false.
  change (search_words PARKING_WORDS "") with false.
  cbv beta iota.
  match goal with
  | |- context [raw_record ?a1 ?a2 ?a3 ?a4 ?a5 ?a6 ?a7 ?a8 ?a9 ?a10 ?a11
                  ?a12 ?a13 ?a14 ?a15] =>
      pose proof (raw_record_reads a1 a2 a3 a4 a5 a6 a7 a8 a9 a10 a11 a12
                    a13 a14 a15) as H;
      cbv zeta in H
  end.
  cbn [val_of] in H. tauto.
Qed.

Lemma first_non_null_none (f : string) (l : list dict) :
  List.Forall (fun r => get r f = VNone) l -> first_non_null f l = VNone.
Proof.
  unfold first_non_null. induction 1 as [|r l Hr Hl IH]; [reflexivity|].
  cbn [fold_right]. by rewrite Hr.
Qed.

Lemma missing_price_fails (c m : dict) :
  attach_quality c = Ok m -> get c "price" = VNone ->
  get m "data_quality" = VStr "fail".
Proof.
  intros H Hp. apply attach_quality_Ok in H.
  destruct H as (q & notes & Hq & ->). read_writes.
  unfold quality_assessment, quality_reasons in Hq. rewrite Hp in Hq.
  destruct (ptype_of c) as [pt|e]; [|discriminate]. cbn [bind] in Hq.
  unfold append_if in Hq. cbn [is_none] in Hq.
  destruct (negb (truthy (get c "canonical_key")));
    destruct (negb (truthy (py_or (get c "address")
                                  (get c "property_name"))));
    destruct (negb (truthy (get c "sources")));
    destruct (is_none (get c "beds")); destruct (is_none (get c "baths"));
    destruct (negb (allowed_type pt)); cbn [app] in Hq;
    by injection Hq as <- _.
Qed.

Lemma realtor_rows_blank (html base : string) (rows : list dict) :
  contains REALTOR_DETAILS html = false ->
  parse_candidates "realtor" html base = Ok rows ->
  List.Forall
    (fun r => get r "raw" = VStr "" /\ get r "price" = VNone /\
              get r "beds" = VNone /\ get r "baths" = VNone /\
              get r "dog_friendly" = VStr "maybe" /\
              get r "parking" = VStr "maybe")
    rows.
Proof.
  intros Habs H. apply Ok_inj in H. subst rows.
  apply List.Forall_forall. intros r Hr. apply in_map_iff in Hr.
  destruct Hr as (u & <- & Hu).
  apply firstn_In, fromkeys_In, findall_from_In in Hu.
  destruct Hu as (s & Hu). apply realtor_match in Hu.
  destruct Hu as (slug & -> & _).
  apply candidate_row_blank. rewrite absolute_realtor.
  apply window_absent. by apply contains_longer.
Qed.

Lemma priceless_rows_fail (rows : list dict) :
  wf_items rows ->
  List.Forall (fun r => get r "price" = VNone) rows ->
  exists items' out,
    merge_duplicates rows = Ok (items', out) /\
    List.Forall (fun m => get m "data_quality" = VStr "fail") out.
Proof.
  intros Hwf Hblank.
  destruct (merge_duplicates_Ok rows Hwf)
    as (items' & bk & out & Hloop & [Hnd Hent] & Hmerge & Hout).
  exists items', out. split; [exact Hmerge|].
  apply List.Forall_forall. intros m Hm. apply Hout in Hm.
  destruct Hm as (c & Hc & _ & Hattach).
  destruct (bk_values_lookup c bk Hnd Hc) as [k Hk].
  destruct (first_values_loop rows items' bk Hwf Hloop) as [_ Hinv].
  destruct (Hinv k c Hk) as [Hnum _].
  apply (missing_price_fails c m Hattach).
  rewrite (Hnum "price"); [|by left].
  apply first_non_null_none, List.Forall_forall. intros r Hr.
  apply filter_In in Hr. destruct Hr as [Hr _].
  rewrite List.Forall_forall in Hblank. by apply Hblank.
Qed.

(** X15: a realtor page with relative links gives nothing to show.  The
    text window of a candidate is searched for at the absolute URL; when
    the page nowhere has [https://www.realtor.com/rentals/details/], as
    is the case when its links are the relative paths the pattern looks
    for, every row has an empty window, no price, beds or baths and
    "maybe" for both amenities, and every listing the merge returns for
    these rows fails the quality gate. *)
Theorem relative_realtor_links_fail (html base : string) (rows : list dict) :
  contains REALTOR_DETAILS html = false ->
  parse_candidates "realtor" html base = Ok rows ->
  List.Forall
    (fun r => get r "raw" = VStr "" /\ get r "price" = VNone /\
              get r "beds" = VNone /\ get r "baths" = VNone /\
              get r "dog_friendly" = VStr "maybe" /\
              get r "parking" = VStr "maybe")
    rows /\
  exists items' out,
    merge_duplicates rows = Ok (items', out) /\
    List.Forall (fun m => get m "data_quality" = VStr "fail") out.
Proof.
  intros Habs Hrows.
  pose proof (realtor_rows_blank html base rows Habs Hrows) as Hblank.
  split; [exact Hblank|].
  apply priceless_rows_fail; [by apply parse_candidates_wf in Hrows|].
  apply (List.Forall_impl _ (P := fun r => _ /\ _)) with (2 := Hblank).
  tauto.
Qed.

Lemma relative_realtor_links_fail_witness :
  exists rows,
    parse_candidates "realtor"
      "<a href=/rentals/details/12-Oak-Ct_Cupertino>$4,500 3 bd 2 ba</a>"
      "https://www.realtor.com/apartments/Saratoga_CA" = Ok rows /\
    List.Forall
      (fun r => get r "raw" = VStr "" /\ get r "price" = VNone /\
                get r "beds" = VNone /\ get r "baths" = VNone /\
                get r "dog_friendly" = VStr "maybe" /\
                get r "parking" = VStr "maybe")
      rows /\
    exists items' out,
      merge_duplicates rows = Ok (items', out) /\
      List.Forall (fun m => get m "data_quality" = VStr "fail") out.
Proof.
  eexists. split; [reflexivity|].
  apply (relative_realtor_links_fail
           "<a href=/rentals/details/12-Oak-Ct_Cupertino>$4,500 3 bd 2 ba</a>"
           "https://www.realtor.com/apartments/Saratoga_CA").
  - vm_compute. reflexivity.
  - reflexivity.
Defined.

(** ** A run on pages without escapes *)

Lemma page_items_priceless (fetch_html : string -> res string)
    (source url : string) :
  List.In source ["redfin"; "realtor"] ->
  (forall html, fetch_html url = Ok html ->
     contains (String backslash "") html = false /\
     contains REALTOR_DETAILS html = false) ->
  List.Forall (fun r => get r "price" = VNone)
    (page_items fetch_html source url).
Proof.
  intros Hsrc Hplain. unfold page_items.
  destruct (fetch_html url) as [html|e]; cbn [bind]; [|constructor].
  destruct (Hplain html eq_refl) as [Hbs Habs].
  destruct Hsrc as [<-|[<-|[]]].
  - rewrite escaped_sources_empty; [constructor|simpl; tauto|exact Hbs].
  - destruct (parse_candidates "realtor" html url) as [rows|e] eqn:E;
      [|constructor].
    apply (List.Forall_impl _ (P := fun r => _ /\ _))
      with (2 := realtor_rows_blank html url rows Habs E).
    tauto.
Qed.

(** X16: a run on pages without escapes passes nothing.  When no page
    the fetch returns has a backslash or an absolute realtor details
    URL, the redfin pages give no record and the realtor pages give
    records without a price, so the merge of the run returns only
    listings that fail the quality gate: none is counted as passing and
    none is sent to the store. *)
Theorem plain_pages_pass_nothing (fetch_html : string -> res string) :
  (forall url html, fetch_html url = Ok html ->
     contains (String backslash "") html = false /\
     contains REALTOR_DETAILS html = false) ->
  exists items' out,
    merge_duplicates (raw_items fetch_html) = Ok (items', out) /\
    List.Forall (fun m => get m "data_quality" = VStr "fail") out.
Proof.
  intros Hplain. apply priceless_rows_fail; [apply raw_items_wf|].
  unfold raw_items, SEARCH_URLS. cbn [flat_map fst snd].
  repeat (apply List.Forall_app; split); try constructor;
    (apply page_items_priceless; [simpl; tauto|apply Hplain]).
Qed.

Lemma plain_pages_pass_nothing_witness :
  exists items' out,
    merge_duplicates
      (raw_items
         (fun _ => Ok "<a href=/rentals/details/12-Oak-Ct_Cupertino>$4,500</a>"))
    = Ok (items', out) /\
    List.Forall (fun m => get m "data_quality" = VStr "fail") out.
Proof.
  apply (plain_pages_pass_nothing
           (fun _ => Ok "<a href=/rentals/details/12-Oak-Ct_Cupertino>$4,500</a>")).
  intros url html E. apply Ok_inj in E. subst html.
  vm_compute. split; reflexivity.
Defined.

(** ** The rows stay within the data model *)

Lemma take_str_length (n : nat) (s : string) :
  String.length (take_str n s) <= n.
Proof.
  revert s. induction n as [|n IH]; intros [|c s]; cbn; try lia.
  specialize (IH s). lia.
Qed.

Lemma infer_property_type_range (raw url name : string) :
  List.In (infer_property_type raw url name)
    ["townhouse"; "house"; "apartment"; "condo"; "unknown"].
Proof.
  unfold infer_property_type.
  repeat match goal with
         | |- context [if ?b then _ else _] => destruct b
         end; simpl; tauto.
Qed.

Lemma infer_city_range (text : string) :
  List.In (infer_city text)
    ["Woodside"; "Portola Valley"; "Los Altos Hills"; "Saratoga";
     "Los Gatos"; "Cupertino"; "Redwood City"; "San Jose"; "Mountain View";
     "Sunnyvale"; ""].
Proof.
  unfold infer_city, AREAS. cbn [List.find].
  repeat match goal with
         | |- context [if ?b then _ else _] => destruct b
         end; simpl; tauto.
Qed.

Lemma commute_by_city (city : string) :
  List.In city
    ["Woodside"; "Portola Valley"; "Los Altos Hills"; "Saratoga";
     "Los Gatos"; "Cupertino"; "Redwood City"; "San Jose"; "Mountain View";
     "Sunnyvale"; ""] ->
  List.In (city, commute_placeholder_score city)
    [("Woodside", 3%Q); ("Portola Valley", 3%Q); ("Los Altos Hills", 4%Q);
     ("Saratoga", 4%Q); ("Los Gatos", 3%Q); ("Cupertino", 4%Q);
     ("Redwood City", 2%Q); ("San Jose", 2%Q); ("Mountain View", 5%Q);
     ("Sunnyvale", 5%Q); ("", 2%Q)].
Proof.
  intros H. repeat (destruct H as [<-|H]; [vm_compute; tauto|]).
  destruct H.
Qed.

Lemma nature_score_range (area raw : string) :
  List.In (nature_score area raw) [0%Q; 2%Q; 3%Q; 5%Q].
Proof.
  unfold nature_score.
  destruct (any_in NATURE_WORDS _); destruct (any_in NATURE_AREAS _);
    vm_compute; tauto.
Qed.

Lemma candidate_row_fields (source html base u : string) :
  exists name addr city pt dog park raw,
    let r := candidate_row source html base u in
    get r "property_name" = VStr (take_str 220 name) /\
    get r "address" = VStr (take_str 220 addr) /\
    get r "city" = VStr (infer_city city) /\
    get r "commute_score"
    = VNum (commute_placeholder_score (infer_city city)) /\
    get r "nature_score" = VNum (nature_score (infer_city city) raw) /\
    get r "property_type" = VStr pt /\
    List.In pt ["townhouse"; "house"; "apartment"; "condo"; "unknown"] /\
    get r "dog_friendly" = VStr dog /\ List.In dog ["yes"; "maybe"] /\
    get r "parking" = VStr park /\ List.In park ["yes"; "maybe"] /\
    get r "raw" = VStr raw /\ String.length raw <= 900.
Proof.
  row_reads H.
  destruct H as (_ & _ & _ & Hn & Ha & Hc & Hpt & _ & _ & _ & Hd & Hp & Hns
                 & Hcs & Hraw).
  do 7 eexists. cbv zeta.
  split; [exact Hn|]. split; [exact Ha|]. split; [exact Hc|].
  split; [exact Hcs|]. split; [exact Hns|]. split; [exact Hpt|].
  split; [apply infer_property_type_range|]. split; [exact Hd|].
  split; [destruct (search_words DOG_WORDS _); simpl; tauto|].
  split; [exact Hp|].
  split; [destruct (search_words PARKING_WORDS _); simpl; tauto|].
  split; [exact Hraw|]. apply take_str_length.
Qed.

(** X17: the rows stay within the data model.  In every extracted row
    the property type is one of the five of the enumeration; the two
    amenity flags are "yes" or "maybe", never "no"; the city is one of
    the six target areas, one of the four known neighbours or empty, and
    it alone fixes the commute score; the nature score is 0, 2, 3 or 5;
    name and address have at most 220 characters and the text window at
    most 900. *)
Theorem rows_within_data_model
    (source html base : string) (rows : list dict) :
  parse_candidates source html base = Ok rows ->
  List.Forall
    (fun r => exists name addr city pt dog park nature commute raw,
       get r "property_name" = VStr name /\ String.length name <= 220 /\
       get r "address" = VStr addr /\ String.length addr <= 220 /\
       get r "city" = VStr city /\ get r "commute_score" = VNum commute /\
       List.In (city, commute)
         [("Woodside", 3%Q); ("Portola Valley", 3%Q);
          ("Los Altos Hills", 4%Q); ("Saratoga", 4%Q); ("Los Gatos", 3%Q);
          ("Cupertino", 4%Q); ("Redwood City", 2%Q); ("San Jose", 2%Q);
          ("Mountain View", 5%Q); ("Sunnyvale", 5%Q); ("", 2%Q)] /\
       get r "property_type" = VStr pt /\
       List.In pt ["townhouse"; "house"; "apartment"; "condo"; "unknown"] /\
       get r "dog_friendly" = VStr dog /\ List.In dog ["yes"; "maybe"] /\
       get r "parking" = VStr park /\ List.In park ["yes"; "maybe"] /\
       get r "nature_score" = VNum nature /\
       List.In nature [0%Q; 2%Q; 3%Q; 5%Q] /\
       get r "raw" = VStr raw /\ String.length raw <= 900)
    rows.
Proof.
  unfold parse_candidates. destruct (patterns source) as [p|];
    [|discriminate].
  intros H. apply Ok_inj in H. subst rows.
  apply List.Forall_forall. intros r Hr. apply in_map_iff in Hr.
  destruct Hr as (u & <- & _).
  destruct (candidate_row_fields source html base u)
    as (name & addr & city & pt & dog & park & raw & Hn & Ha & Hc & Hcs
        & Hns & Hpt & Hptr & Hd & Hdr & Hp & Hpr & Hraw & Hlen).
  exists (take_str 220 name), (take_str 220 addr), (infer_city city), pt,
    dog, park, (nature_score (infer_city city) raw),
    (commute_placeholder_score (infer_city city)), raw.
  split; [exact Hn|]. split; [apply take_str_length|].
  split; [exact Ha|]. split; [apply take_str_length|].
  split; [exact Hc|]. split; [exact Hcs|].
  split; [apply commute_by_city, infer_city_range|].
  split; [exact Hpt|]. split; [exact Hptr|].
  split; [exact Hd|]. split; [exact Hdr|].
  split; [exact Hp|]. split; [exact Hpr|].
  split; [exact Hns|]. split; [apply nature_score_range|].
  split; [exact Hraw|exact Hlen].
Qed.

Lemma rows_within_data_model_witness :
  exists rows,
    parse_candidates "realtor"
      "see https://www.realtor.com/rentals/details/9-Elm-Rd $4,500 3 bd 2 ba, garage, dogs ok, Saratoga foothill"
      "https://www.realtor.com/apartments/Saratoga_CA" = Ok rows /\
    List.Forall
      (fun r => exists name addr city pt dog park nature commute raw,
         get r "property_name" = VStr name /\ String.length name <= 220 /\
         get r "address" = VStr addr /\ String.length addr <= 220 /\
         get r "city" = VStr city /\ get r "commute_score" = VNum commute /\
         List.In (city, commute)
           [("Woodside", 3%Q); ("Portola Valley", 3%Q);
            ("Los Altos Hills", 4%Q); ("Saratoga", 4%Q); ("Los Gatos", 3%Q);
            ("Cupertino", 4%Q); ("Redwood City", 2%Q); ("San Jose", 2%Q);
            ("Mountain View", 5%Q); ("Sunnyvale", 5%Q); ("", 2%Q)] /\
         get r "property_type" = VStr pt /\
         List.In pt ["townhouse"; "house"; "apartment"; "condo"; "unknown"] /\
         get r "dog_friendly" = VStr dog /\ List.In dog ["yes"; "maybe"] /\
         get r "parking" = VStr park /\ List.In park ["yes"; "maybe"] /\
         get r "nature_score" = VNum nature /\
         List.In nature [0%Q; 2%Q; 3%Q; 5%Q] /\
         get r "raw" = VStr raw /\ String.length raw <= 900)
      rows.
Proof.
  eexists. split; [reflexivity|].
  apply (rows_within_data_model "realtor"
    "see https://www.realtor.com/rentals/details/9-Elm-Rd $4,500 3 bd 2 ba, garage, dogs ok, Saratoga foothill"
    "https://www.realtor.com/apartments/Saratoga_CA").
  reflexivity.
Defined.

(** ** Keywords of the property type *)

(** X18: a home-details link is a house.  When the URL has
    [/homedetails/], in any case, the inferred property type is
    "townhouse" or "house" whatever the text and the name say, so the
    record has an allowed type. *)
Theorem homedetails_is_a_house (raw url name : string) :
  contains "/homedetails/" (lower url) = true ->
  List.In (infer_property_type raw url name) ["townhouse"; "house"] /\
  allowed_type (infer_property_type raw url name) = true.
Proof.
  intros H. unfold infer_property_type.
  assert (Ht : contains "/homedetails/"
                 (lower (raw +:+ " " +:+ url +:+ " " +:+ name)) = true).
  { rewrite !lower_app. apply contains_app_r, contains_app_r.
    by apply contains_app_l. }
  rewrite Ht, orb_true_r.
  destruct (contains "townhouse" _ || contains "townhome" _)%bool;
    (split; [simpl; tauto|reflexivity]).
Qed.

Lemma homedetails_is_a_house_witness :
  List.In
    (infer_property_type "Luxury apartment and condo living"
       "https://www.zillow.com/HomeDetails/28-Meadow-Rd/1_zpid/" "")
    ["townhouse"; "house"] /\
  allowed_type
    (infer_property_type "Luxury apartment and condo living"
       "https://www.zillow.com/HomeDetails/28-Meadow-Rd/1_zpid/" "") = true.
Proof.
  apply (homedetails_is_a_house "Luxury apartment and condo living"
           "https://www.zillow.com/HomeDetails/28-Meadow-Rd/1_zpid/" "").
  vm_compute. reflexivity.
Defined.

(** ** Reading amounts and counts *)

Lemma append_nil_r (s : string) : s +:+ "" = s.
Proof. induction s as [|c s IH]; [reflexivity|]. by rewrite <- IH at 2. Qed.

Lemma append_cons (c : ascii) (a b : string) :
  String c a +:+ b = String c (a +:+ b).
Proof. reflexivity. Qed.

Lemma take_while_app (p : ascii -> bool) (a b : string) :
  all_chars p a = true -> take_while p (a +:+ b) = a +:+ take_while p b.
Proof.
  induction a as [|c a IH]; [reflexivity|]. cbn [all_chars].
  intros H. apply andb_true_iff in H as [Hc H].
  rewrite !append_cons. cbn [take_while]. by rewrite Hc, (IH H).
Qed.

Lemma drop_while_app (p : ascii -> bool) (a b : string) :
  all_chars p a = true -> drop_while p (a +:+ b) = drop_while p b.
Proof.
  induction a as [|c a IH]; [reflexivity|]. cbn [all_chars].
  intros H. apply andb_true_iff in H as [Hc H].
  rewrite append_cons. cbn [drop_while]. by rewrite Hc, (IH H).
Qed.

Lemma lstrip_app (sp s : string) :
  all_chars is_space sp = true -> lstrip (sp +:+ s) = lstrip s.
Proof.
  induction sp as [|c sp IH]; [reflexivity|]. cbn [all_chars].
  intros H. apply andb_true_iff in H as [Hc H].
  rewrite append_cons. cbn [lstrip]. by rewrite Hc, (IH H).
Qed.

Lemma digit_not_space (d : ascii) : is_digit d = true -> is_space d = false.
Proof.
  destruct d as [b0 b1 b2 b3 b4 b5 b6 b7].
  destruct b0, b1, b2, b3, b4, b5, b6, b7; intros H;
    (reflexivity || discriminate H).
Qed.

Lemma price_at_other (c : ascii) (s : string) :
  Ascii.eqb "$" c = false -> price_at (String c s) = None.
Proof.
  destruct c as [b0 b1 b2 b3 b4 b5 b6 b7].
  destruct b0, b1, b2, b3, b4, b5, b6, b7; intros H;
    (reflexivity || discriminate H).
Qed.

Lemma search_price_after (pre s : string) :
  contains "$" pre = false ->
  search_first price_at (pre +:+ s) = search_first price_at s.
Proof.
  induction pre as [|c pre IH]; [reflexivity|]. cbn [contains].
  intros H. apply orb_false_iff in H as [Hc H].
  rewrite prefix_cons, prefix_nil, andb_true_r in Hc.
  rewrite append_cons, search_first_cons, (price_at_other c _ Hc).
  by apply IH.
Qed.

Lemma Qred_whole (z : Z) : Qred (z # 1) = z # 1.
Proof.
  unfold Qred. pose proof (Z.ggcd_gcd z 1) as Hg.
  pose proof (Z.ggcd_correct_divisors z 1) as Hd.
  destruct (Z.ggcd z 1) as [g [aa bb]]. cbn [fst snd] in *.
  rewrite Z.gcd_1_r in Hg. subst g. destruct Hd as [Ha Hb].
  rewrite Z.mul_1_l in Ha, Hb. by subst.
Qed.

Lemma round_half_even_whole (x : Q) (w : Z) :
  (x == inject_Z w)%Q -> round_half_even x = w.
Proof.
  intros H. unfold round_half_even.
  assert (Hf : Qfloor x = w) by (rewrite H; apply Qfloor_Z).
  rewrite Hf.
  assert (Hc : (x - inject_Z w ?= 1 # 2)%Q = Lt).
  { apply Qlt_alt. rewrite H. unfold Qminus. rewrite Qplus_opp_r.
    reflexivity. }
  by rewrite Hc.
Qed.

Lemma pow2_neg (j : Z) :
  (0 <= j)%Z -> (2 ^ (- j) == / inject_Z (2 ^ j))%Q.
Proof.
  intros Hj. rewrite Qpower_opp. apply Qinv_comp.
  symmetry. exact (Zpower_Qpower 2 j Hj).
Qed.

(** A whole number below [2^53] is a binary64 value: [float] reads it
    exactly. *)
Lemma binary64_whole (z : Z) :
  (0 <= z < 2 ^ 53)%Z -> binary64 (z # 1) = z # 1.
Proof.
  intros [H0 H53]. destruct (Z.eq_dec z 0%Z) as [->|Hz]; [reflexivity|].
  assert (Hpos : (0 < z)%Z) by lia.
  unfold binary64.
  assert (E0 : Qle_bool (z # 1) 0 = false).
  { destruct (Qle_bool (z # 1) 0) eqn:E; [|reflexivity].
    apply Qle_bool_iff in E. unfold Qle in E. simpl in E. lia. }
  rewrite E0. cbn [Qnum Qden].
  change (Z.log2 1) with 0%Z. rewrite Z.sub_0_r.
  pose proof (Z.log2_spec z Hpos) as [Hlo Hhi].
  pose proof (Z.log2_nonneg z) as Hk0.
  assert (Hk52 : (Z.log2 z < 53)%Z) by (apply Z.log2_lt_pow2; lia).
  set (k := Z.log2 z) in *.
  assert (E1 : Qlt_bool (z # 1) (2 ^ k) = false).
  { unfold Qlt_bool. apply negb_false_iff, Qle_bool_iff.
    rewrite <- (Zpower_Qpower 2 k Hk0).
    change (z # 1) with (inject_Z z). rewrite <- Zle_Qle. exact Hlo. }
  rewrite E1, Z.max_l by lia.
  set (j := (52 - k)%Z).
  assert (Hj : (0 <= j)%Z) by (unfold j; lia).
  replace (k - 52)%Z with (- j)%Z by (unfold j; lia).
  assert (Hp : (0 < inject_Z (2 ^ j))%Q).
  { change 0%Q with (inject_Z 0). rewrite <- Zlt_Qlt.
    apply Z.pow_pos_nonneg; lia. }
  assert (Hq : ((z # 1) / 2 ^ (- j) == inject_Z (z * 2 ^ j))%Q).
  { rewrite (pow2_neg j Hj), inject_Z_mult. change (z # 1) with (inject_Z z).
    field. lra. }
  rewrite (round_half_even_whole _ _ Hq).
  rewrite <- (Qred_whole z). apply Qred_complete.
  rewrite (pow2_neg j Hj), inject_Z_mult. change (z # 1) with (inject_Z z).
  field. lra.
Qed.

Lemma digit_value_le (c : ascii) :
  is_digit c = true -> (digit_value c <= 9)%N.
Proof.
  unfold is_digit, in_range, digit_value. rewrite andb_true_iff.
  intros [H1 H2]. apply N.leb_le in H1, H2. lia.
Qed.

Lemma digits_value_bound (x : string) (acc : N) :
  all_chars is_digit x = true ->
  (digits_value acc x < (acc + 1) * 10 ^ N.of_nat (String.length x))%N.
Proof.
  revert acc. induction x as [|c x IH]; intros acc H.
  - cbn. lia.
  - cbn [all_chars] in H. apply andb_true_iff in H as [Hc H].
    cbn [digits_value String.length].
    specialize (IH (acc * 10 + digit_value c)%N H).
    pose proof (digit_value_le c Hc) as Hd.
    rewrite Nat2N.inj_succ, N.pow_succ_r'. nia.
Qed.

(** A run of at most 15 digits is below [10^15 < 2^53]: [float] reads
    it as the whole number it spells. *)
Lemma whole_number_value (x : string) :
  all_chars is_digit x = true -> String.length x <= 15 ->
  decimal_value x "" = inject_Z (Z.of_N (digits_value 0 x)).
Proof.
  intros Hx Hlen. unfold decimal_value.
  cbn [digits_value String.length Z.of_nat Z.pow Z.to_pos].
  apply binary64_whole. split; [lia|].
  pose proof (digits_value_bound x 0 Hx) as Hb.
  assert (Hp : (10 ^ N.of_nat (String.length x) <= 10 ^ 15)%N)
    by (apply N.pow_le_mono_r; lia).
  assert (H53 : (10 ^ 15 < 2 ^ 53)%N) by reflexivity.
  assert (Hz : (Z.of_N (digits_value 0 x) < Z.of_N (2 ^ 53))%Z) by lia.
  exact Hz.
Qed.

Lemma digit_not_comma (c : ascii) :
  is_digit c = true -> Ascii.eqb c "," = false.
Proof.
  destruct c as [b0 b1 b2 b3 b4 b5 b6 b7].
  destruct b0, b1, b2, b3, b4, b5, b6, b7; intros H;
    (reflexivity || discriminate H).
Qed.

Lemma remove_commas_digits (s : string) :
  all_chars is_digit_or_comma s = true ->
  all_chars is_digit (remove_char "," s) = true.
Proof.
  induction s as [|c s IH]; [reflexivity|]. cbn [all_chars remove_char].
  intros H. apply andb_true_iff in H as [Hc H]. specialize (IH H).
  unfold is_digit_or_comma in Hc.
  destruct (Ascii.eqb c ",") eqn:E; [exact IH|].
  rewrite orb_false_r in Hc. cbn [all_chars]. by rewrite Hc, IH.
Qed.

(** X19: the price is the first dollar amount.  In a text whose first
    dollar sign is followed by white space, if any, and then by a digit,
    [norm_price] reads the run of digits and commas that starts there,
    provided it has at most 15 digits, as the whole number they spell
    with the commas left out; what follows the run, cents for one, is
    ignored.  (Beyond 15 digits [float] may round the number.) *)
Theorem price_is_first_amount (pre sp : string) (d : ascii) (ds rest : string) :
  contains "$" pre = false ->
  all_chars is_space sp = true ->
  is_digit d = true -> all_chars is_digit_or_comma ds = true ->
  take_while is_digit_or_comma rest = "" ->
  String.length (remove_char "," (String d ds)) <= 15 ->
  norm_price (pre +:+ "$" +:+ sp +:+ String d ds +:+ rest)
  = Some (inject_Z (Z.of_N (digits_value 0 (remove_char "," (String d ds))))).
Proof.
  intros Hpre Hsp Hd Hds Hrest Hlen. unfold norm_price.
  rewrite (search_price_after pre _ Hpre).
  change ("$" +:+ sp +:+ String d ds +:+ rest)
    with (String "$" (sp +:+ String d (ds +:+ rest))).
  rewrite search_first_cons.
  change (price_at (String "$" (sp +:+ String d (ds +:+ rest))))
    with (match lstrip (sp +:+ String d (ds +:+ rest)) with
          | String d r =>
              if is_digit d
              then Some (String d (take_while is_digit_or_comma r))
              else None
          | EmptyString => None
          end).
  rewrite (lstrip_app sp _ Hsp). cbn [lstrip].
  rewrite (digit_not_space d Hd), Hd, (take_while_app _ ds rest Hds), Hrest,
    append_nil_r.
  rewrite whole_number_value; [reflexivity| |exact Hlen].
  apply remove_commas_digits. cbn [all_chars]. rewrite Hds, andb_true_r.
  unfold is_digit_or_comma. by rewrite Hd.
Qed.

Lemma price_is_first_amount_witness :
  norm_price ("Rent from " +:+ "$" +:+ " " +:+ String "7" ",500" +:+ ".50/mo, deposit $9,000")
  = Some (inject_Z (Z.of_N (digits_value 0 (remove_char "," (String "7" ",500"))))).
Proof.
  apply (price_is_first_amount "Rent from " " " "7" ",500"
           ".50/mo, deposit $9,000");
    (vm_compute; reflexivity) || (simpl; lia).
Defined.

Lemma digit_lower (c : ascii) : is_digit (lower_char c) = is_digit c.
Proof.
  destruct c as [b0 b1 b2 b3 b4 b5 b6 b7].
  destruct b0, b1, b2, b3, b4, b5, b6, b7; reflexivity.
Qed.

Lemma space_lower (c : ascii) : is_space c = true -> lower_char c = c.
Proof.
  destruct c as [b0 b1 b2 b3 b4 b5 b6 b7].
  destruct b0, b1, b2, b3, b4, b5, b6, b7; intros H;
    (reflexivity || discriminate H).
Qed.

Lemma digit_lower_id (c : ascii) : is_digit c = true -> lower_char c = c.
Proof.
  destruct c as [b0 b1 b2 b3 b4 b5 b6 b7].
  destruct b0, b1, b2, b3, b4, b5, b6, b7; intros H;
    (reflexivity || discriminate H).
Qed.

Lemma lower_fixed (p : ascii -> bool) (s : string) :
  (forall c, p c = true -> lower_char c = c) ->
  all_chars p s = true -> lower s = s.
Proof.
  intros Hp. induction s as [|c s IH]; [reflexivity|]. cbn [all_chars].
  intros H. apply andb_true_iff in H as [Hc H]. cbn [lower].
  by rewrite (Hp c Hc), (IH H).
Qed.

Lemma lower_no_digit (s : string) :
  all_chars (fun c => negb (is_digit c)) s = true ->
  all_chars (fun c => negb (is_digit c)) (lower s) = true.
Proof.
  induction s as [|c s IH]; [reflexivity|]. cbn [all_chars lower].
  intros H. apply andb_true_iff in H as [Hc H].
  by rewrite digit_lower, Hc, (IH H).
Qed.

Lemma search_count_after (units : list string) (pre s : string) :
  all_chars (fun c => negb (is_digit c)) pre = true ->
  search_first (count_at units) (pre +:+ s)
  = search_first (count_at units) s.
Proof.
  induction pre as [|c pre IH]; [reflexivity|]. cbn [all_chars].
  intros H. apply andb_true_iff in H as [Hc H].
  apply negb_true_iff in Hc.
  rewrite append_cons, search_first_cons. cbn [count_at]. rewrite Hc.
  by apply IH.
Qed.

Lemma unit_after_digits (units : list string) (d : ascii) (ds r : string) :
  is_digit d = true -> all_chars is_digit ds = true ->
  starts_with_any units (lstrip r) = true ->
  match r with
  | String c _ => is_digit c = false /\ c <> "."%char
  | EmptyString => True
  end ->
  count_at units (String d ds +:+ r) = Some (String d ds, "").
Proof.
  intros Hd Hds Hu Hr. rewrite append_cons. cbn [count_at]. rewrite Hd.
  assert (Hall : all_chars is_digit (String d ds) = true)
    by (cbn [all_chars]; by rewrite Hd, Hds).
  rewrite <- !append_cons.
  rewrite (take_while_app is_digit _ r Hall),
    (drop_while_app is_digit _ r Hall).
  destruct r as [|c r'].
  - cbn [take_while drop_while]. rewrite append_nil_r.
    cbn [lstrip] in Hu |- *. by rewrite Hu.
  - destruct Hr as [Hc Hdot]. cbn [take_while drop_while]. rewrite Hc.
    rewrite append_nil_r.
    destruct c as [b0 b1 b2 b3 b4 b5 b6 b7].
    destruct b0, b1, b2, b3, b4, b5, b6, b7;
      try (by rewrite Hu); by destruct Hdot.
Qed.

Lemma space_not_digit_dot (c : ascii) :
  is_space c = true -> is_digit c = false /\ c <> "."%char.
Proof.
  destruct c as [b0 b1 b2 b3 b4 b5 b6 b7].
  destruct b0, b1, b2, b3, b4, b5, b6, b7; intros H;
    (discriminate H || (split; [reflexivity|discriminate])).
Qed.

Lemma unit_word (units : list string) (w : string) :
  List.In units [BED_UNITS; BATH_UNITS] ->
  starts_with_any units w = true -> exists t, w = String "b" t.
Proof.
  intros Hu H. apply existsb_exists in H. destruct H as (u & Hin & Hp).
  assert (Hb : exists u', u = String "b" u').
  { destruct Hu as [<-|[<-|[]]]; destruct Hin as [<-|[<-|[]]]; eauto. }
  destruct Hb as [u' ->]. destruct w as [|c w]; [discriminate|].
  rewrite prefix_cons in Hp. apply andb_true_iff in Hp as [Hc _].
  apply Ascii.eqb_eq in Hc. subst c. eauto.
Qed.

(** X20: a count is the number before its unit.  In a text whose first
    digit starts a whole number of at most 15 digits that is followed,
    after white space if any, by a word beginning with [bd] or [bed] in
    any case, the number is the bed count; followed by a word beginning
    with [ba], it is the bath count.  No word boundary is asked after
    the unit.  (Beyond 15 digits [float] may round the number.) *)
Theorem count_is_number_before_unit
    (units : list string) (proj : option Q * option Q -> option Q)
    (pre : string) (d : ascii) (ds sp w : string) :
  List.In (units, proj) [(BED_UNITS, fst); (BATH_UNITS, snd)] ->
  all_chars (fun c => negb (is_digit c)) pre = true ->
  is_digit d = true -> all_chars is_digit ds = true ->
  String.length (String d ds) <= 15 ->
  all_chars is_space sp = true ->
  starts_with_any units (lower w) = true ->
  proj (parse_beds_baths (pre +:+ String d ds +:+ sp +:+ w))
  = Some (inject_Z (Z.of_N (digits_value 0 (String d ds)))).
Proof.
  intros Hup Hpre Hd Hds Hlen Hsp Hw.
  assert (Hunits : List.In units [BED_UNITS; BATH_UNITS]).
  { destruct Hup as [[= <- _]|[[= <- _]|[]]]; simpl; tauto. }
  assert (Hall : all_chars is_digit (String d ds) = true)
    by (cbn [all_chars]; by rewrite Hd, Hds).
  assert (Hsearch : search_count units
                      (lower (pre +:+ String d ds +:+ sp +:+ w))
                    = Some (inject_Z (Z.of_N (digits_value 0 (String d ds))))).
  { rewrite !lower_app.
    rewrite (lower_fixed is_digit (String d ds) digit_lower_id Hall),
      (lower_fixed is_space sp space_lower Hsp).
    unfold search_count.
    rewrite (search_count_after units _ _ (lower_no_digit pre Hpre)).
    destruct (unit_word units (lower w) Hunits Hw) as [t Ht].
    rewrite append_cons, search_first_cons, <- append_cons.
    rewrite (unit_after_digits units d ds (sp +:+ lower w) Hd Hds).
    - by rewrite (whole_number_value _ Hall Hlen).
    - rewrite (lstrip_app sp _ Hsp), Ht. cbn [lstrip].
      change (is_space "b") with false. cbv iota. by rewrite <- Ht.
    - destruct sp as [|c sp]; [rewrite Ht; split; [reflexivity|discriminate]|].
      cbn [all_chars] in Hsp. apply andb_true_iff in Hsp as [Hc _].
      rewrite append_cons. by apply space_not_digit_dot. }
  unfold parse_beds_baths.
  destruct Hup as [[= <- <-]|[[= <- <-]|[]]]; exact Hsearch.
Qed.

Lemma count_is_number_before_unit_witness :
  snd (parse_beds_baths ("Sunny home with " +:+ String "2" "" +:+ " " +:+ "Balconies and 3 beds"))
  = Some (inject_Z (Z.of_N (digits_value 0 (String "2" "")))).
Proof.
  apply (count_is_number_before_unit BATH_UNITS snd "Sunny home with " "2" ""
           " " "Balconies and 3 beds");
    (vm_compute; reflexivity) || (simpl; lia) || (simpl; tauto).
Defined.

(** * The field mapping of the sink *)

Lemma rt_text (v : val) :
  (truthy v = true -> val_is_str v = true) ->
  exists s, rt v = Ok (text_of (VStr s)).
Proof.
  intros H. unfold rt, py_or. destruct (truthy v) eqn:E.
  - specialize (H eq_refl). destruct v; try discriminate. cbn. eauto.
  - cbn. eauto.
Qed.

Lemma rt_field (m : dict) (k : string) :
  (truthy (get m k) = true -> val_is_str (get m k) = true) ->
  exists s, rt (get_or m k (VStr "")) = Ok (text_of (VStr s)).
Proof.
  intros H. apply rt_text. revert H. unfold get, get_or.
  destruct (m !! k); [auto|discriminate].
Qed.

Lemma str_or_none_truthy (v : val) :
  val_str_or_none v = true -> truthy v = true -> val_is_str v = true.
Proof. by destruct v. Qed.

Lemma stretch_of_num (m : dict) :
  val_num_or_none (get m "price") = true ->
  stretch_of m = Ok (if over_max_rent (get m "price") then "yes" else "no").
Proof.
  unfold stretch_of, over_max_rent.
  destruct (get m "price") as [| |p|]; try discriminate; [reflexivity|].
  intros _. cbn [truthy num_of bind].
  destruct (Qeq_bool p 0) eqn:E; cbn [negb]; [|reflexivity].
  apply Qeq_bool_iff in E. unfold Qlt_bool, MAX_RENT.
  assert (H : Qle_bool p 8000 = true) by (apply Qle_bool_iff; lra).
  by rewrite H.
Qed.

Lemma title_of_typed (m : dict) :
  (truthy (get m "address") = true -> val_is_str (get m "address") = true) ->
  val_str_or_none (get m "property_name") = true ->
  exists s,
    py_or (py_or (get m "address") (get m "property_name"))
      (VStr "Bay Area rental") = VStr s /\
    (truthy (py_or (get m "address") (get m "property_name")) = true ->
     VStr s = py_or (get m "address") (get m "property_name") /\ s <> "").
Proof.
  intros Ha Hn. unfold py_or.
  destruct (truthy (get m "address")) eqn:Ea.
  - specialize (Ha eq_refl). rewrite Ea.
    destruct (get m "address") as [|a| |]; try discriminate.
    exists a. split; [reflexivity|].
    intros _. split; [reflexivity|]. intros ->. discriminate Ea.
  - destruct (truthy (get m "property_name")) eqn:En.
    + pose proof (str_or_none_truthy _ Hn En) as Hs.
      destruct (get m "property_name") as [|n| |]; try discriminate.
      exists n. split; [reflexivity|]. intros _.
      split; [reflexivity|]. intros ->. discriminate En.
    + exists "Bay Area rental". split; [reflexivity|]. discriminate.
Qed.

(** What [notion_props] writes for a listing with typed fields. *)
Lemma notion_props_typed (m : dict) (t d pt : string) (l : list string) :
  val_num_or_none (get m "price") = true ->
  ptype_of m = Ok pt ->
  (truthy (get m "address") = true -> val_is_str (get m "address") = true) ->
  val_str_or_none (get m "property_name") = true ->
  val_str_or_none (get m "canonical_key") = true ->
  val_str_or_none (get m "city") = true ->
  val_str_or_none (get m "quality_notes") = true ->
  get m "sources" = VList l ->
  exists props title,
    notion_props m t d = Ok props /\
    props !! "Property Type" = Some (select (JStr pt)) /\
    props !! "Home/Townhome Preferred"
    = Some (select (JStr (if allowed_type pt then "yes" else "no"))) /\
    props !! "Stretch"
    = Some (select (JStr (if over_max_rent (get m "price")
                          then "yes" else "no"))) /\
    props !! "Data Quality"
    = Some (select (to_json (get_or m "data_quality" (VStr "fail")))) /\
    (~ List.In t NOTION_KEYS ->
     props !! t
     = Some (JObj [("title", text_of (VStr (take_str 1800 title)))])) /\
    (truthy (py_or (get m "address") (get m "property_name")) = true ->
     VStr title = py_or (get m "address") (get m "property_name") /\
     title <> "").
Proof.
  intros Hp Hpt Ha Hn Hk Hc Hq Hs.
  destruct (title_of_typed m Ha Hn) as (title & Htitle & Hreal).
  destruct (rt_field m "canonical_key") as [sk Ek];
    [by apply str_or_none_truthy|].
  destruct (rt_field m "address" Ha) as [sa Ea].
  destruct (rt_field m "city") as [sc Ec]; [by apply str_or_none_truthy|].
  destruct (rt_field m "quality_notes") as [sq Eq];
    [by apply str_or_none_truthy|].
  assert (Hsrc : source_names m
                 = Ok (map (fun s => JObj [("name", JStr s)]) l)).
  { unfold source_names. unfold get in Hs.
    destruct (m !! "sources") as [v|]; [by subst v|discriminate]. }
  eexists _, title. split.
  { unfold notion_props. rewrite (stretch_of_num m Hp), Hpt. cbn [bind].
    rewrite Htitle. cbn [slice_val bind]. rewrite Ek. cbn [bind].
    rewrite Hsrc. cbn [bind]. rewrite Ea. cbn [bind]. rewrite Ec.
    cbn [bind]. change (rt (VStr MOVE_WINDOW))
      with (Ok (text_of (VStr MOVE_WINDOW))). cbn [bind].
    rewrite Eq. cbn [bind]. reflexivity. }
  unfold display. cbn [fold_left fst snd].
  split; [by repeat (rewrite lookup_insert_ne by discriminate);
             rewrite lookup_insert_eq|].
  split; [by repeat (rewrite lookup_insert_ne by discriminate);
             rewrite lookup_insert_eq|].
  split; [by repeat (rewrite lookup_insert_ne by discriminate);
             rewrite lookup_insert_eq|].
  split; [by repeat (rewrite lookup_insert_ne by discriminate);
             rewrite lookup_insert_eq|].
  split; [|exact Hreal].
  intros Ht.
  repeat (rewrite lookup_insert_ne
            by (intros E; apply Ht; rewrite <- E; simpl; tauto)).
  by rewrite lookup_insert_eq.
Qed.

Lemma first_truthy_In (f : string) (l : list dict) (v : val) :
  first_truthy f l = Some v -> exists i, List.In i l /\ get i f = v.
Proof.
  unfold first_truthy. induction l as [|x l IH]; cbn [fold_right];
    [discriminate|].
  destruct (truthy (get x f)).
  - intros [= <-]. exists x. split; [by left|reflexivity].
  - intros H. destruct (IH H) as (i & Hi & E). exists i.
    split; [by right|exact E].
Qed.

Lemma pass_has_title (c m : dict) :
  attach_quality c = Ok m -> get m "data_quality" = VStr "pass" ->
  truthy (py_or (get c "address") (get c "property_name")) = true.
Proof.
  intros H Hq. apply attach_quality_Ok in H.
  destruct H as (q & notes & Ha & ->). read_writes_in Hq.
  injection Hq as ->.
  unfold quality_assessment, quality_reasons in Ha.
  destruct (ptype_of c) as [pt|e]; [|discriminate]. cbn [bind] in Ha.
  unfold append_if in Ha.
  destruct (truthy (py_or (get c "address") (get c "property_name")));
    [reflexivity|]. exfalso. cbn [negb] in Ha.
  destruct (negb (truthy (get c "canonical_key")));
    destruct (negb (truthy (get c "sources")));
    destruct (is_none (get c "price")); destruct (is_none (get c "beds"));
    destruct (is_none (get c "baths")); destruct (negb (allowed_type pt));
    cbn [app] in Ha; discriminate Ha.
Qed.

Lemma key_fields_typed (i : dict) :
  wf_raw i = true ->
  val_str_or_none (get i "address") = true /\
  val_str_or_none (get i "property_name") = true /\
  val_str_or_none (get i "city") = true.
Proof.
  intros H. apply wf_raw_fields in H. destruct H as (H & _).
  unfold wf_key_fields in H. rewrite !andb_true_iff in H. tauto.
Qed.

(** The types of the fields of a returned listing that the sink
    reads. *)
Lemma returned_typed (items : list dict) :
  wf_items items ->
  exists items' out,
    merge_duplicates items = Ok (items', out) /\
    forall m, List.In m out ->
      exists pt l,
        val_num_or_none (get m "price") = true /\
        (forall p, get m "price" = VNum p -> Qle_bool p STRETCH_MAX = true) /\
        ptype_of m = Ok pt /\ allowed_type pt = true /\
        (truthy (get m "address") = true ->
         val_is_str (get m "address") = true) /\
        val_str_or_none (get m "property_name") = true /\
        val_str_or_none (get m "canonical_key") = true /\
        val_str_or_none (get m "city") = true /\
        val_str_or_none (get m "quality_notes") = true /\
        get m "sources" = VList l /\
        (get m "data_quality" = VStr "pass" ->
         truthy (py_or (get m "address") (get m "property_name")) = true).
Proof.
  intros Hitems.
  destruct (merge_duplicates_Ok items Hitems)
    as (items' & bk & out & Hloop & [Hnd Hent] & Hmerge & Hout).
  exists items', out. split; [exact Hmerge|].
  intros m Hm. apply Hout in Hm. destruct Hm as (c & Hc & Hpass & Hattach).
  destruct (bk_values_lookup c bk Hnd Hc) as [k Hk].
  destruct (Hent k c Hk) as [Hwf Hck].
  destruct (wf_merged_fields c Hwf)
    as (Hprice & _ & _ & _ & _ & _ & Hsrc & _ & _).
  destruct (passes_hard_filters_allowed c Hpass) as (pt & Hpt & Hal).
  assert (Hreads : forall f, f <> "data_quality" -> f <> "quality_notes" ->
                     get m f = get c f)
    by (intros f; apply (attach_quality_get c m f Hattach)).
  assert (Hin : forall i, List.In i items -> wf_raw i = true).
  { unfold wf_items in Hitems. by rewrite List.Forall_forall in Hitems. }
  destruct (representative_loop items items' bk Hitems Hloop) as [_ Hrep].
  destruct (Hrep k c Hk) as (pre & i & post & s & Hsplit & _ & _ & Hflds & _).
  assert (Hi : List.In i items)
    by (rewrite Hsplit; apply in_or_app; right; by left).
  destruct (key_fields_typed i (Hin i Hi)) as (_ & Hname & Hcity).
  destruct (first_values_loop items items' bk Hitems Hloop) as [_ Hinv].
  destruct (Hinv k c Hk) as [_ Haddr].
  destruct (get c "sources") as [| | |l] eqn:Hl; try discriminate.
  exists pt, l.
  rewrite (Hreads "price"), (Hreads "address"), (Hreads "property_name"),
    (Hreads "canonical_key"), (Hreads "city"), (Hreads "sources")
    by discriminate.
  split; [exact Hprice|]. split.
  { intros p Hp. destruct (Qle_bool p STRETCH_MAX) eqn:E; [reflexivity|].
    rewrite (passes_hard_filters_price c pt p Hpt Hp) in Hpass;
      [discriminate|]. unfold Qlt_bool. by rewrite E. }
  split. { unfold ptype_of. rewrite Hreads by discriminate. exact Hpt. }
  split; [exact Hal|]. split.
  { intros Ht.
    destruct (first_truthy "address" (List.filter (key_is k) items))
      as [v|] eqn:Ev; [|congruence].
    destruct (first_truthy_In _ _ _ Ev) as (j & Hj & Hv).
    apply filter_In in Hj. destruct Hj as [Hj _].
    destruct (key_fields_typed j (Hin j Hj)) as (Hja & _).
    rewrite Haddr, <- Hv. apply str_or_none_truthy; [exact Hja|].
    rewrite Hv. by apply (first_truthy_truthy _ _ _ Ev). }
  split.
  { rewrite (Hflds "property_name"); [|simpl; tauto].
    unfold annotated. by read_writes. }
  split; [by rewrite Hck|]. split.
  { rewrite (Hflds "city"); [|simpl; tauto]. unfold annotated.
    by read_writes. }
  split.
  { apply attach_quality_Ok in Hattach.
    destruct Hattach as (q & notes & _ & ->). by read_writes. }
  split; [exact Hl|]. apply (pass_has_title c m Hattach).
Qed.

(** X21: the sink gets well-formed properties.  For every listing that
    [merge_duplicates] returns, [notion_props] returns without an
    exception; the property type it sends is "house" or "townhouse", the
    home/townhome preference is always "yes", and the stretch flag is
    "yes" exactly when the price is known and above the base ceiling of
    8000, which for a returned listing means at most 9000. *)
Theorem sink_fields_of_returned (items : list dict) :
  wf_items items ->
  exists items' out,
    merge_duplicates items = Ok (items', out) /\
    forall m t d, List.In m out ->
      exists props pt,
        notion_props m t d = Ok props /\
        props !! "Property Type" = Some (select (JStr pt)) /\
        List.In pt ALLOWED_PROPERTY_TYPES /\
        props !! "Home/Townhome Preferred" = Some (select (JStr "yes")) /\
        props !! "Stretch"
        = Some (select (JStr (if over_max_rent (get m "price")
                              then "yes" else "no"))) /\
        (forall p, get m "price" = VNum p -> (p <= STRETCH_MAX)%Q) /\
        props !! "Data Quality" = Some (select (to_json (get m "data_quality"))).
Proof.
  intros Hitems.
  destruct (returned_typed items Hitems) as (items' & out & Hmerge & Hall).
  exists items', out. split; [exact Hmerge|].
  intros m t d Hm.
  destruct (Hall m Hm)
    as (pt & l & Hp & Hmax & Hpt & Hal & Ha & Hn & Hk & Hc & Hq & Hs & _).
  destruct (notion_props_typed m t d pt l Hp Hpt Ha Hn Hk Hc Hq Hs)
    as (props & title & Hprops & Htype & Hpref & Hstretch & Hdq & _).
  exists props, pt. split; [exact Hprops|]. split; [exact Htype|].
  split.
  { unfold allowed_type in Hal. apply existsb_exists in Hal.
    destruct Hal as (x & Hx & E). apply String.eqb_eq in E. by subst. }
  split; [by rewrite Hal in Hpref|]. split; [exact Hstretch|].
  split; [intros p E; apply Qle_bool_iff; by apply Hmax|].
  rewrite Hdq. do 3 f_equal. unfold get_or, get.
  destruct (m !! "data_quality") eqn:E; [reflexivity|].
  exfalso. unfold get in Hq.
  apply merge_duplicates_Ok in Hitems.
  destruct Hitems as (i2 & bk & o2 & _ & _ & Hm2 & Ho2).
  rewrite Hmerge in Hm2. injection Hm2 as _ <-.
  apply Ho2 in Hm. destruct Hm as (c & _ & _ & Hatt).
  apply attach_quality_Ok in Hatt. destruct Hatt as (q & notes & _ & ->).
  by read_writes_in E.
Qed.

Lemma sink_fields_of_returned_witness :
  exists items' out,
    merge_duplicates [main_realtor; dear_listing; main_redfin]
    = Ok (items', out) /\
    forall m t d, List.In m out ->
      exists props pt,
        notion_props m t d = Ok props /\
        props !! "Property Type" = Some (select (JStr pt)) /\
        List.In pt ALLOWED_PROPERTY_TYPES /\
        props !! "Home/Townhome Preferred" = Some (select (JStr "yes")) /\
        props !! "Stretch"
        = Some (select (JStr (if over_max_rent (get m "price")
                              then "yes" else "no"))) /\
        (forall p, get m "price" = VNum p -> (p <= STRETCH_MAX)%Q) /\
        props !! "Data Quality" = Some (select (to_json (get m "data_quality"))).
Proof.
  apply (sink_fields_of_returned [main_realtor; dear_listing; main_redfin]).
  repeat constructor; vm_compute; reflexivity.
Defined.

(** X22: a passing listing has a real title.  For a returned listing
    whose verdict is "pass", the only kind the sink sends, the title
    written under the store's title property is the listing's address
    when it has one and else its property name, cut at 1800 characters;
    it is never empty, and the placeholder "Bay Area rental" is not
    used.  (The title property is assumed not to bear the name of
    another column.) *)
Theorem passing_listing_title (items : list dict) :
  wf_items items ->
  exists items' out,
    merge_duplicates items = Ok (items', out) /\
    forall m t d, List.In m out ->
      get m "data_quality" = VStr "pass" -> ~ List.In t NOTION_KEYS ->
      exists props title,
        notion_props m t d = Ok props /\
        props !! t
        = Some (JObj [("title", text_of (VStr (take_str 1800 title)))]) /\
        title <> "" /\
        VStr title = py_or (get m "address") (get m "property_name").
Proof.
  intros Hitems.
  destruct (returned_typed items Hitems) as (items' & out & Hmerge & Hall).
  exists items', out. split; [exact Hmerge|].
  intros m t d Hm Hpass Ht.
  destruct (Hall m Hm)
    as (pt & l & Hp & _ & Hpt & _ & Ha & Hn & Hk & Hc & Hq & Hs & Htitle).
  destruct (notion_props_typed m t d pt l Hp Hpt Ha Hn Hk Hc Hq Hs)
    as (props & title & Hprops & _ & _ & _ & _ & Hkey & Hreal).
  destruct (Hreal (Htitle Hpass)) as [E Hne].
  exists props, title. auto.
Qed.

Lemma passing_listing_title_witness :
  exists items' out,
    merge_duplicates [main_realtor; blank_listing; main_redfin]
    = Ok (items', out) /\
    forall m t d, List.In m out ->
      get m "data_quality" = VStr "pass" -> ~ List.In t NOTION_KEYS ->
      exists props title,
        notion_props m t d = Ok props /\
        props !! t
        = Some (JObj [("title", text_of (VStr (take_str 1800 title)))]) /\
        title <> "" /\
        VStr title = py_or (get m "address") (get m "property_name").
Proof.
  apply (passing_listing_title [main_realtor; blank_listing; main_redfin]).
  repeat constructor; vm_compute; reflexivity.
Defined.

(** * The score and the price *)

Lemma round_half_even_mono (x y : Q) :
  (x <= y)%Q -> (round_half_even x <= round_half_even y)%Z.
Proof.
  intros Hxy. unfold round_half_even.
  pose proof (Qfloor_resp_le x y Hxy) as Hf.
  pose proof (Qfloor_le x) as Hx1. pose proof (Qlt_floor x) as Hx2.
  pose proof (Qfloor_le y) as Hy1. pose proof (Qlt_floor y) as Hy2.
  destruct (Z.eq_dec (Qfloor x) (Qfloor y)) as [E|Hne].
  - rewrite <- E in *. set (f := Qfloor x) in *.
    destruct (Qcompare (x - inject_Z f) (1 # 2)) eqn:Cx;
      destruct (Qcompare (y - inject_Z f) (1 # 2)) eqn:Cy;
      try (destruct (Z.even f); lia);
      first [ apply Qeq_alt in Cx | apply Qlt_alt in Cx | apply Qgt_alt in Cx ];
      first [ apply Qeq_alt in Cy | apply Qlt_alt in Cy | apply Qgt_alt in Cy ];
      exfalso; lra.
  - assert (Qfloor x + 1 <= Qfloor y)%Z by lia.
    destruct (Qcompare (x - inject_Z (Qfloor x)) (1 # 2));
      destruct (Qcompare (y - inject_Z (Qfloor y)) (1 # 2));
      repeat match goal with
             | |- context [Z.even ?f] => destruct (Z.even f)
             end; lia.
Qed.

Lemma py_round2_mono (x y : Q) :
  (x <= y)%Q -> (py_round2 x <= py_round2 y)%Q.
Proof.
  intros Hxy. unfold py_round2. rewrite !Qred_correct.
  assert (H : (round_half_even (x * 100) <= round_half_even (y * 100))%Z)
    by (apply round_half_even_mono; lra).
  rewrite Zle_Qle in H. unfold Qdiv.
  apply Qmult_le_compat_r; [exact H|]. discriminate.
Qed.

(** The score with the price set apart: what the other fields add does
    not depend on the price. *)
Lemma score_of_price (item : dict) :
  wf_score_fields item = true ->
  exists r, forall v, val_num_or_none v = true ->
    exists s, score (<["price" := v]> item) = Ok (py_round2 s) /\
              (s == price_points v + r)%Q.
Proof.
  unfold wf_score_fields. rewrite !andb_true_iff.
  intros [[[[_ Hb] Ha] Hn] Hc].
  apply num_or_none_get in Hb, Ha.
  destruct (num_or_absent_get_or item "nature_score" Hn) as [n En].
  destruct (num_or_absent_get_or item "commute_score" Hc) as [c Ec].
  exists ((match get item "beds" with
           | VNum b => if Qle_bool 3 b then 2 else if Qle_bool 2 b then 1 else 0
           | _ => 0
           end)
          + (match get item "baths" with
             | VNum b => if Qle_bool 2 b then 1 else 0
             | _ => 0
             end)
          + (if is_str (get item "dog_friendly") "yes" then 2 else 0)
          + (if is_str (get item "parking") "yes" then 2 else 0)
          + n + c)%Q.
  intros v Hv. apply num_or_none_get in Hv.
  unfold score. read_writes. rewrite En, Ec. unfold price_points.
  destruct Hv as [-> | [p ->]], Hb as [-> | [b ->]], Ha as [-> | [a ->]];
    cbn [is_none num_of bind];
    repeat match goal with
           | |- context [Qle_bool ?x ?y] => destruct (Qle_bool x y)
           end; cbn [bind];
    destruct (is_str (get item "dog_friendly") "yes");
    destruct (is_str (get item "parking") "yes");
    (eexists; split; [reflexivity|ring]).
Qed.

Lemma price_points_mono (p1 p2 : Q) :
  (p1 <= p2)%Q ->
  (price_points VNone <= price_points (VNum p2))%Q /\
  (price_points (VNum p2) <= price_points (VNum p1))%Q.
Proof.
  intros H. unfold price_points, MAX_RENT, STRETCH_MAX.
  destruct (Qle_bool p1 8000) eqn:E1; destruct (Qle_bool p1 9000) eqn:E2;
    destruct (Qle_bool p2 8000) eqn:E3; destruct (Qle_bool p2 9000) eqn:E4;
    (split; [lra|]); try lra;
    repeat match goal with
           | H : Qle_bool _ _ = true |- _ => apply Qle_bool_iff in H
           | H : Qle_bool _ _ = false |- _ =>
               apply not_true_iff_false in H; rewrite Qle_bool_iff in H
           end; exfalso; lra.
Qed.

(** X23: a lower price never lowers the score.  For a record with typed
    score fields, setting the price to [p1] scores at least as much as
    setting it to any [p2 >= p1], everything else being equal, and an
    unknown price scores no more than any known price. *)
Theorem cheaper_never_scores_lower (item : dict) (p1 p2 : Q) :
  wf_score_fields item = true -> (p1 <= p2)%Q ->
  exists s0 s1 s2,
    score (<["price" := VNone]> item) = Ok s0 /\
    score (<["price" := VNum p1]> item) = Ok s1 /\
    score (<["price" := VNum p2]> item) = Ok s2 /\
    (s0 <= s2)%Q /\ (s2 <= s1)%Q.
Proof.
  intros Hwf Hle. destruct (score_of_price item Hwf) as [r Hr].
  destruct (Hr VNone eq_refl) as (t0 & E0 & H0).
  destruct (Hr (VNum p1) eq_refl) as (t1 & E1 & H1).
  destruct (Hr (VNum p2) eq_refl) as (t2 & E2 & H2).
  destruct (price_points_mono p1 p2 Hle) as [Hn Hp].
  exists (py_round2 t0), (py_round2 t1), (py_round2 t2).
  split; [exact E0|]. split; [exact E1|]. split; [exact E2|].
  split; apply py_round2_mono; lra.
Qed.

Lemma cheaper_never_scores_lower_witness :
  exists s0 s1 s2,
    score (<["price" := VNone]> main_redfin) = Ok s0 /\
    score (<["price" := VNum 7900]> main_redfin) = Ok s1 /\
    score (<["price" := VNum 8500]> main_redfin) = Ok s2 /\
    (s0 <= s2)%Q /\ (s2 <= s1)%Q.
Proof.
  apply (cheaper_never_scores_lower main_redfin 7900 8500).
  - vm_compute. reflexivity.
  - unfold Qle. simpl. lia.
Defined.

(** * The end-to-end scenario, for all records *)

Lemma get_lookup (d : dict) (k : string) (s : string) :
  get d k = VStr s -> d !! k = Some (VStr s).
Proof. unfold get. destruct (d !! k); [by intros ->|discriminate]. Qed.

(** An address with a non-empty normal form is a non-empty string. *)
Lemma normalized_truthy (d : dict) (k s : string) :
  normalize_text (get_or d k (VStr "")) = Ok s -> s <> "" ->
  truthy (get d k) = true.
Proof.
  unfold get, get_or. destruct (d !! k) as [v|]; intros H Hs.
  - destruct (truthy v) eqn:E; [reflexivity|].
    unfold normalize_text, py_or in H. rewrite E in H.
    cbn in H. injection H as <-. by destruct Hs.
  - cbn in H. injection H as <-. by destruct Hs.
Qed.

(** The sources after two records with the same key. *)
Lemma merge_pair_sources (a b : dict) (k srca srcb : string) :
  wf_raw a = true -> wf_raw b = true ->
  canonical_key a = Ok k -> canonical_key b = Ok k ->
  get a "source" = VStr srca -> get b "source" = VStr srcb ->
  exists items' m,
    merge_loop [] [a; b] = Ok (items', [(k, m)]) /\
    get m "sources" = VList (sorted_union [srca] srcb).
Proof.
  intros Hwa Hwb Hka Hkb Hsa Hsb.
  apply get_lookup in Hsa, Hsb.
  destruct (merge_step_fields [] a Hwa wf_by_key_nil)
    as (k1 & sa & m1 & src & url & lid & Hk1 & _ & Hsrc & _ & _ & Hstep1
        & Hm1).
  rewrite Hka in Hk1. injection Hk1 as <-.
  rewrite Hsa in Hsrc. injection Hsrc as <-.
  cbn [bk_lookup bk_set] in Hstep1, Hm1.
  pose proof (merge_step_wf _ _ Hwa wf_by_key_nil _ _ Hstep1) as Hbk1.
  destruct (merge_step_fields [(k, m1)] b Hwb Hbk1)
    as (k2 & sb & m2 & src2 & url2 & lid2
        & Hk2 & _ & Hsrc2 & _ & _ & Hstep2 & Hm2).
  rewrite Hkb in Hk2. injection Hk2 as <-.
  rewrite Hsb in Hsrc2. injection Hsrc2 as <-.
  cbn [bk_lookup bk_set] in Hstep2, Hm2.
  rewrite String.eqb_refl in Hstep2, Hm2.
  destruct Hm2 as (stored & srcs & urls & lids & _ & Hsrcs & _ & _
                   & _ & Hm2 & _).
  assert (E : srcs = [srca]).
  { subst m1. rewrite !get_insert_ne in Hsrcs by discriminate.
    rewrite get_insert_eq in Hsrcs. by injection Hsrcs. }
  subst srcs. eexists _, m2. split; [|exact Hm2].
  cbn [merge_loop]. rewrite Hstep1. cbn [bind]. rewrite Hstep2. reflexivity.
Qed.

(** Two records of one key that together have the numbers, the first
    with an address, the representative of an allowed type: one listing
    comes back, and it passes. *)
Lemma pair_passes (x y : dict) (k srcx srcy pt : string) (sx sy p bd bt : Q) :
  wf_raw x = true -> wf_raw y = true ->
  canonical_key x = Ok k -> canonical_key y = Ok k ->
  truthy (get x "address") = true ->
  get x "source" = VStr srcx -> get y "source" = VStr srcy ->
  score x = Ok sx -> score y = Ok sy ->
  ptype_of (if Qlt_bool sx sy then y else x) = Ok pt ->
  allowed_type pt = true ->
  (if is_none (get x "price") then get y "price" else get x "price")
  = VNum p -> (p <= STRETCH_MAX)%Q ->
  (if is_none (get x "beds") then get y "beds" else get x "beds")
  = VNum bd -> (MIN_BEDS <= bd)%Q ->
  (if is_none (get x "baths") then get y "baths" else get x "baths")
  = VNum bt -> (MIN_BATHS <= bt)%Q ->
  exists items' m,
    merge_duplicates [x; y] = Ok (items', [m]) /\
    get m "sources" = VList (sorted_union [srcx] srcy) /\
    get m "price" = VNum p /\ get m "beds" = VNum bd /\
    get m "baths" = VNum bt /\ get m "data_quality" = VStr "pass".
Proof.
  intros Hwx Hwy Hkx Hky Haddr Hsrcx Hsrcy Hsx Hsy Hpt Hal
         Hp Hple Hb Hble Ht Htle.
  assert (Hitems : wf_items [x; y]) by (by repeat constructor).
  destruct (merge_pair x y k Hwx Hwy Hkx Hky)
    as (sx' & sy' & c & Hsx' & Hsy' & Hloop & [_ Hent] & HN & HR).
  rewrite Hsx in Hsx'. injection Hsx' as <-.
  rewrite Hsy in Hsy'. injection Hsy' as <-.
  destruct (merge_pair_sources x y k srcx srcy Hwx Hwy Hkx Hky Hsrcx Hsrcy)
    as (items2 & c2 & Hloop2 & Hsources).
  rewrite Hloop in Hloop2. injection Hloop2 as _ <-.
  destruct (Hent k c) as [_ Hck]; [cbn; by rewrite String.eqb_refl|].
  assert (Hcp : get c "price" = VNum p)
    by (rewrite (HN "price") by (simpl; tauto); exact Hp).
  assert (Hcb : get c "beds" = VNum bd)
    by (rewrite (HN "beds") by (simpl; tauto); exact Hb).
  assert (Hct : get c "baths" = VNum bt)
    by (rewrite (HN "baths") by (simpl; tauto); exact Ht).
  assert (Hcpt : ptype_of c = Ok pt).
  { unfold ptype_of in *. rewrite (HR "property_type") by (simpl; tauto).
    unfold annotated.
    destruct (Qlt_bool sx sy); rewrite annotated_get by discriminate;
      exact Hpt. }
  assert (Hcaddr : truthy (get c "address") = true).
  { destruct (first_values_loop [x; y] _ _ Hitems Hloop) as [_ Hinv].
    destruct (Hinv k c) as [_ Ha]; [cbn; by rewrite String.eqb_refl|].
    cbn [List.filter] in Ha. rewrite (key_is_Ok k k x Hkx) in Ha.
    rewrite String.eqb_refl in Ha. cbn [first_truthy fold_right] in Ha.
    fold (first_truthy "address" (List.filter (key_is k) [y])) in Ha.
    rewrite Haddr in Ha. by rewrite Ha. }
  assert (Hpass : passes_hard_filters c = Ok true).
  { rewrite (passes_hard_filters_eligible c pt Hcpt)
      by (rewrite ?Hcp, ?Hcb, ?Hct; reflexivity).
    unfold eligible. rewrite Hal, Hcp, Hcb, Hct. cbn [null_or andb].
    apply Qle_bool_iff in Hple, Hble, Htle. by rewrite Hple, Hble, Htle. }
  destruct (merge_duplicates_single [x; y] _ k c Hitems Hloop)
    as (out & Hout & _ & Hone).
  destruct (Hone Hpass) as (m & -> & Hattach).
  assert (Hreads : forall f, f <> "data_quality" -> f <> "quality_notes" ->
                     get m f = get c f)
    by (intros f; apply (attach_quality_get c m f Hattach)).
  eexists _, m. split; [exact Hout|].
  rewrite !Hreads by discriminate.
  split; [exact Hsources|]. split; [exact Hcp|]. split; [exact Hcb|].
  split; [exact Hct|].
  apply attach_quality_Ok in Hattach.
  destruct Hattach as (q & notes & Hq & ->). read_writes.
  assert (Hck' : truthy (get c "canonical_key") = true).
  { rewrite Hck. destruct (wf_raw_fields x Hwx) as (Hkf & _).
    destruct (canonical_key_shape x Hkf) as (k' & Hk' & Hshape).
    rewrite Hkx in Hk'. injection Hk' as <-.
    by apply key_shape_nonempty in Hshape as [_ H]. }
  assert (Hsrc' : truthy (get c "sources") = true).
  { rewrite Hsources. unfold sorted_union.
    destruct (insert_sorted srcy (sorted_set [srcx])) eqn:E; [|reflexivity].
    exfalso. revert E. cbn.
    destruct (String.compare srcy srcx); discriminate. }
  unfold quality_assessment in Hq.
  rewrite (quality_reasons_kept c pt Hck' Hsrc' Hcpt Hal) in Hq.
  rewrite Hcp, Hcb, Hct in Hq. unfold py_or in Hq. rewrite Hcaddr in Hq.
  rewrite Hcaddr in Hq. cbn in Hq. by injection Hq as <- _.
Qed.

Lemma returns_none (items : list dict) :
  match merge_duplicates items with
  | Ok (_, []) => True
  | _ => False
  end ->
  exists items', merge_duplicates items = Ok (items', []).
Proof.
  destruct (merge_duplicates items) as [[items' [|m tl]]|e];
    try contradiction.
  eauto.
Qed.

(** C2 (amended): take any two typed raw records whose addresses
    normalize to "123 main st", one from redfin with price 7500, 3 beds,
    2 baths and property type "house", the other from realtor with no
    price, no beds, 2.5 baths and dog-friendly "yes", and let the realtor
    record have an allowed property type or score strictly less than
    the redfin record.  Then both have the key "addr:123 main st" and
    [merge_duplicates] returns, in either arrival order, exactly one
    listing, with sources [realtor, redfin], price 7500, 3 beds and data
    quality "pass"; its baths are those of the record that arrived
    first: 2 when the redfin record is first, 2.5 when the realtor
    record is. *)
Theorem end_to_end_merge (a b : dict) (sa sb : Q) (pt : string) :
  wf_raw a = true -> wf_raw b = true ->
  normalize_text (get_or a "address" (VStr "")) = Ok "123 main st" ->
  normalize_text (get_or b "address" (VStr "")) = Ok "123 main st" ->
  get a "source" = VStr "redfin" -> get a "price" = VNum 7500 ->
  get a "beds" = VNum 3 -> get a "baths" = VNum 2 ->
  get a "property_type" = VStr "house" ->
  get b "source" = VStr "realtor" -> get b "price" = VNone ->
  get b "beds" = VNone -> get b "baths" = VNum (5 # 2) ->
  get b "dog_friendly" = VStr "yes" ->
  score a = Ok sa -> score b = Ok sb -> ptype_of b = Ok pt ->
  allowed_type pt = true \/ (sb < sa)%Q ->
  canonical_key a = Ok "addr:123 main st" /\
  canonical_key b = Ok "addr:123 main st" /\
  (exists items' m,
     merge_duplicates [a; b] = Ok (items', [m]) /\
     get m "sources" = VList ["realtor"; "redfin"] /\
     get m "price" = VNum 7500 /\ get m "beds" = VNum 3 /\
     get m "baths" = get a "baths" /\
     get m "baths" = VNum 2 /\
     get m "data_quality" = VStr "pass") /\
  (exists items' m,
     merge_duplicates [b; a] = Ok (items', [m]) /\
     get m "sources" = VList ["realtor"; "redfin"] /\
     get m "price" = VNum 7500 /\ get m "beds" = VNum 3 /\
     get m "baths" = get b "baths" /\
     get m "baths" = VNum (5 # 2) /\
     get m "data_quality" = VStr "pass").
Proof.
  intros Hwa Hwb Hna Hnb Hsrca Hpa Hba Hta Hpta Hsrcb Hpb Hbb Htb _
         Hsa Hsb Hptb Hor.
  assert (Hka : canonical_key a = Ok "addr:123 main st")
    by (unfold canonical_key; rewrite Hna; reflexivity).
  assert (Hkb : canonical_key b = Ok "addr:123 main st")
    by (unfold canonical_key; rewrite Hnb; reflexivity).
  assert (Haa : truthy (get a "address") = true)
    by (by apply (normalized_truthy a "address" "123 main st")).
  assert (Hab : truthy (get b "address") = true)
    by (by apply (normalized_truthy b "address" "123 main st")).
  assert (Hhouse : ptype_of a = Ok "house")
    by (unfold ptype_of; rewrite Hpta; reflexivity).
  split; [exact Hka|]. split; [exact Hkb|]. split.
  - destruct (pair_passes a b "addr:123 main st" "redfin" "realtor"
                (if Qlt_bool sa sb then pt else "house")
                sa sb 7500 3 2 Hwa Hwb Hka Hkb Haa Hsrca Hsrcb Hsa Hsb)
      as (items' & m & Hm & Hsrc & Hp & Hb & Ht & Hq).
    + by destruct (Qlt_bool sa sb).
    + destruct (Qlt_bool sa sb) eqn:E; [|reflexivity].
      apply Qlt_bool_true in E. destruct Hor as [H|H]; [exact H|].
      exfalso. lra.
    + by rewrite Hpa.
    + unfold STRETCH_MAX. lra.
    + by rewrite Hba.
    + unfold MIN_BEDS. lra.
    + by rewrite Hta.
    + unfold MIN_BATHS. lra.
    + exists items', m. rewrite Hta. auto 10.
  - destruct (pair_passes b a "addr:123 main st" "realtor" "redfin"
                (if Qlt_bool sb sa then "house" else pt)
                sb sa 7500 3 (5 # 2) Hwb Hwa Hkb Hka Hab Hsrcb Hsrca Hsb Hsa)
      as (items' & m & Hm & Hsrc & Hp & Hb & Ht & Hq).
    + by destruct (Qlt_bool sb sa).
    + destruct (Qlt_bool sb sa) eqn:E; [reflexivity|].
      apply Qlt_bool_false in E. destruct Hor as [H|H]; [exact H|].
      exfalso. lra.
    + by rewrite Hpb.
    + unfold STRETCH_MAX. lra.
    + by rewrite Hbb.
    + unfold MIN_BEDS. lra.
    + by rewrite Htb.
    + unfold MIN_BATHS. lra.
    + exists items', m. rewrite Htb. auto 10.
Qed.

Lemma end_to_end_merge_witness :
  canonical_key main_redfin = Ok "addr:123 main st" /\
  canonical_key main_realtor = Ok "addr:123 main st" /\
  (exists items' m,
     merge_duplicates [main_redfin; main_realtor] = Ok (items', [m]) /\
     get m "sources" = VList ["realtor"; "redfin"] /\
     get m "price" = VNum 7500 /\ get m "beds" = VNum 3 /\
     get m "baths" = get main_redfin "baths" /\
     get m "baths" = VNum 2 /\
     get m "data_quality" = VStr "pass") /\
  (exists items' m,
     merge_duplicates [main_realtor; main_redfin] = Ok (items', [m]) /\
     get m "sources" = VList ["realtor"; "redfin"] /\
     get m "price" = VNum 7500 /\ get m "beds" = VNum 3 /\
     get m "baths" = get main_realtor "baths" /\
     get m "baths" = VNum (5 # 2) /\
     get m "data_quality" = VStr "pass").
Proof.
  apply (end_to_end_merge main_redfin main_realtor 12 5 "unknown");
    try (vm_compute; reflexivity).
  right. unfold Qlt. simpl. lia.
Defined.

(** Why the property type of the realtor record matters: [realtor_alt]
    has every field the scenario names and scores 13 against the 12 of
    [main_redfin], so its unknown property type becomes the listing's,
    and the hard filter drops the listing in either order. *)
Example end_to_end_unknown_type_dropped :
  score main_redfin = Ok 12%Q /\ score realtor_alt = Ok 13%Q /\
  ptype_of realtor_alt = Ok "unknown" /\
  canonical_key realtor_alt = Ok "addr:123 main st" /\
  (exists items',
     merge_duplicates [main_redfin; realtor_alt] = Ok (items', [])) /\
  (exists items',
     merge_duplicates [realtor_alt; main_redfin] = Ok (items', [])).
Proof.
  do 4 (split; [vm_compute; reflexivity|]).
  split; apply returns_none; vm_compute; exact I.
Qed.
